(** * gookit/slog: the logger's record pool and fan-out, the file handler,
      the buffered handler and the writer configuration, embedded from the
      Go sources.

    Layout.  Shared values first; then the definitions, one module per
    part of the source: [Slog] (package slog: Record and Logger), [Os] (the
    files and the [bufio.Writer] the handlers write through), [Handler]
    (FileHandler and BufferedHandler), [HandlerConfig] (Config),
    [ConfigMore] (the config options and the Builder), [HandlerMore] (the
    other constructors, runs of [Handle]) and [SlogMore] (the rest of the
    Logger and Record methods); then the lemmas, in [SlogProofs],
    [OsProofs], [HandlerProofs], [HandlerConfigProofs], [SlogMoreProofs],
    [HandlerMoreProofs] and [ConfigMoreProofs], each ending with concrete
    loggers, handlers and builders on which the statements are run. *)

From stdpp Require Import base option list strings gmap.
From Stdlib Require Import ZArith Lia.
From Stdlib.Strings Require Import Byte.

Local Open Scope Z_scope.

(** ** Values shared by both packages *)

(** Go's [error] values.  [ErrMsg] is [errorx.Raw(msg)]; the others are the
    errors of package os and io that the modelled calls return. *)
Inductive error : Type :=
| ErrMsg (msg : string)
| ErrClosed          (* os.ErrClosed: the file is already closed *)
| ErrInvalid         (* os.ErrInvalid: no such file handle *)
| ErrNotExist        (* os.ErrNotExist *)
| ErrPermission      (* os.ErrPermission *)
| ErrNoSpace         (* syscall.ENOSPC: the device is full *)
| ErrShortWrite.     (* io.ErrShortWrite *)

#[global] Instance error_eq_dec : EqDecision error.
Proof. solve_decision. Defined.

(** What a Go call can do besides returning: block for ever on a mutex that
    is never released, or panic. *)
Inductive outcome (A : Type) : Type :=
| Returns (a : A)
| Blocks
| Panics.
Arguments Returns {A} a.
Arguments Blocks {A}.
Arguments Panics {A}.

#[global] Instance outcome_ret : MRet outcome := fun A a => Returns a.

#[global] Instance outcome_bind : MBind outcome := fun A B k m =>
  match m with
  | Returns a => k a
  | Blocks => Blocks
  | Panics => Panics
  end.

(** Go's [int] on a 64-bit platform: results wrap into [-2^63, 2^63). *)
Definition int_wrap (z : Z) : Z := (z + 2 ^ 63) mod 2 ^ 64 - 2 ^ 63.

(** ** Package slog: Record, the record pool and the Logger *)

Module Slog.

(** [interface{}] values stored in a record's maps. *)
Inductive value : Type :=
| VInt (z : Z)
| VStr (s : string)
| VErr (e : error).

(** [type M map[string]interface{}]; [None] is the nil map. *)
Abbreviation M := (option (gmap string value)).

(** [runtime.Frame], as far as a record carries it: file and line. *)
Abbreviation Frame := (string * Z)%type.

(** [time.Time] as an instant; [emptyTime] is the zero [time.Time{}]
    ([emptyTime] is declared outside the files at hand). *)
Abbreviation time := Z.
Definition emptyTime : time := 0.

(** [type Record struct] (the record source file, lines 14-38).  The
    [logger] back pointer is left out: one logger is modelled.  [CallerSkip]
    is the field [Logger.releaseRecord] and [Logger.log] assign
    (logger file, lines 487 and 757). *)
Record Record_ : Type := mkRecord {
  Level : Z;
  LevelName : string;
  Channel : string;
  Message : string;
  Time : time;
  Ctx : option nat;          (* context.Context; None is nil *)
  Fields : M;
  Data : M;
  Extra : M;
  Caller : option Frame;     (* *runtime.Frame; None is nil *)
  Formatted : list byte;
  CallerSkip : Z
}.

(** [func newRecord(logger *Logger) *Record]: [Fields: make(M)]. *)
Definition newRecord_value : Record_ :=
  {| Level := 0; LevelName := ""; Channel := ""; Message := ""; Time := emptyTime;
     Ctx := None; Fields := Some ∅; Data := None; Extra := None; Caller := None;
     Formatted := []; CallerSkip := 0 |}.

(** Records live on the heap; a [*Record] is an index into it. *)
Abbreviation heap := (list Record_).

Definition alloc (r : Record_) (hp : heap) : nat * heap := (length hp, hp ++ [r]).

(** Assignments through a [*Record]. *)
Definition store (a : nat) (f : Record_ -> Record_) (hp : heap) : heap :=
  match hp !! a with
  | Some r => <[a := f r]> hp
  | None => hp
  end.

(** [func (r *Record) WithContext(ctx)]: [r.Ctx = ctx; return r]. *)
Definition Record_WithContext (a : nat) (ctx : option nat) (hp : heap) : nat * heap :=
  (a, store a (fun r =>
     {| Level := Level r; LevelName := LevelName r; Channel := Channel r;
        Message := Message r; Time := Time r; Ctx := ctx; Fields := Fields r;
        Data := Data r; Extra := Extra r; Caller := Caller r;
        Formatted := Formatted r; CallerSkip := CallerSkip r |}) hp).

(** [func (r *Record) WithFields(fields M) *Record]: a new [&Record{...}]
    that copies logger, Time, Level, LevelName and Message and takes
    [fields]; every other field has its zero value. *)
Definition Record_WithFields (a : nat) (fields : M) (hp : heap) : outcome (nat * heap) :=
  match hp !! a with
  | Some r =>
      Returns (alloc {| Level := Level r; LevelName := LevelName r; Channel := "";
                        Message := Message r; Time := Time r; Ctx := None;
                        Fields := fields; Data := None; Extra := None;
                        Caller := None; Formatted := []; CallerSkip := 0 |} hp)
  | None => Panics   (* a dangling pointer; no *Record of the program is one *)
  end.

(** [func (r *Record) WithField(name, val)]: [r.WithFields(M{name: val})]. *)
Definition Record_WithField (a : nat) (name : string) (val : value) (hp : heap)
  : outcome (nat * heap) :=
  Record_WithFields a (Some {[ name := val ]}) hp.

(** [type Logger struct].  [mu] is the [sync.Mutex] (true when held),
    [recordPool] the [sync.Pool] as a free list of record pointers.  The
    function-valued options (TimeClock, ExitFunc, PanicFunc, exitHandlers)
    and [processors] play no part in the functions below. *)
Record Logger (Handler : Type) : Type := mkLogger {
  name : string;
  mu : bool;
  err : option error;
  handlers : list Handler;
  recordPool : list nat;
  LowerLevelName : bool;
  ReportCaller : bool;
  LoggerCallerSkip : Z;
  CallerFlag : Z
}.
Arguments mkLogger {Handler}.
Arguments name {Handler}.
Arguments mu {Handler}.
Arguments err {Handler}.
Arguments handlers {Handler}.
Arguments recordPool {Handler}.
Arguments LowerLevelName {Handler}.
Arguments ReportCaller {Handler}.
Arguments LoggerCallerSkip {Handler}.
Arguments CallerFlag {Handler}.

(** The handlers' side of the world: whatever state the handlers own
    ([World]), the log of handler method calls made by the logger, oldest
    first, each with what it returned, and what was printed on stderr. *)
Inductive method : Type := MFlush | MClose.

#[global] Instance method_eq_dec : EqDecision method.
Proof. solve_decision. Defined.

Record Env (Handler World : Type) : Type := mkEnv {
  world : World;
  calls : list (method * Handler * option error);
  stderr : list (string * option error)
}.
Arguments mkEnv {Handler World}.
Arguments world {Handler World}.
Arguments calls {Handler World}.
Arguments stderr {Handler World}.

(** [type Handler interface]: what [Flush] and [Close] of a handler do to
    the handlers' state, and what they return. *)
Class HandlerOps (Handler World : Type) : Type := {
  h_Flush : Handler -> World -> World * option error;
  h_Close : Handler -> World -> World * option error
}.

(** Parts of package slog that the logger file calls and that are declared
    elsewhere: [Level.String], [fmt.Sprint] over the arguments, the
    dispatch [Logger.write] (processors and handlers; it sees the record,
    the logger's last error and the handlers' state), and the Record
    methods [WithData] and [WithTime].  [write] is a function: the dispatch
    is taken to return (a dispatch that ends the process or panics, as the
    Fatal and Panic levels may, is outside the model). *)
Class LoggerDeps (Handler World : Type) : Type := {
  Level_String : Z -> string;
  Sprint : list value -> string;
  write : Z -> Record_ -> option error -> Env Handler World
          -> Record_ * option error * Env Handler World;
  Record_WithData : nat -> M -> heap -> nat * heap;
  Record_WithTime : nat -> time -> heap -> nat * heap
}.

Section model.
Context {Handler World : Type}.
Context `{!HandlerOps Handler World, !LoggerDeps Handler World}.

Abbreviation Logger := (Logger Handler).
Abbreviation Env := (Env Handler World).

Definition set_err (e : option error) (l : Logger) : Logger :=
  mkLogger (name l) (mu l) e (handlers l) (recordPool l)
           (LowerLevelName l) (ReportCaller l) (LoggerCallerSkip l) (CallerFlag l).

Definition set_mu (b : bool) (l : Logger) : Logger :=
  mkLogger (name l) b (err l) (handlers l) (recordPool l)
           (LowerLevelName l) (ReportCaller l) (LoggerCallerSkip l) (CallerFlag l).

Definition set_pool (p : list nat) (l : Logger) : Logger :=
  mkLogger (name l) (mu l) (err l) (handlers l) p
           (LowerLevelName l) (ReportCaller l) (LoggerCallerSkip l) (CallerFlag l).

Definition set_handlers (hs : list Handler) (l : Logger) : Logger :=
  mkLogger (name l) (mu l) (err l) hs (recordPool l)
           (LowerLevelName l) (ReportCaller l) (LoggerCallerSkip l) (CallerFlag l).

(** [func NewWithName(name string) *Logger]. *)
Definition NewWithName (n : string) : Logger :=
  mkLogger n false None [] [] false true 5 0.

(** [sync.Mutex]: Lock on a held mutex never returns. *)
Definition mu_Lock (l : Logger) : outcome Logger :=
  if mu l then Blocks else Returns (set_mu true l).

Definition mu_Unlock (l : Logger) : Logger := set_mu false l.

(** [handler.Flush()] and [handler.Close()] as the logger calls them. *)
Definition handler_Flush (h : Handler) (e : Env) : Env * option error :=
  let '(w, r) := h_Flush h (world e) in
  (mkEnv w (calls e ++ [(MFlush, h, r)]) (stderr e), r).

Definition handler_Close (h : Handler) (e : Env) : Env * option error :=
  let '(w, r) := h_Close h (world e) in
  (mkEnv w (calls e ++ [(MClose, h, r)]) (stderr e), r).

Definition printlnStderr (msg : string) (r : option error) (e : Env) : Env :=
  mkEnv (world e) (calls e) (stderr e ++ [(msg, r)]).

(** [func (l *Logger) newRecord() *Record]: [l.recordPool.Get()], which
    takes a pooled record or calls [New], that is [newRecord(logger)]. *)
Definition Logger_newRecord (l : Logger) (hp : heap) : nat * Logger * heap :=
  match recordPool l with
  | a :: p => (a, set_pool p l, hp)
  | [] => let '(a, hp') := alloc newRecord_value hp in (a, l, hp')
  end.

(** [func (l *Logger) releaseRecord(r *Record)]. *)
Definition releaseRecord (l : Logger) (a : nat) (hp : heap) : Logger * heap :=
  let hp' := store a (fun r =>
     {| Level := Level r; LevelName := LevelName r; Channel := Channel r;
        Message := Message r;
        Time := emptyTime;
        Ctx := Ctx r;
        Fields := None;
        Data := None;
        Extra := None;
        Caller := Caller r; Formatted := Formatted r;
        CallerSkip := LoggerCallerSkip l |}) hp in
  (set_pool (a :: recordPool l) l, hp').

(** [func (l *Logger) VisitAll(fn func(handler Handler) error) error]:
    the loop stops at the first handler for which [fn] returns an error.
    [fn] works on the logger and the handlers' state. *)
Fixpoint VisitAll_range (hs : list Handler)
    (fn : Handler -> Logger * Env -> Logger * Env * option error)
    (s : Logger * Env) : Logger * Env * option error :=
  match hs with
  | [] => (s, None)
  | h :: hs' =>
      match fn h s with
      | (s', Some e) => (s', Some e)
      | (s', None) => VisitAll_range hs' fn s'
      end
  end.

Definition VisitAll (fn : Handler -> Logger * Env -> Logger * Env * option error)
    (s : Logger * Env) : Logger * Env * option error :=
  VisitAll_range (handlers (fst s)) fn s.

(** [func (l *Logger) flushAll()]. *)
Definition flushAll (s : Logger * Env) : Logger * Env :=
  fst (VisitAll (fun handler '(l, e) =>
         let '(e1, r) := handler_Flush handler e in
         match r with
         | Some _ =>
             (set_err r l,
              printlnStderr "slog: call handler.Flush() error:" r e1, None)
         | None => (l, e1, None)
         end) s).

(** [func (l *Logger) lockAndFlushAll() error]. *)
Definition lockAndFlushAll (s : Logger * Env) : outcome (Logger * Env * option error) :=
  l1 ← mu_Lock (fst s);
  let '(l2, e2) := flushAll (l1, snd s) in
  let l3 := mu_Unlock l2 in
  Returns (l3, e2, err l3).

(** [func (l *Logger) Flush() error]. *)
Definition Flush (s : Logger * Env) : outcome (Logger * Env * option error) :=
  lockAndFlushAll s.

(** [func (l *Logger) Close() error]. *)
Definition Close (s : Logger * Env) : Logger * Env * option error :=
  let '(l1, e1) :=
    fst (VisitAll (fun handler '(l, e) =>
           let '(e1, r) := handler_Close handler e in
           match r with
           | Some _ =>
               (set_err r l,
                printlnStderr "slog: call handler.Close() error:" r e1, None)
           | None => (l, e1, None)
           end) s) in
  (l1, e1, err l1).

(** [func (l *Logger) LastErr() error]. *)
Definition LastErr (l : Logger) : Logger * option error :=
  let e := err l in
  (set_err None l, e).

(** [func (l *Logger) AddHandler(h Handler)]. *)
Definition AddHandler (h : Handler) (l : Logger) : Logger :=
  set_handlers (handlers l ++ [h]) l.

(** [func (l *Logger) AddHandlers(hs ...Handler)]. *)
Definition AddHandlers (hs : list Handler) (l : Logger) : Logger :=
  set_handlers (handlers l ++ hs) l.

(** [func (r *Record) log(level Level, message string)]
    (the record source file, lines 108-115). *)
Definition Record_log (a : nat) (level : Z) (message : string)
    (s : Logger * heap * Env) : Logger * heap * Env :=
  let '(l, hp, e) := s in
  let hp1 := store a (fun r =>
     {| Level := level;
        LevelName := Level_String level;
        Channel := Channel r;
        Message := message;
        Time := Time r; Ctx := Ctx r; Fields := Fields r; Data := Data r;
        Extra := Extra r; Caller := Caller r; Formatted := Formatted r;
        CallerSkip := CallerSkip r |}) hp in
  match hp1 !! a with
  | Some r =>
      let '(r', er, e') := write level r (err l) e in
      (set_err er l, <[a := r']> hp1, e')
  | None => (l, hp1, e)
  end.

(** [func (l *Logger) log(level Level, args []interface{})].  The record's
    [log] at hand takes the message, which [Record.Log] builds with
    [fmt.Sprint(args...)]. *)
Definition Logger_log (level : Z) (args : list value)
    (s : Logger * heap * Env) : Logger * heap * Env :=
  let '(l, hp, e) := s in
  let '(a, l1, hp1) := Logger_newRecord l hp in
  let hp2 := store a (fun r =>
     {| Level := Level r; LevelName := LevelName r; Channel := Channel r;
        Message := Message r; Time := Time r; Ctx := Ctx r; Fields := Fields r;
        Data := Data r; Extra := Extra r; Caller := Caller r;
        Formatted := Formatted r;
        CallerSkip := int_wrap (CallerSkip r + 1) |}) hp1 in
  let '(l3, hp3, e3) := Record_log a level (Sprint args) (l1, hp2, e) in
  let '(l4, hp4) := releaseRecord l3 a hp3 in
  (l4, hp4, e3).

(** [func (l *Logger) Record() *Record]: the deferred [releaseRecord(r)]
    runs after the result [r] is fixed and before the caller has it. *)
Definition Logger_Record (l : Logger) (hp : heap) : nat * Logger * heap :=
  let '(a, l1, hp1) := Logger_newRecord l hp in
  let '(l2, hp2) := releaseRecord l1 a hp1 in
  (a, l2, hp2).

(** [func (l *Logger) WithFields(fields M) *Record]:
    [return r.WithFields(fields)], then the deferred release of [r]. *)
Definition Logger_WithFields (fields : M) (l : Logger) (hp : heap)
  : outcome (nat * Logger * heap) :=
  let '(a, l1, hp1) := Logger_newRecord l hp in
  '(b, hp2) ← Record_WithFields a fields hp1;
  let '(l2, hp3) := releaseRecord l1 a hp2 in
  Returns (b, l2, hp3).

(** [func (l *Logger) WithField(name string, value interface{}) *Record]. *)
Definition Logger_WithField (nm : string) (val : value) (l : Logger) (hp : heap)
  : outcome (nat * Logger * heap) :=
  let '(a, l1, hp1) := Logger_newRecord l hp in
  '(b, hp2) ← Record_WithField a nm val hp1;
  let '(l2, hp3) := releaseRecord l1 a hp2 in
  Returns (b, l2, hp3).

(** [func (l *Logger) WithData(data M) *Record]. *)
Definition Logger_WithData (data : M) (l : Logger) (hp : heap) : nat * Logger * heap :=
  let '(a, l1, hp1) := Logger_newRecord l hp in
  let '(b, hp2) := Record_WithData a data hp1 in
  let '(l2, hp3) := releaseRecord l1 a hp2 in
  (b, l2, hp3).

(** [func (l *Logger) WithTime(t time.Time) *Record]. *)
Definition Logger_WithTime (t : time) (l : Logger) (hp : heap) : nat * Logger * heap :=
  let '(a, l1, hp1) := Logger_newRecord l hp in
  let '(b, hp2) := Record_WithTime a t hp1 in
  let '(l2, hp3) := releaseRecord l1 a hp2 in
  (b, l2, hp3).

(** [func (l *Logger) WithContext(ctx context.Context) *Record]. *)
Definition Logger_WithContext (ctx : option nat) (l : Logger) (hp : heap)
  : nat * Logger * heap :=
  let '(a, l1, hp1) := Logger_newRecord l hp in
  let '(b, hp2) := Record_WithContext a ctx hp1 in
  let '(l2, hp3) := releaseRecord l1 a hp2 in
  (b, l2, hp3).

(** What a fan-out over [hs] is expected to do, told without the logger:
    each handler's method runs on the state the previous one left, whatever
    it returns.  The result is the final state and the calls made. *)
Fixpoint fan_out (m : method) (hs : list Handler) (w : World)
  : World * list (method * Handler * option error) :=
  match hs with
  | [] => (w, [])
  | h :: hs' =>
      let '(w1, r) := match m with
                      | MFlush => h_Flush h w
                      | MClose => h_Close h w
                      end in
      let '(w2, cs) := fan_out m hs' w1 in
      (w2, (m, h, r) :: cs)
  end.

(** The errors among the results of a list of calls, in call order. *)
Definition failures (cs : list (method * Handler * option error)) : list error :=
  omap snd cs.

(** The two fan-outs of the logger, by method: [flushAll] and [Close]. *)
Definition fan (m : method) (s : Logger * Env) : Logger * Env :=
  match m with
  | MFlush => flushAll s
  | MClose => fst (Close s)
  end.

(** The specification's words on what release does, for comparison with
    [releaseRecord]: every mutable field of the record has its empty value. *)
Definition all_fields_empty (r : Record_) : Prop :=
  Level r = 0 /\ LevelName r = "" /\ Message r = "" /\ Time r = emptyTime
  /\ Fields r = None /\ Data r = None /\ Extra r = None
  /\ Ctx r = None /\ Caller r = None.

(** Every pooled pointer points into the heap. *)
Definition pool_valid (l : Logger) (hp : heap) : Prop :=
  Forall (fun a => (a < length hp)%nat) (recordPool l).

End model.
End Slog.

(** ** The operating system, as far as package handler uses it *)

Module Os.

Local Open Scope nat_scope.

(** An entry of the file table: the path the handle was opened for, and
    whether it is still open. *)
Record Handle : Type := mkHandle {
  h_path : string;
  h_open : bool
}.

(** The state of the operating system.  Open flags and permissions are not
    modelled: every handle is opened for appending, as [DefaultFileFlags]
    asks.
    [handles] is the file table, a file descriptor being an index into it;
    [wlog] lists the bytes the device accepted, per write call, oldest
    first (handles are opened with O_APPEND, so a path's content is the
    concatenation of the writes to its handles); [room] is the free space
    left on the device; [synced] lists the fsync calls; [denied] the paths
    and directories that cannot be created or opened. *)
Record OS : Type := mkOS {
  handles : list Handle;
  wlog : list (nat * list byte);
  room : nat;
  synced : list nat;
  denied : list string
}.

(** [os.MkdirAll(dir, 0777)], as far as the handlers see it: the error it
    returns.  Directories are no part of the modelled state, so those it
    creates, and leaves behind when the open that follows fails, do not
    show in [OS]. *)
Definition MkdirAll (dir : string) (os : OS) : OS * option error :=
  if bool_decide (dir ∈ denied os) then (os, Some ErrPermission) else (os, None).

(** [os.OpenFile(path, O_CREATE|O_WRONLY|O_APPEND, perm)]. *)
Definition OpenFile (path : string) (os : OS) : OS * (nat + error) :=
  if bool_decide (path = "") then (os, inr ErrNotExist)
  else if bool_decide (path ∈ denied os) then (os, inr ErrPermission)
  else (mkOS (handles os ++ [mkHandle path true]) (wlog os) (room os)
             (synced os) (denied os),
        inl (length (handles os))).

(** [os.File.Write(p)]: all of [p] when the device has room for it,
    else the part that fits, with ENOSPC. *)
Definition file_Write (fd : nat) (p : list byte) (os : OS) : OS * nat * option error :=
  match handles os !! fd with
  | None => (os, 0, Some ErrInvalid)
  | Some h =>
      if h_open h then
        if length p <=? room os then
          (mkOS (handles os) (wlog os ++ [(fd, p)]) (room os - length p)
                (synced os) (denied os),
           length p, None)
        else
          (mkOS (handles os) (wlog os ++ [(fd, take (room os) p)]) 0
                (synced os) (denied os),
           room os, Some ErrNoSpace)
      else (os, 0, Some ErrClosed)
  end.

(** [os.File.Sync()]. *)
Definition file_Sync (fd : nat) (os : OS) : OS * option error :=
  match handles os !! fd with
  | None => (os, Some ErrInvalid)
  | Some h =>
      if h_open h then
        (mkOS (handles os) (wlog os) (room os) (synced os ++ [fd]) (denied os), None)
      else (os, Some ErrClosed)
  end.

(** [os.File.Close()]. *)
Definition file_Close (fd : nat) (os : OS) : OS * option error :=
  match handles os !! fd with
  | None => (os, Some ErrInvalid)
  | Some h =>
      if h_open h then
        (mkOS (<[fd := mkHandle (h_path h) false]> (handles os)) (wlog os) (room os)
              (synced os) (denied os), None)
      else (os, Some ErrClosed)
  end.

(** The bytes that reached the device through handle [fd]. *)
Definition written (fd : nat) (os : OS) : list byte :=
  concat (map snd (filter (fun c => fst c = fd) (wlog os))).

(** The handles that are open for [path]. *)
Definition open_handles (path : string) (os : OS) : list Handle :=
  filter (fun h => h_path h = path ∧ h_open h = true) (handles os).

Definition is_open (fd : nat) (os : OS) : bool :=
  match handles os !! fd with
  | Some h => h_open h
  | None => false
  end.

(** [bufio.Writer] of Go's standard library: [b_buf] holds the [n]
    buffered bytes, [b_size] is [len(b.buf)], [b_wr] the file written to. *)
Record bufioWriter : Type := mkBufio {
  b_err : option error;
  b_size : nat;
  b_buf : list byte;
  b_wr : nat
}.

Definition defaultBufSize : nat := 4096.

(** [bufio.NewWriterSize(w, size)], for a [w] that is a file. *)
Definition bufio_NewWriterSize (w : nat) (size : Z) : bufioWriter :=
  mkBufio None (if (size <=? 0)%Z then defaultBufSize else Z.to_nat size) [] w.

Definition bufio_Buffered (b : bufioWriter) : nat := length (b_buf b).

Definition bufio_Available (b : bufioWriter) : nat := b_size b - length (b_buf b).

(** [func (b *Writer) Flush() error]. *)
Definition bufio_Flush (b : bufioWriter) (os : OS) : bufioWriter * OS * option error :=
  match b_err b with
  | Some e => (b, os, Some e)
  | None =>
      if length (b_buf b) =? 0 then (b, os, None)
      else
        let '(os', n, e) := file_Write (b_wr b) (b_buf b) os in
        let e' := match e with
                  | None => if n <? length (b_buf b) then Some ErrShortWrite else None
                  | Some _ => e
                  end in
        match e' with
        | Some _ => (mkBufio e' (b_size b) (drop n (b_buf b)) (b_wr b), os', e')
        | None => (mkBufio None (b_size b) [] (b_wr b), os', None)
        end
  end.

(** The loop of [func (b *Writer) Write(p []byte)]:
    [for len(p) > b.Available() && b.err == nil].  It returns the writer,
    the rest of [p] and the count [nn]. *)
Fixpoint bufio_Write_loop (fuel : nat) (b : bufioWriter) (os : OS) (p : list byte)
    (nn : nat) : bufioWriter * OS * list byte * nat :=
  match fuel with
  | O => (b, os, p, nn)
  | S fuel' =>
      if (bufio_Available b <? length p) && bool_decide (b_err b = None) then
        if bufio_Buffered b =? 0 then
          (* Large write, empty buffer: write directly from p. *)
          let '(os', n, e) := file_Write (b_wr b) p os in
          bufio_Write_loop fuel' (mkBufio e (b_size b) (b_buf b) (b_wr b)) os'
                           (drop n p) (nn + n)
        else
          let n := min (bufio_Available b) (length p) in
          let b1 := mkBufio (b_err b) (b_size b) (b_buf b ++ take n p) (b_wr b) in
          let '(b2, os', _) := bufio_Flush b1 os in
          bufio_Write_loop fuel' b2 os' (drop n p) (nn + n)
      else (b, os, p, nn)
  end.

(** [func (b *Writer) Write(p []byte) (nn int, err error)].  The loop runs
    at most twice (a fill and flush, then a direct write), see
    [bufio_Write_loop_fuel] below. *)
Definition bufio_Write (b : bufioWriter) (p : list byte) (os : OS)
  : bufioWriter * OS * nat * option error :=
  let '(b1, os1, p1, nn) := bufio_Write_loop 3 b os p 0 in
  match b_err b1 with
  | Some e => (b1, os1, nn, Some e)
  | None =>
      let n := min (bufio_Available b1) (length p1) in
      (mkBufio None (b_size b1) (b_buf b1 ++ take n p1) (b_wr b1), os1, nn + n, None)
  end.

End Os.

(** ** Package handler: FileHandler and BufferedHandler *)

Module Handler.
Import Os.

Local Open Scope nat_scope.

(** A formatter: [Format(r) ([]byte, error)]. *)
Definition Formatter (R : Type) : Type := R -> list byte + error.

(** [lockWrapper] is embedded by both handlers and declared outside the
    files at hand: its zero value, [Lock] ([None] when the call never
    returns) and [Unlock].  [lw_relock]: a lock that was taken and released
    can be taken again. *)
Class Locker (Mutex : Type) : Type := {
  lw_zero : Mutex;
  lw_Lock : Mutex -> option Mutex;
  lw_Unlock : Mutex -> Mutex;
  lw_relock : forall m m1, lw_Lock m = Some m1 -> is_Some (lw_Lock (lw_Unlock m1))
}.

(** What package handler takes from package slog and from [path]:
    the two formatters, [slog.AllLevels], the formatter [Formatter()]
    returns when none was set, and [path.Dir]. *)
Class HandlerDeps (R : Type) : Type := {
  NewJSONFormatter : Formatter R;
  NewTextFormatter : Formatter R;
  unset_Formatter : Formatter R;
  AllLevels : list Z;
  path_Dir : string -> string
}.

(** [LevelsWithFormatter], embedded by both handlers and declared outside
    the files at hand: the field [Levels] that [NewFileHandler] sets, and
    the formatter that [SetFormatter] stores and [Formatter()] returns. *)
Record LevelsWithFormatter (R : Type) : Type := mkLWF {
  Levels : list Z;
  formatter : option (Formatter R)
}.
Arguments mkLWF {R}.
Arguments Levels {R}.
Arguments formatter {R}.

(** [type FileHandler struct]. *)
Record FileHandler (R Mutex : Type) : Type := mkFileHandler {
  fh_lockWrapper : Mutex;
  fh_LevelsWithFormatter : LevelsWithFormatter R;
  fpath : string;
  file : nat;
  bufio : option bufioWriter;
  useJSON : bool;
  NoBuffer : bool;
  fh_BuffSize : Z
}.
Arguments mkFileHandler {R Mutex}.
Arguments fh_lockWrapper {R Mutex}.
Arguments fh_LevelsWithFormatter {R Mutex}.
Arguments fpath {R Mutex}.
Arguments file {R Mutex}.
Arguments bufio {R Mutex}.
Arguments useJSON {R Mutex}.
Arguments NoBuffer {R Mutex}.
Arguments fh_BuffSize {R Mutex}.

(** [type BufferedHandler struct]; [handler] is the wrapped
    [slog.WriterHandler], here the file handler. *)
Record BufferedHandler (R Mutex : Type) : Type := mkBufferedHandler {
  bh_lockWrapper : Mutex;
  bh_LevelsWithFormatter : LevelsWithFormatter R;
  buffer : option bufioWriter;
  handler : FileHandler R Mutex;
  bh_BuffSize : Z
}.
Arguments mkBufferedHandler {R Mutex}.
Arguments bh_lockWrapper {R Mutex}.
Arguments bh_LevelsWithFormatter {R Mutex}.
Arguments buffer {R Mutex}.
Arguments handler {R Mutex}.
Arguments bh_BuffSize {R Mutex}.

(** [const bufferSize = 256 * 1024]. *)
Definition bufferSize : Z := 256 * 1024.

Section model.
Context {R Mutex : Type}.
Context `{!Locker Mutex, !HandlerDeps R}.

Abbreviation FileHandler := (FileHandler R Mutex).
Abbreviation BufferedHandler := (BufferedHandler R Mutex).

(** [h.Formatter()]. *)
Definition get_Formatter (lwf : LevelsWithFormatter R) : Formatter R :=
  match formatter lwf with
  | Some f => f
  | None => unset_Formatter
  end.

Definition set_file (fd : nat) (h : FileHandler) : FileHandler :=
  mkFileHandler (fh_lockWrapper h) (fh_LevelsWithFormatter h) (fpath h) fd (bufio h)
                (useJSON h) (NoBuffer h) (fh_BuffSize h).

Definition set_bufio (b : option bufioWriter) (h : FileHandler) : FileHandler :=
  mkFileHandler (fh_lockWrapper h) (fh_LevelsWithFormatter h) (fpath h) (file h) b
                (useJSON h) (NoBuffer h) (fh_BuffSize h).

Definition set_fh_lock (m : Mutex) (h : FileHandler) : FileHandler :=
  mkFileHandler m (fh_LevelsWithFormatter h) (fpath h) (file h) (bufio h)
                (useJSON h) (NoBuffer h) (fh_BuffSize h).

Definition set_fh_BuffSize (n : Z) (h : FileHandler) : FileHandler :=
  mkFileHandler (fh_lockWrapper h) (fh_LevelsWithFormatter h) (fpath h) (file h)
                (bufio h) (useJSON h) (NoBuffer h) n.

(** [func (h *FileHandler) Configure(fn func(h *FileHandler)) *FileHandler]. *)
Definition Configure (fn : FileHandler -> FileHandler) (h : FileHandler) : FileHandler :=
  fn h.

(** [h.Lock()], of the embedded [lockWrapper]. *)
Definition Lock (m : Mutex) : outcome Mutex :=
  match lw_Lock m with
  | Some m1 => Returns m1
  | None => Blocks
  end.

(** [func openFile(filepath string, flag int, mode int) (file, error)]. *)
Definition openFile (filepath : string) (os : OS) : OS * (nat + error) :=
  let fileDir := path_Dir filepath in
  match MkdirAll fileDir os with
  | (os1, Some e) => (os1, inr e)
  | (os1, None) =>
      match OpenFile filepath os1 with
      | (os2, inr e) => (os2, inr e)
      | (os2, inl f) => (os2, inl f)
      end
  end.

(** [func NewFileHandler(filepath string, useJSON bool) (handler, error)]. *)
Definition NewFileHandler (filepath : string) (json : bool) (os : OS)
  : OS * (FileHandler + error) :=
  let lwf := mkLWF AllLevels
               (Some (if json then NewJSONFormatter else NewTextFormatter)) in
  match openFile filepath os with
  | (os1, inr e) => (os1, inr e)
  | (os1, inl f) =>
      (os1, inl (mkFileHandler lw_zero lwf filepath f None json false bufferSize))
  end.

(** [func (h *FileHandler) ReopenFile() error]. *)
Definition ReopenFile (h : FileHandler) (os : OS) : FileHandler * OS * option error :=
  match openFile (fpath h) os with
  | (os1, inr e) => (h, os1, Some e)
  | (os1, inl f) => (set_file f h, os1, None)
  end.

(** [func (h *FileHandler) Writer() io.Writer]. *)
Definition FileHandler_Writer (h : FileHandler) : nat := file h.

(** [func (h *FileHandler) Flush() error]. *)
Definition FileHandler_Flush (h : FileHandler) (os : OS)
  : FileHandler * OS * option error :=
  match bufio h with
  | Some b =>
      match bufio_Flush b os with
      | (b1, os1, Some e) => (set_bufio (Some b1) h, os1, Some e)
      | (b1, os1, None) =>
          let '(os2, r) := file_Sync (file h) os1 in
          (set_bufio (Some b1) h, os2, r)
      end
  | None =>
      let '(os1, r) := file_Sync (file h) os in
      (h, os1, r)
  end.

(** [func (h *FileHandler) Close() error]. *)
Definition FileHandler_Close (h : FileHandler) (os : OS)
  : FileHandler * OS * option error :=
  match FileHandler_Flush h os with
  | (h1, os1, Some e) => (h1, os1, Some e)
  | (h1, os1, None) =>
      let '(os2, r) := file_Close (file h1) os1 in
      (h1, os2, r)
  end.

(** [func (h *FileHandler) Handle(r *slog.Record) (err error)]. *)
Definition FileHandler_Handle (h : FileHandler) (r : R) (os : OS)
  : outcome (FileHandler * OS * option error) :=
  match get_Formatter (fh_LevelsWithFormatter h) r with
  | inr e => Returns (h, os, Some e)
  | inl bts =>
      m1 ← Lock (fh_lockWrapper h);
      (* defer h.Unlock() *)
      if NoBuffer h then
        let '(os1, _, e) := file_Write (file h) bts os in
        Returns (set_fh_lock (lw_Unlock m1) h, os1, e)
      else
        let b := match bufio h with
                 | Some b => b
                 | None => bufio_NewWriterSize (file h) (fh_BuffSize h)
                 end in
        let '(b1, os1, _, e) := bufio_Write b bts os in
        Returns (set_fh_lock (lw_Unlock m1) (set_bufio (Some b1) h), os1, e)
  end.

Definition set_buffer (b : option bufioWriter) (h : BufferedHandler) : BufferedHandler :=
  mkBufferedHandler (bh_lockWrapper h) (bh_LevelsWithFormatter h) b (handler h)
                    (bh_BuffSize h).

Definition set_handler (fh : FileHandler) (h : BufferedHandler) : BufferedHandler :=
  mkBufferedHandler (bh_lockWrapper h) (bh_LevelsWithFormatter h) (buffer h) fh
                    (bh_BuffSize h).

Definition set_bh_lock (m : Mutex) (h : BufferedHandler) : BufferedHandler :=
  mkBufferedHandler m (bh_LevelsWithFormatter h) (buffer h) (handler h)
                    (bh_BuffSize h).

(** [func NewBufferedHandler(handler slog.WriterHandler, bufSize int)]. *)
Definition NewBufferedHandler (fh : FileHandler) (bufSize : Z) : BufferedHandler :=
  mkBufferedHandler lw_zero (mkLWF [] None)
    (Some (bufio_NewWriterSize (FileHandler_Writer fh) bufSize)) fh bufSize.

(** [func (h *BufferedHandler) Flush() error]. *)
Definition BufferedHandler_Flush (h : BufferedHandler) (os : OS)
  : outcome (BufferedHandler * OS * option error) :=
  m1 ← Lock (bh_lockWrapper h);
  (* defer h.Unlock() *)
  match buffer h with
  | None => Panics   (* h.buffer is nil *)
  | Some b =>
      match bufio_Flush b os with
      | (b1, os1, Some e) =>
          Returns (set_bh_lock (lw_Unlock m1) (set_buffer (Some b1) h), os1, Some e)
      | (b1, os1, None) =>
          let '(fh1, os2, r) := FileHandler_Flush (handler h) os1 in
          Returns (set_bh_lock (lw_Unlock m1)
                     (set_handler fh1 (set_buffer (Some b1) h)), os2, r)
      end
  end.

(** [func (h *BufferedHandler) Close() error]. *)
Definition BufferedHandler_Close (h : BufferedHandler) (os : OS)
  : outcome (BufferedHandler * OS * option error) :=
  '(h1, os1, r) ← BufferedHandler_Flush h os;
  match r with
  | Some e => Returns (h1, os1, Some e)
  | None =>
      let '(fh1, os2, r2) := FileHandler_Close (handler h1) os1 in
      Returns (set_handler fh1 h1, os2, r2)
  end.

(** [func (h *BufferedHandler) Handle(record *slog.Record) error]. *)
Definition BufferedHandler_Handle (h : BufferedHandler) (record : R) (os : OS)
  : outcome (BufferedHandler * OS * option error) :=
  match get_Formatter (bh_LevelsWithFormatter h) record with
  | inr e => Returns (h, os, Some e)
  | inl bts =>
      m1 ← Lock (bh_lockWrapper h);
      (* defer h.Unlock() *)
      let b := match buffer h with
               | Some b => b
               | None => bufio_NewWriterSize (FileHandler_Writer (handler h))
                                             (bh_BuffSize h)
               end in
      let '(b1, os1, _, e) := bufio_Write b bts os in
      let h1 := set_bh_lock m1 (set_buffer (Some b1) h) in
      (* flush logs *)
      if (bh_BuffSize h <=? Z.of_nat (bufio_Buffered b1))%Z then
        '(h2, os2, r) ← BufferedHandler_Flush h1 os1;
        Returns (set_bh_lock (lw_Unlock (bh_lockWrapper h2)) h2, os2, r)
      else
        Returns (set_bh_lock (lw_Unlock m1) h1, os1, e)
  end.

(** Sequences of operations on one file handler. *)
Inductive op : Type :=
| OpHandle (r : R)
| OpFlush
| OpClose
| OpReopenFile.

Definition step (o : op) (s : FileHandler * OS) : outcome (FileHandler * OS) :=
  match o with
  | OpHandle r =>
      '(h, os, _) ← FileHandler_Handle (fst s) r (snd s);
      Returns (h, os)
  | OpFlush =>
      let '(h, os, _) := FileHandler_Flush (fst s) (snd s) in Returns (h, os)
  | OpClose =>
      let '(h, os, _) := FileHandler_Close (fst s) (snd s) in Returns (h, os)
  | OpReopenFile =>
      let '(h, os, _) := ReopenFile (fst s) (snd s) in Returns (h, os)
  end.

Fixpoint run (ops : list op) (s : FileHandler * OS) : outcome (FileHandler * OS) :=
  match ops with
  | [] => Returns s
  | o :: ops' => s' ← step o s; run ops' s'
  end.

(** Along [ops], [ReopenFile] is only called while the handler's current
    file is closed. *)
Fixpoint reopens_closed (ops : list op) (s : FileHandler * OS) : Prop :=
  match ops with
  | [] => True
  | o :: ops' =>
      (o = OpReopenFile -> is_open (file (fst s)) (snd s) = false)
      /\ match step o s with
         | Returns s' => reopens_closed ops' s'
         | _ => True
         end
  end.

(** Every open handle for the handler's path is the handler's file. *)
Definition sole_handle (h : FileHandler) (os : OS) : Prop :=
  forall fd hd,
    handles os !! fd = Some hd -> h_path hd = fpath h -> h_open hd = true ->
    fd = file h.

End model.
Arguments op R : clear implicits.
End Handler.

(** ** Package handler: Config and the writers it builds *)

Module HandlerConfig.
Import Os.

(** [const BuffModeLine = "line"], [BuffModeBite = "bite"]. *)
Definition BuffModeLine : string := "line".
Definition BuffModeBite : string := "bite".

(** [type Config struct].  [MaxSize] is a uint64, [BuffSize] an int,
    [RotateTime] a [rotatefile.RotateTime] (an int of seconds). *)
Record Config : Type := mkConfig {
  Logfile : string;
  Levels : list Z;
  UseJSON : bool;
  BuffMode : string;
  BuffSize : Z;
  RotateTime : Z;
  MaxSize : Z;
  Compress : bool;
  BackupNum : Z;
  BackupTime : Z;
  RenameFunc : option (string -> Z -> string)
}.

(** [rotatefile.Config], the fields [CreateWriter] assigns. *)
Record RotateConfig : Type := mkRotateConfig {
  rc_CloseLock : bool;
  rc_Filepath : string;
  rc_MaxSize : Z;
  rc_RotateTime : Z;
  rc_BackupNum : Z;
  rc_BackupTime : Z;
  rc_Compress : bool;
  rc_RenameFunc : option (string -> Z -> string)
}.

(** What [CreateWriter] calls in packages rotatefile, fsutil and bufwrite;
    [W] is the writer they build. *)
Class WriterDeps (W : Type) : Type := {
  rotatefile_EmptyConfigWith : RotateConfig;
  rotatefile_Create : RotateConfig -> OS -> OS * (W + error);
  fsutil_QuickOpenFile : string -> OS -> OS * (W + error);
  bufwrite_NewLineWriterSize : W -> Z -> W;
  bufwrite_NewBufIOWriterSize : W -> Z -> W
}.

Section model.
Context {W : Type} `{!WriterDeps W}.

(** [func (c *Config) wrapBuffer(w io.Writer) (bw flushSyncCloseWriter)]. *)
Definition wrapBuffer (c : Config) (w : W) : outcome W :=
  if bool_decide (BuffSize c = 0) then Panics
  else if bool_decide (BuffMode c = BuffModeLine)
       then Returns (bufwrite_NewLineWriterSize w (BuffSize c))
       else Returns (bufwrite_NewBufIOWriterSize w (BuffSize c)).

(** [func (c *Config) CreateWriter() (output SyncCloseWriter, err error)]. *)
Definition CreateWriter (c : Config) (os : OS) : outcome (OS * (W + error)) :=
  if bool_decide (Logfile c = "") then
    Returns (os, inr (ErrMsg "slog: logfile cannot be empty for create writer"))
  else
    let '(os1, res) :=
      if bool_decide (0 < MaxSize c ∨ 0 < RotateTime c) then
        let rc := rotatefile_EmptyConfigWith in
        let rc := mkRotateConfig true (Logfile c) (MaxSize c) (RotateTime c)
                    (BackupNum c) (BackupTime c) (Compress c)
                    (match RenameFunc c with
                     | Some f => Some f
                     | None => rc_RenameFunc rc
                     end) in
        rotatefile_Create rc os
      else fsutil_QuickOpenFile (Logfile c) os in
    match res with
    | inr e => Returns (os1, inr e)
    | inl output =>
        if bool_decide (0 < BuffSize c) then
          bw ← wrapBuffer c output;
          Returns (os1, inl bw)
        else Returns (os1, inl output)
    end.

(** [func (c *Config) RotateWriter() (output SyncCloseWriter, err error)]. *)
Definition RotateWriter (c : Config) (os : OS) : outcome (OS * (W + error)) :=
  if bool_decide (MaxSize c = 0 ∧ RotateTime c = 0) then
    Returns (os, inr (ErrMsg
      "slog: cannot create rotate writer, MaxSize and RotateTime both is 0"))
  else CreateWriter c os.

End model.
End HandlerConfig.

(** ** Package handler: the config options and the Builder *)

Module ConfigMore.
Import Os HandlerConfig.

(** [type ConfigFn func(c *Config)]: what the function does to the config. *)
Definition ConfigFn : Type := Config -> Config.

(** [func WithLogfile(logfile string) ConfigFn]. *)
Definition WithLogfile (logfile : string) : ConfigFn := fun c =>
  mkConfig logfile (Levels c) (UseJSON c) (BuffMode c) (BuffSize c) (RotateTime c)
           (MaxSize c) (Compress c) (BackupNum c) (BackupTime c) (RenameFunc c).

(** [func WithLogLevels(levels slog.Levels) ConfigFn]. *)
Definition WithLogLevels (levels : list Z) : ConfigFn := fun c =>
  mkConfig (Logfile c) levels (UseJSON c) (BuffMode c) (BuffSize c) (RotateTime c)
           (MaxSize c) (Compress c) (BackupNum c) (BackupTime c) (RenameFunc c).

(** [func WithRotateTime(rt rotatefile.RotateTime) ConfigFn]. *)
Definition WithRotateTime (rt : Z) : ConfigFn := fun c =>
  mkConfig (Logfile c) (Levels c) (UseJSON c) (BuffMode c) (BuffSize c) rt
           (MaxSize c) (Compress c) (BackupNum c) (BackupTime c) (RenameFunc c).

(** [func WithBuffMode(buffMode string) ConfigFn]. *)
Definition WithBuffMode (buffMode : string) : ConfigFn := fun c =>
  mkConfig (Logfile c) (Levels c) (UseJSON c) buffMode (BuffSize c) (RotateTime c)
           (MaxSize c) (Compress c) (BackupNum c) (BackupTime c) (RenameFunc c).

(** [func WithBuffSize(buffSize int) ConfigFn]. *)
Definition WithBuffSize (buffSize : Z) : ConfigFn := fun c =>
  mkConfig (Logfile c) (Levels c) (UseJSON c) (BuffMode c) buffSize (RotateTime c)
           (MaxSize c) (Compress c) (BackupNum c) (BackupTime c) (RenameFunc c).

(** [func WithMaxSize(maxSize uint64) ConfigFn]. *)
Definition WithMaxSize (maxSize : Z) : ConfigFn := fun c =>
  mkConfig (Logfile c) (Levels c) (UseJSON c) (BuffMode c) (BuffSize c) (RotateTime c)
           maxSize (Compress c) (BackupNum c) (BackupTime c) (RenameFunc c).

(** [func WithCompress(compress bool) ConfigFn]. *)
Definition WithCompress (compress : bool) : ConfigFn := fun c =>
  mkConfig (Logfile c) (Levels c) (UseJSON c) (BuffMode c) (BuffSize c) (RotateTime c)
           (MaxSize c) compress (BackupNum c) (BackupTime c) (RenameFunc c).

(** [func WithUseJSON(useJSON bool) ConfigFn]. *)
Definition WithUseJSON (useJSON : bool) : ConfigFn := fun c =>
  mkConfig (Logfile c) (Levels c) useJSON (BuffMode c) (BuffSize c) (RotateTime c)
           (MaxSize c) (Compress c) (BackupNum c) (BackupTime c) (RenameFunc c).

(** [func (c *Config) With(fns ...ConfigFn) *Config]. *)
Definition With (fns : list ConfigFn) (c : Config) : Config :=
  fold_left (fun c fn => fn c) fns c.

(** [type Builder struct]: the embedded config and the output writer, nil
    when [None]. *)
Record Builder (W : Type) : Type := mkBuilder {
  b_Config : Config;
  Output : option W
}.
Arguments mkBuilder {W}.
Arguments b_Config {W}.
Arguments Output {W}.

(** What the Builder takes from elsewhere: [slog.AllLevels]; which of the
    interfaces SyncCloseWriter, FlushCloseWriter and io.WriteCloser the
    dynamic type of a writer implements; the four handler constructors;
    and, for a handler, whether it has a [SetFormatter] method and what
    that does with the JSON formatter. *)
Class BuilderDeps (W H : Type) : Type := {
  slog_AllLevels : list Z;
  is_SyncCloseWriter : W -> bool;
  is_FlushCloseWriter : W -> bool;
  is_WriteCloser : W -> bool;
  NewSyncCloseHandler : W -> list Z -> H;
  NewFlushCloseHandler : W -> list Z -> H;
  NewWriteCloser : W -> list Z -> H;
  NewIOWriter : W -> list Z -> H;
  has_SetFormatter : H -> bool;
  SetFormatter_JSON : H -> H
}.

Section model.
Context {W H : Type} `{!WriterDeps W, !BuilderDeps W H}.

Abbreviation Builder := (Builder W).

(** [func NewEmptyConfig(fns ...ConfigFn) *Config]. *)
Definition NewEmptyConfig (fns : list ConfigFn) : Config :=
  With fns (mkConfig "" slog_AllLevels false "" 0 0 0 false 0 0 None).

(** [func NewBuilder() *Builder]. *)
Definition NewBuilder : Builder := mkBuilder (NewEmptyConfig []) None.

(** [func (b *Builder) WithOutput(w io.Writer) *Builder]. *)
Definition Builder_WithOutput (w : option W) (b : Builder) : Builder :=
  mkBuilder (b_Config b) w.

(** [func (b *Builder) With(fns ...ConfigFn) *Builder]. *)
Definition Builder_With (fns : list ConfigFn) (b : Builder) : Builder :=
  mkBuilder (With fns (b_Config b)) (Output b).

(** [WithLogfile], [WithLogLevels], [WithBuffMode], [WithBuffSize],
    [WithMaxSize], [WithRotateTime], [WithCompress] and [WithUseJSON] of
    the Builder assign the field of the embedded config. *)
Definition Builder_WithLogfile (logfile : string) (b : Builder) : Builder :=
  mkBuilder (WithLogfile logfile (b_Config b)) (Output b).

Definition Builder_WithLogLevels (levels : list Z) (b : Builder) : Builder :=
  mkBuilder (WithLogLevels levels (b_Config b)) (Output b).

Definition Builder_WithBuffMode (bufMode : string) (b : Builder) : Builder :=
  mkBuilder (WithBuffMode bufMode (b_Config b)) (Output b).

Definition Builder_WithBuffSize (bufSize : Z) (b : Builder) : Builder :=
  mkBuilder (WithBuffSize bufSize (b_Config b)) (Output b).

Definition Builder_WithMaxSize (maxSize : Z) (b : Builder) : Builder :=
  mkBuilder (WithMaxSize maxSize (b_Config b)) (Output b).

Definition Builder_WithRotateTime (rt : Z) (b : Builder) : Builder :=
  mkBuilder (WithRotateTime rt (b_Config b)) (Output b).

Definition Builder_WithCompress (compress : bool) (b : Builder) : Builder :=
  mkBuilder (WithCompress compress (b_Config b)) (Output b).

Definition Builder_WithUseJSON (useJSON : bool) (b : Builder) : Builder :=
  mkBuilder (WithUseJSON useJSON (b_Config b)) (Output b).

(** [func (b *Builder) reset()]. *)
Definition Builder_reset (b : Builder) : Builder :=
  mkBuilder (NewEmptyConfig []) None.

(** [if bufSize > 0 { w = b.wrapBuffer(w) }]. *)
Definition wrap_when_buffered (c : Config) (w : W) : outcome W :=
  if bool_decide (0 < BuffSize c) then wrapBuffer c w else Returns w.

(** [func (b *Builder) buildFromWriter(w io.Writer) (h slog.Handler)];
    the deferred [b.reset()] gives the builder that is left. *)
Definition buildFromWriter (b : Builder) (w : W) : outcome (H * Builder) :=
  let c := b_Config b in
  h ← (if is_SyncCloseWriter w then
         scw ← wrap_when_buffered c w;
         Returns (NewSyncCloseHandler scw (Levels c))
       else if is_FlushCloseWriter w then
         fcw ← wrap_when_buffered c w;
         Returns (NewFlushCloseHandler fcw (Levels c))
       else if is_WriteCloser w then
         wc ← wrap_when_buffered c w;
         Returns (NewWriteCloser wc (Levels c))
       else
         w' ← wrap_when_buffered c w;
         Returns (NewIOWriter w' (Levels c)));
  let h' := if UseJSON c then
              if has_SetFormatter h then SetFormatter_JSON h else h
            else h in
  Returns (h', Builder_reset b).

(** [func (b *Builder) Build() slog.Handler]. *)
Definition Build (b : Builder) (os : OS) : outcome (H * Builder * OS) :=
  match Output b with
  | Some w =>
      '(h, b') ← buildFromWriter b w;
      Returns (h, b', os)
  | None =>
      if bool_decide (Logfile (b_Config b) <> "") then
        '(os1, res) ← CreateWriter (b_Config b) os;
        match res with
        | inr _ => Panics
        | inl w =>
            '(h, b') ← buildFromWriter b w;
            Returns (h, b', os1)
        end
      else Panics   (* missing some information for build slog handler *)
  end.

End model.
End ConfigMore.

(** ** Package handler: constructors and runs of [Handle] *)

Module HandlerMore.
Import Os Handler.

Local Open Scope nat_scope.

Section model.
Context {R Mutex : Type}.
Context `{!Locker Mutex, !HandlerDeps R}.

Abbreviation FileHandler := (FileHandler R Mutex).
Abbreviation BufferedHandler := (BufferedHandler R Mutex).

(** [func JSONFileHandler(filepath string) (handler, error)]. *)
Definition JSONFileHandler (filepath : string) (os : OS) : OS * (FileHandler + error) :=
  NewFileHandler filepath true os.

(** [func MustFileHandler(filepath string, useJSON bool) *FileHandler]:
    panics on the error of [NewFileHandler]. *)
Definition MustFileHandler (filepath : string) (json : bool) (os : OS)
  : outcome (OS * FileHandler) :=
  match NewFileHandler filepath json os with
  | (os1, inr _) => Panics
  | (os1, inl h) => Returns (os1, h)
  end.

(** [h.Handle(r)] for each record of [rs] in turn; the errors the calls
    return, in order. *)
Fixpoint FileHandler_Handle_each (rs : list R) (s : FileHandler * OS)
  : outcome (FileHandler * OS * list (option error)) :=
  match rs with
  | [] => Returns (s, [])
  | r :: rs' =>
      '(h1, os1, e) ← FileHandler_Handle (fst s) r (snd s);
      '(h2, os2, es) ← FileHandler_Handle_each rs' (h1, os1);
      Returns (h2, os2, e :: es)
  end.


(** The bytes of the records that the formatter [f] accepts, in order. *)
Definition formatted (f : Formatter R) (rs : list R) : list byte :=
  concat (omap (fun r => match f r with
                         | inl bts => Some bts
                         | inr _ => None
                         end) rs).

(** What the formatter [f] returns as error, record by record. *)
Definition format_errors (f : Formatter R) (rs : list R) : list (option error) :=
  map (fun r => match f r with
                | inl _ => None
                | inr e => Some e
                end) rs.

End model.
End HandlerMore.

(** ** Package slog: the rest of the Logger and Record methods *)

Module SlogMore.
Import Slog.

Section model.
Context {Handler World : Type}.
Context `{!HandlerOps Handler World, !LoggerDeps Handler World}.

Abbreviation Logger := (Logger Handler).
Abbreviation Env := (Env Handler World).

(** [func New() *Logger]. *)
Definition New : Logger := NewWithName "logger".

(** [func NewWithHandlers(hs ...Handler) *Logger]. *)
Definition NewWithHandlers (hs : list Handler) : Logger :=
  AddHandlers hs (NewWithName "logger").

(** [func (l *Logger) PushHandlers(hs ...Handler)]. *)
Definition PushHandlers (hs : list Handler) (l : Logger) : Logger :=
  set_handlers (handlers l ++ hs) l.

(** [func (l *Logger) PushHandler(h Handler)]: [l.AddHandler(h)]. *)
Definition PushHandler (h : Handler) (l : Logger) : Logger := AddHandler h l.

(** [func (l *Logger) SetHandlers(hs []Handler)]. *)
Definition SetHandlers (hs : list Handler) (l : Logger) : Logger := set_handlers hs l.

(** [func (l *Logger) ResetHandlers()]: [l.handlers = make([]Handler, 0)]. *)
Definition ResetHandlers (l : Logger) : Logger := set_handlers [] l.

(** [func (l *Logger) Reset()]: [ResetHandlers] and [ResetProcessors]; the
    processors are no part of the modelled logger. *)
Definition Reset (l : Logger) : Logger := ResetHandlers l.

(** [func (l *Logger) FlushAll() error]. *)
Definition FlushAll (s : Logger * Env) : outcome (Logger * Env * option error) :=
  lockAndFlushAll s.

(** [func (l *Logger) MustFlush()]: panics on an error. *)
Definition MustFlush (s : Logger * Env) : outcome (Logger * Env) :=
  '(l, e, r) ← lockAndFlushAll s;
  match r with
  | Some _ => Panics
  | None => Returns (l, e)
  end.

(** [var ErrorKey = "error"]. *)
Definition ErrorKey : string := "error".

(** [func (r *Record) WithError(err error) *Record]. *)
Definition Record_WithError (a : nat) (er : error) (hp : heap) : outcome (nat * heap) :=
  Record_WithFields a (Some {[ ErrorKey := VErr er ]}) hp.

Definition set_Fields (m : M) (r : Record_) : Record_ :=
  {| Level := Level r; LevelName := LevelName r; Channel := Channel r;
     Message := Message r; Time := Time r; Ctx := Ctx r; Fields := m;
     Data := Data r; Extra := Extra r; Caller := Caller r;
     Formatted := Formatted r; CallerSkip := CallerSkip r |}.

(** [func (r *Record) AddField(name string, val interface{}) *Record]:
    [r.Fields[name] = val], which panics on the nil map.  (Maps are values
    here: a map shared by two records is not modelled.) *)
Definition Record_AddField (a : nat) (nm : string) (val : value) (hp : heap)
  : outcome (nat * heap) :=
  match hp !! a with
  | Some r =>
      match Fields r with
      | Some m => Returns (a, <[a := set_Fields (Some (<[nm := val]> m)) r]> hp)
      | None => Panics
      end
  | None => Panics
  end.

(** [func (r *Record) AddFields(fields M) *Record]: one assignment
    [r.Fields[n] = v] per entry of [fields]; none for a nil or empty
    [fields], so that the nil [r.Fields] only panics when there is an entry
    to assign. *)
Definition Record_AddFields (a : nat) (fields : M) (hp : heap) : outcome (nat * heap) :=
  match hp !! a with
  | Some r =>
      let entries := default ∅ fields in
      if decide (entries = ∅) then Returns (a, hp)
      else
        match Fields r with
        | Some m =>
            Returns (a, <[a := set_Fields
                                 (Some (map_fold (fun n v acc => <[n := v]> acc) m entries))
                                 r]> hp)
        | None => Panics
        end
  | None => Panics
  end.

(** [func (r *Record) Log(level Level, args ...interface{})]. *)
Definition Record_Log (a : nat) (level : Z) (args : list value)
    (s : Logger * heap * Env) : Logger * heap * Env :=
  Record_log a level (Sprint args) s.

(** [func (l *Logger) Log(level Level, args ...interface{})]. *)
Definition Logger_Log (level : Z) (args : list value)
    (s : Logger * heap * Env) : Logger * heap * Env :=
  Logger_log level args s.

End model.
End SlogMore.

(** * Lemmas on package slog *)

Module SlogProofs.
Import Slog.

Section proofs.
Context {Handler World : Type}.
Context `{!HandlerOps Handler World, !LoggerDeps Handler World}.

Abbreviation Logger := (Logger Handler).
Abbreviation Env := (Env Handler World).

(** The error a fan-out leaves in the logger: the last failure, or the
    error that was there when nothing failed. *)
Definition err_after (old : option error) (cs : list (method * Handler * option error))
  : option error :=
  match last (failures cs) with
  | Some x => Some x
  | None => old
  end.

Lemma failures_cons m h r (cs : list (method * Handler * option error)) :
  failures ((m, h, r) :: cs) =
  match r with Some x => x :: failures cs | None => failures cs end.
Proof. unfold failures. simpl. destruct r; reflexivity. Qed.

Lemma err_after_cons_None old m h (cs : list (method * Handler * option error)) :
  err_after old ((m, h, None) :: cs) = err_after old cs.
Proof. unfold err_after. rewrite failures_cons. reflexivity. Qed.

Lemma err_after_cons_Some old m h x (cs : list (method * Handler * option error)) :
  err_after old ((m, h, Some x) :: cs) = err_after (Some x) cs.
Proof.
  unfold err_after. rewrite failures_cons.
  destruct (failures cs) as [|y ys] eqn:E; [reflexivity|].
  change (last (x :: y :: ys)) with (last (y :: ys)).
  destruct (last (y :: ys)) eqn:L; [reflexivity|].
  apply last_None in L. discriminate.
Qed.

Lemma fan_out_fst m hs (w : World) :
  map fst (snd (fan_out m hs w)) = map (fun h => (m, h)) hs.
Proof.
  revert w. induction hs as [|h hs IH]; intros w; simpl; [reflexivity|].
  destruct (match m with MFlush => h_Flush h w | MClose => h_Close h w end) as [w1 r].
  specialize (IH w1). destruct (fan_out m hs w1) as [w2 cs]. simpl in *.
  by rewrite IH.
Qed.

(** The callbacks [flushAll] and [Close] hand to [VisitAll], by method. *)
Definition method_call (m : method) : Handler -> Env -> Env * option error :=
  match m with
  | MFlush => handler_Flush
  | MClose => handler_Close
  end.

Definition method_msg (m : method) : string :=
  match m with
  | MFlush => "slog: call handler.Flush() error:"
  | MClose => "slog: call handler.Close() error:"
  end.

Definition fan_fn (m : method) (handler : Handler) (s : Logger * Env)
  : Logger * Env * option error :=
  let '(l, e) := s in
  let '(e1, r) := method_call m handler e in
  match r with
  | Some _ => (set_err r l, printlnStderr (method_msg m) r e1, None)
  | None => (l, e1, None)
  end.

(** The loop of a fan-out never stops early: it makes the calls of
    [fan_out], keeps the handler list and the pool, and leaves the last
    failure in [err]. *)
Lemma fan_range m hs (l : Logger) (e : Env) :
  exists l' e',
    VisitAll_range hs (fan_fn m) (l, e) = (l', e', None)
    /\ world e' = fst (fan_out m hs (world e))
    /\ calls e' = calls e ++ snd (fan_out m hs (world e))
    /\ err l' = err_after (err l) (snd (fan_out m hs (world e)))
    /\ handlers l' = handlers l /\ recordPool l' = recordPool l /\ mu l' = mu l.
Proof.
  revert l e. induction hs as [|h hs IH]; intros l e.
  { exists l, e. simpl. rewrite app_nil_r. by repeat split. }
  cbn [VisitAll_range fan_out]. unfold fan_fn at 1.
  assert (Hcall : method_call m h e =
                  (mkEnv (fst (match m with
                               | MFlush => h_Flush h (world e)
                               | MClose => h_Close h (world e)
                               end))
                         (calls e ++ [(m, h, snd (match m with
                                                  | MFlush => h_Flush h (world e)
                                                  | MClose => h_Close h (world e)
                                                  end))])
                         (stderr e),
                   snd (match m with
                        | MFlush => h_Flush h (world e)
                        | MClose => h_Close h (world e)
                        end))).
  { destruct m; unfold method_call, handler_Flush, handler_Close;
      [by destruct (h_Flush h (world e)) | by destruct (h_Close h (world e))]. }
  rewrite Hcall. clear Hcall.
  destruct (match m with
            | MFlush => h_Flush h (world e)
            | MClose => h_Close h (world e)
            end) as [w1 r].
  cbn [fst snd].
  destruct r as [x|].
  - destruct (IH (set_err (Some x) l)
                 (printlnStderr (method_msg m) (Some x)
                    (mkEnv w1 (calls e ++ [(m, h, Some x)]) (stderr e))))
      as (l' & e' & Hrange & Hw & Hc & He & Hh & Hp & Hm).
    rewrite Hrange. simpl in Hw, Hc, He, Hh, Hp, Hm.
    destruct (fan_out m hs w1) as [w2 cs]. simpl in *.
    exists l', e'. rewrite err_after_cons_Some, Hc, <- app_assoc. by repeat split.
  - destruct (IH l (mkEnv w1 (calls e ++ [(m, h, None)]) (stderr e)))
      as (l' & e' & Hrange & Hw & Hc & He & Hh & Hp & Hm).
    rewrite Hrange. simpl in Hw, Hc, He, Hh, Hp, Hm.
    destruct (fan_out m hs w1) as [w2 cs]. simpl in *.
    exists l', e'. rewrite err_after_cons_None, Hc, <- app_assoc. by repeat split.
Qed.

(** Both fan-outs at once. *)
Lemma fan_spec m (l : Logger) (e : Env) :
  exists l' e',
    fan m (l, e) = (l', e')
    /\ world e' = fst (fan_out m (handlers l) (world e))
    /\ calls e' = calls e ++ snd (fan_out m (handlers l) (world e))
    /\ err l' = err_after (err l) (snd (fan_out m (handlers l) (world e)))
    /\ handlers l' = handlers l /\ recordPool l' = recordPool l /\ mu l' = mu l.
Proof.
  destruct (fan_range m (handlers l) l e) as (l' & e' & Hrange & H).
  exists l', e'. split; [|exact H].
  destruct m; unfold fan, flushAll, Close, VisitAll; simpl.
  - change (fst (VisitAll_range (handlers l) (fan_fn MFlush) (l, e)) = (l', e')).
    by rewrite Hrange.
  - change ((let '(l1, e1) := fst (VisitAll_range (handlers l) (fan_fn MClose) (l, e))
             in (l1, e1, err l1)).1 = (l', e')).
    by rewrite Hrange.
Qed.

(** C5: [Flush()] and [Close()] call the method on every registered
    handler, in registration order, whatever the handlers return: the calls
    made are one per handler of [handlers l], in that order, and the
    handlers' state is the one the whole sequence of methods produces. *)
Theorem Flush_Close_visit_every_handler (l : Logger) (e : Env) :
  mu l = false ->
  (exists l1 e1 r cs,
      Flush (l, e) = Returns (l1, e1, r)
      /\ calls e1 = calls e ++ cs
      /\ map fst cs = map (fun h => (MFlush, h)) (handlers l)
      /\ world e1 = fst (fan_out MFlush (handlers l) (world e)))
  /\ (exists l2 e2 r cs,
      Close (l, e) = (l2, e2, r)
      /\ calls e2 = calls e ++ cs
      /\ map fst cs = map (fun h => (MClose, h)) (handlers l)
      /\ world e2 = fst (fan_out MClose (handlers l) (world e))).
Proof.
  intros Hmu. split.
  - unfold Flush, lockAndFlushAll, mu_Lock. simpl. rewrite Hmu. simpl.
    destruct (fan_spec MFlush (set_mu true l) e)
      as (l' & e' & Hfan & Hw & Hc & _). simpl in Hfan, Hw, Hc.
    rewrite Hfan. eexists _, _, _, _. split; [reflexivity|].
    split; [exact Hc|]. split; [apply fan_out_fst | exact Hw].
  - destruct (fan_spec MClose l e) as (l' & e' & Hfan & Hw & Hc & _).
    simpl in Hfan. destruct (Close (l, e)) as [[l2 e2] r]. simpl in Hfan.
    inversion Hfan; subst. eexists _, _, _, _. split; [reflexivity|].
    split; [exact Hc|]. split; [apply fan_out_fst | exact Hw].
Qed.

(** C4: when two or more of the registered handlers fail in one fan-out
    (flush or close), the fan-out has called every handler, and the logger
    afterwards holds one error, that of the last handler that failed; the
    errors returned earlier in the fan-out are gone.  [Close] returns that
    error, and so does [Flush] when the mutex is free.  The failures are
    those of the registered handlers called in registration order, each on
    the state the calls before it left. *)
Theorem fan_out_keeps_last_error (m : method) (l : Logger) (e : Env) :
  let returned := snd (fan_out m (handlers l) (world e)) in
  (2 <= length (failures returned))%nat ->
  exists x,
    last (failures returned) = Some x
    /\ calls (snd (fan m (l, e))) = calls e ++ returned
    /\ err (fst (fan m (l, e))) = Some x
    /\ (m = MClose -> snd (Close (l, e)) = Some x)
    /\ (m = MFlush -> mu l = false ->
        exists l' e',
          Flush (l, e) = Returns (l', e', Some x)
          /\ err l' = Some x /\ calls e' = calls e ++ returned).
Proof.
  intros returned Hlen.
  destruct (last (failures returned)) as [x|] eqn:Hlast.
  2:{ apply last_None in Hlast. rewrite Hlast in Hlen. simpl in Hlen. lia. }
  exists x. split; [reflexivity|].
  destruct (fan_spec m l e) as (l1 & e1 & Hfan & _ & Hc & He & _).
  fold returned in Hc, He. unfold err_after in He. rewrite Hlast in He.
  rewrite Hfan. simpl. split; [exact Hc|]. split; [exact He|]. split.
  - intros ->. simpl in Hfan. unfold Close in *.
    destruct (fst (VisitAll _ (l, e))) as [l2 e2]. simpl in *.
    inversion Hfan; subst. exact He.
  - intros -> Hmu.
    destruct (fan_spec MFlush (set_mu true l) e)
      as (l2 & e2 & Hfan2 & _ & Hc2 & He2 & _).
    simpl in Hfan2, Hc2, He2. fold returned in Hc2, He2.
    unfold err_after in He2. rewrite Hlast in He2.
    unfold Flush, lockAndFlushAll, mu_Lock. simpl. rewrite Hmu. simpl.
    rewrite Hfan2. simpl. rewrite He2. eexists _, _. split; [reflexivity|].
    split; [exact He2|exact Hc2].
Qed.

(** C3: [LastErr()] returns the recorded error and clears it: the error
    returned is the one last assigned to [l.err], and a second call right
    after it returns nil. *)
Theorem LastErr_returns_and_clears (l : Logger) (x : error) :
  err l = Some x ->
  snd (LastErr l) = Some x
  /\ err (fst (LastErr l)) = None
  /\ snd (LastErr (fst (LastErr l))) = None
  /\ (forall y, snd (LastErr (set_err (Some y) l)) = Some y).
Proof. intros H. unfold LastErr. simpl. by rewrite H. Qed.

(** After a fan-out in which some handler failed, [LastErr()] returns the
    last failure, once. *)
Lemma LastErr_after_fan m (l : Logger) (e : Env) x :
  last (failures (snd (fan_out m (handlers l) (world e)))) = Some x ->
  snd (LastErr (fst (fan m (l, e)))) = Some x
  /\ snd (LastErr (fst (LastErr (fst (fan m (l, e)))))) = None.
Proof.
  intros L. destruct (fan_spec m l e) as (l1 & e1 & -> & _ & _ & He & _).
  unfold LastErr. simpl. rewrite He. unfold err_after. by rewrite L.
Qed.

(** *** The record pool *)

Lemma store_length a f (hp : heap) : length (store a f hp) = length hp.
Proof. unfold store. destruct (hp !! a); [apply length_insert | reflexivity]. Qed.

Lemma store_lookup a f (hp : heap) r :
  hp !! a = Some r -> store a f hp !! a = Some (f r).
Proof.
  intros H. unfold store. rewrite H.
  apply list_lookup_insert_eq. by eapply lookup_lt_Some.
Qed.

Lemma store_lookup_ne a b f (hp : heap) :
  a <> b -> store a f hp !! b = hp !! b.
Proof.
  intros H. unfold store. destruct (hp !! a); [|reflexivity].
  by apply list_lookup_insert_ne.
Qed.

Lemma pool_valid_length (l l' : Logger) (hp hp' : heap) :
  recordPool l' = recordPool l -> (length hp <= length hp')%nat ->
  pool_valid l hp -> pool_valid l' hp'.
Proof.
  unfold pool_valid. intros -> Hle H. eapply Forall_impl; [exact H|].
  simpl. intros. lia.
Qed.

(** [newRecord] hands out a pointer into the heap and leaves the pool
    valid; the logger's options are untouched. *)
Lemma Logger_newRecord_spec (l : Logger) (hp : heap) :
  pool_valid l hp ->
  exists a l1 hp1 r,
    Logger_newRecord l hp = (a, l1, hp1)
    /\ hp1 !! a = Some r
    /\ pool_valid l1 hp1
    /\ (length hp <= length hp1)%nat
    /\ LoggerCallerSkip l1 = LoggerCallerSkip l
    /\ (forall b, b ∈ recordPool l1 -> b ∈ recordPool l)
    /\ (recordPool l = [] -> a = length hp /\ hp1 = hp ++ [newRecord_value]
                             /\ recordPool l1 = []).
Proof.
  intros Hv. unfold Logger_newRecord, pool_valid in *.
  destruct (recordPool l) as [|a p] eqn:Hp.
  - simpl. exists (length hp), l, (hp ++ [newRecord_value]), newRecord_value.
    split; [reflexivity|]. split.
    { rewrite lookup_app_r by lia. by rewrite Nat.sub_diag. }
    rewrite Hp, length_app. simpl.
    repeat split; try done; try lia.
  - inversion Hv as [|? ? Ha Hrest]; subst.
    destruct (lookup_lt_is_Some_2 hp a Ha) as [r Hr].
    exists a, (set_pool p l), hp, r. simpl.
    repeat split; try done. intros b Hb. by right.
Qed.

Lemma releaseRecord_spec (l : Logger) (a : nat) (hp : heap) r :
  hp !! a = Some r -> pool_valid l hp ->
  exists l' hp' r',
    releaseRecord l a hp = (l', hp')
    /\ recordPool l' = a :: recordPool l
    /\ hp' !! a = Some r'
    /\ Time r' = emptyTime /\ Fields r' = None /\ Data r' = None /\ Extra r' = None
    /\ CallerSkip r' = LoggerCallerSkip l
    /\ Level r' = Level r /\ LevelName r' = LevelName r /\ Message r' = Message r
    /\ Ctx r' = Ctx r /\ Caller r' = Caller r
    /\ length hp' = length hp
    /\ pool_valid l' hp'.
Proof.
  intros Hr Hv. unfold releaseRecord. eexists _, _, _.
  split; [reflexivity|]. simpl. split; [reflexivity|].
  split; [by apply store_lookup|]. simpl.
  repeat split; try apply store_length.
  unfold pool_valid in *. simpl. rewrite store_length. constructor; [|done].
  by eapply lookup_lt_Some.
Qed.

(** C1, as the code has it: after a leveled logging call the record it used
    is back in the pool with Time, Fields, Data and Extra at their empty
    values and CallerSkip at the logger's CallerSkip. *)
Theorem log_releases_reset_record (level : Z) (args : list value)
    (l : Logger) (hp : heap) (e : Env) :
  pool_valid l hp ->
  exists a l' hp' e' r,
    Logger_log level args (l, hp, e) = (l', hp', e')
    /\ a = fst (fst (Logger_newRecord l hp))
    /\ head (recordPool l') = Some a
    /\ hp' !! a = Some r
    /\ Time r = emptyTime /\ Fields r = None /\ Data r = None /\ Extra r = None
    /\ CallerSkip r = LoggerCallerSkip l
    /\ pool_valid l' hp'.
Proof.
  intros Hv. unfold Logger_log.
  destruct (Logger_newRecord_spec l hp Hv)
    as (a & l1 & hp1 & r1 & -> & Hr1 & Hv1 & _ & Hcs & _).
  simpl. unfold Record_log.
  set (hp2 := store a _ hp1).
  assert (H2 : exists r2, hp2 !! a = Some r2).
  { eexists. subst hp2. by apply store_lookup. }
  destruct H2 as [r2 H2].
  set (hp3 := store a _ hp2).
  assert (H3 : exists r3, hp3 !! a = Some r3).
  { eexists. subst hp3. by apply store_lookup. }
  destruct H3 as [r3 H3]. rewrite H3.
  destruct (write level r3 (err l1) e) as [[r4 er] e4].
  assert (Hlen : length (<[a:=r4]> hp3) = length hp1).
  { rewrite length_insert. subst hp3 hp2. by rewrite !store_length. }
  assert (H4 : <[a:=r4]> hp3 !! a = Some r4).
  { apply list_lookup_insert_eq. by eapply lookup_lt_Some. }
  assert (Hv4 : pool_valid (set_err er l1) (<[a:=r4]> hp3)).
  { eapply pool_valid_length; [| |exact Hv1]; [reflexivity | lia]. }
  eexists a, _, _, e4, _. split; [reflexivity|]. simpl.
  split; [reflexivity|]. split; [reflexivity|].
  split; [by apply store_lookup|]. simpl.
  repeat split; [exact Hcs|].
  unfold pool_valid in *. simpl in *. rewrite store_length.
  constructor; [|done]. by eapply lookup_lt_Some.
Qed.

(** Not reset on release, but assigned by the next leveled call before the
    record reaches [write]: Level, LevelName and Message. *)
Lemma Record_log_assigns (a : nat) (level : Z) (message : string)
    (l : Logger) (hp : heap) (e : Env) r :
  hp !! a = Some r ->
  exists r0,
    Level r0 = level /\ LevelName r0 = Level_String level /\ Message r0 = message
    /\ Record_log a level message (l, hp, e) =
       (let '(r', er, e') := write level r0 (err l) e in
        (set_err er l, <[a := r']> hp, e')).
Proof.
  intros Hr.
  exists {| Level := level; LevelName := Level_String level; Channel := Channel r;
            Message := message; Time := Time r; Ctx := Ctx r; Fields := Fields r;
            Data := Data r; Extra := Extra r; Caller := Caller r;
            Formatted := Formatted r; CallerSkip := CallerSkip r |}.
  repeat split. unfold Record_log.
  erewrite store_lookup by exact Hr.
  destruct (write _ _ _ _) as [[r' er] e']. f_equal. f_equal.
  unfold store. rewrite Hr. apply list_insert_insert_eq.
Qed.

(** C10, as the code has it: [Record()] and [WithContext] hand the caller
    the very record they have just put back into the pool; [WithFields] and
    [WithField] put the pooled record back and hand the caller a new record
    that is not in the pool; [WithData] and [WithTime] put the record they
    took back into the pool before they return. *)
Theorem record_methods_release (l : Logger) (hp : heap) :
  pool_valid l hp ->
  let a := fst (fst (Logger_newRecord l hp)) in
  (exists l' hp', Logger_Record l hp = (a, l', hp') /\ (a ∈ recordPool l'))
  /\ (forall ctx, exists l' hp' r,
        Logger_WithContext ctx l hp = (a, l', hp') /\ (a ∈ recordPool l')
        /\ hp' !! a = Some r /\ Ctx r = ctx)
  /\ (forall fields, exists b l' hp' r,
        Logger_WithFields fields l hp = Returns (b, l', hp')
        /\ (a ∈ recordPool l') /\ (b ∉ recordPool l') /\ b <> a
        /\ hp' !! b = Some r /\ Fields r = fields)
  /\ (forall nm val, exists b l' hp' r,
        Logger_WithField nm val l hp = Returns (b, l', hp')
        /\ (a ∈ recordPool l') /\ (b ∉ recordPool l') /\ b <> a
        /\ hp' !! b = Some r /\ Fields r = Some {[ nm := val ]})
  /\ (forall data, a ∈ recordPool (snd (fst (Logger_WithData data l hp))))
  /\ (forall t, a ∈ recordPool (snd (fst (Logger_WithTime t l hp)))).
Proof.
  intros Hv.
  destruct (Logger_newRecord_spec l hp Hv)
    as (a & l1 & hp1 & r1 & Hnew & Hr1 & Hv1 & Hlen & Hcs & Hsub & _).
  rewrite Hnew. simpl.
  assert (Hfresh : forall fields, exists b l' hp' r,
        Logger_WithFields fields l hp = Returns (b, l', hp')
        /\ (a ∈ recordPool l') /\ (b ∉ recordPool l') /\ b <> a
        /\ hp' !! b = Some r /\ Fields r = fields).
  { intros fields. unfold Logger_WithFields, Record_WithFields. rewrite Hnew, Hr1.
    simpl. eexists _, _, _, _. split; [reflexivity|]. simpl.
    pose proof (lookup_lt_Some _ _ _ Hr1) as Ha.
    split; [by left|]. split.
    { intros Hin. apply elem_of_cons in Hin as [Heq|Hin]; [lia|].
      unfold pool_valid in Hv1. rewrite Forall_forall in Hv1.
      specialize (Hv1 _ Hin). simpl in Hv1. lia. }
    split; [lia|].
    split; [rewrite store_lookup_ne by lia; rewrite lookup_app_r by lia;
            by rewrite Nat.sub_diag | reflexivity]. }
  split; [|split; [|split; [|split; [|split]]]].
  - unfold Logger_Record. rewrite Hnew. simpl. eexists _, _.
    split; [reflexivity|]. simpl. by left.
  - intros ctx. unfold Logger_WithContext, Record_WithContext. rewrite Hnew. simpl.
    eexists _, _, _. split; [reflexivity|]. simpl. split; [by left|].
    split; [erewrite store_lookup; [reflexivity|]; by apply store_lookup
           | reflexivity].
  - exact Hfresh.
  - intros nm val. apply (Hfresh (Some {[ nm := val ]})).
  - intros data. unfold Logger_WithData. rewrite Hnew.
    destruct (Record_WithData a data hp1) as [b hp2]. simpl. by left.
  - intros t. unfold Logger_WithTime. rewrite Hnew.
    destruct (Record_WithTime a t hp1) as [b hp2]. simpl. by left.
Qed.

End proofs.

(** *** Concrete loggers *)

(** Handlers 0..3 over a log of the handlers that ran: handler 1 fails with
    ErrClosed and handler 3 with ErrNoSpace, on Flush and on Close. *)
#[local] Instance spy_handlers : HandlerOps nat (list nat) := {|
  h_Flush h w := (w ++ [h], match h with
                            | 1%nat => Some ErrClosed
                            | 3%nat => Some ErrNoSpace
                            | _ => None
                            end);
  h_Close h w := (w ++ [h], match h with
                            | 1%nat => Some ErrClosed
                            | 3%nat => Some ErrNoSpace
                            | _ => None
                            end)
|}.

(** A logger without processors whose dispatch leaves the record as it is. *)
#[local] Instance plain_logger : LoggerDeps nat (list nat) := {|
  Level_String z := if z =? 600 then "INFO" else "UNKNOWN";
  Sprint args := match args with
                 | [VStr msg] => msg
                 | _ => ""
                 end;
  write _ r er e := (r, er, e);
  Record_WithData a _ hp := (a, hp);
  Record_WithTime a _ hp := (a, hp)
|}.

Definition logger0 : Logger nat :=
  AddHandlers [0; 1; 2; 3]%nat (NewWithName "logger").

Definition env0 : Env nat (list nat) := mkEnv [] [] [].

Lemma Flush_Close_visit_every_handler_witness :
  mu logger0 = false
  /\ exists l1 e1 r cs,
      Flush (logger0, env0) = Returns (l1, e1, r)
      /\ calls e1 = calls env0 ++ cs
      /\ map fst cs = map (fun h => (MFlush, h)) [0; 1; 2; 3]%nat
      /\ world e1 = [0; 1; 2; 3]%nat.
Proof.
  split; [reflexivity|].
  destruct (Flush_Close_visit_every_handler logger0 env0 eq_refl)
    as [(l1 & e1 & r & cs & H1 & H2 & H3 & H4) _].
  exists l1, e1, r, cs. repeat split; assumption.
Defined.

Lemma fan_out_keeps_last_error_witness :
  (2 <= length (failures (snd (fan_out MClose (handlers logger0) (world env0)))))%nat
  /\ snd (Close (logger0, env0)) = Some ErrNoSpace
  /\ (exists l' e',
        Flush (logger0, env0) = Returns (l', e', Some ErrNoSpace)
        /\ err l' = Some ErrNoSpace
        /\ map fst (calls e') = map (fun h => (MFlush, h)) [0; 1; 2; 3]%nat).
Proof.
  assert (Hlen : forall m,
             (2 <= length (failures (snd (fan_out m (handlers logger0) (world env0)))))%nat).
  { intros []; vm_compute; lia. }
  split; [apply Hlen|].
  destruct (fan_out_keeps_last_error MClose logger0 env0 (Hlen MClose))
    as (x & Hx & _ & _ & Hclose & _).
  destruct (fan_out_keeps_last_error MFlush logger0 env0 (Hlen MFlush))
    as (y & Hy & _ & _ & _ & Hflush).
  vm_compute in Hx. injection Hx as <-.
  vm_compute in Hy. injection Hy as <-.
  split; [exact (Hclose eq_refl)|].
  destruct (Hflush eq_refl eq_refl) as (l' & e' & H1 & H2 & H3).
  exists l', e'. split; [exact H1|]. split; [exact H2|]. by rewrite H3.
Defined.

Lemma LastErr_returns_and_clears_witness :
  err (set_err (Some ErrClosed) logger0) = Some ErrClosed
  /\ snd (LastErr (set_err (Some ErrClosed) logger0)) = Some ErrClosed
  /\ snd (LastErr (fst (LastErr (set_err (Some ErrClosed) logger0)))) = None.
Proof.
  split; [reflexivity|].
  destruct (LastErr_returns_and_clears (set_err (Some ErrClosed) logger0)
              ErrClosed eq_refl) as (H1 & _ & H3 & _).
  split; assumption.
Defined.

Lemma log_releases_reset_record_witness :
  pool_valid logger0 []
  /\ exists l' hp' r,
      fst (Logger_log 600 [VStr "hello"] (logger0, [], env0)) = (l', hp')
      /\ head (recordPool l') = Some 0%nat
      /\ hp' !! 0%nat = Some r
      /\ Time r = emptyTime /\ Fields r = None /\ Data r = None /\ Extra r = None.
Proof.
  split; [constructor|].
  destruct (log_releases_reset_record 600 [VStr "hello"] logger0 [] env0
              (Forall_nil_2 _))
    as (a & l' & hp' & e' & r & H1 & H2 & H3 & H4 & H5 & H6 & H7 & H8 & _).
  simpl in H2. subst a. exists l', hp', r. rewrite H1. repeat split; assumption.
Defined.

(** C1 as stated fails: after [Info("hello")] the record in the pool still
    has the level, the level name and the message of that call, and
    [Record()] then hands this record, message included, to its caller. *)
Lemma log_keeps_message_counterexample :
  exists l' hp' e' r,
    Logger_log 600 [VStr "hello"] (logger0, [], env0) = (l', hp', e')
    /\ recordPool l' = [0%nat]
    /\ hp' !! 0%nat = Some r
    /\ Level r = 600 /\ LevelName r = "INFO" /\ Message r = "hello"
    /\ ~ all_fields_empty r
    /\ (let '(a, _, hp2) := Logger_Record l' hp' in
        Message <$> hp2 !! a) = Some "hello".
Proof.
  eexists _, _, _, _. split; [reflexivity|]. simpl.
  split; [reflexivity|]. split; [reflexivity|]. simpl.
  split; [reflexivity|]. split; [reflexivity|]. split; [reflexivity|].
  split; [|reflexivity].
  intros (H & _). discriminate H.
Qed.

(** The context as well: a record that [WithContext] left in the pool keeps
    its context through the next leveled call and its release. *)
Example log_keeps_context :
  let '(_, l1, hp1) := Logger_WithContext (Some 7%nat) logger0 [] in
  let '(l2, hp2, _) := Logger_log 600 [VStr "hello"] (l1, hp1, env0) in
  recordPool l2 = [0%nat] /\ (Ctx <$> hp2 !! 0%nat) = Some (Some 7%nat).
Proof. split; reflexivity. Qed.

Lemma record_methods_release_witness :
  pool_valid logger0 []
  /\ exists l' hp', Logger_Record logger0 [] = (0%nat, l', hp') /\ (0%nat ∈ recordPool l').
Proof.
  split; [constructor|].
  destruct (record_methods_release logger0 [] (Forall_nil_2 _))
    as [(l' & hp' & H1 & H2) _].
  exists l', hp'. split; assumption.
Defined.

(** C10 as stated fails for [WithField]: the record handed to the caller is
    a new one (pointer 1), while the pool holds the record that was taken
    and released (pointer 0). *)
Lemma WithField_returns_unpooled_counterexample :
  exists b l' hp',
    Logger_WithField "user" (VInt 7) logger0 [] = Returns (b, l', hp')
    /\ b = 1%nat /\ recordPool l' = [0%nat] /\ (b ∉ recordPool l').
Proof.
  eexists _, _, _. split; [reflexivity|]. simpl.
  split; [reflexivity|]. split; [reflexivity|].
  intros H. apply list_elem_of_singleton in H. discriminate H.
Qed.

End SlogProofs.

(** * Lemmas on the operating system and on bufio.Writer *)

Module OsProofs.
Import Os.

Local Open Scope nat_scope.

(** The device has room for [n] more bytes through the open handle [fd]. *)
Definition healthy (fd n : nat) (os : OS) : Prop :=
  is_open fd os = true /\ n <= room os.

Lemma written_log fd fd' p os hs rm sy dn :
  written fd (mkOS hs (wlog os ++ [(fd', p)]) rm sy dn) =
  written fd os ++ (if decide (fd' = fd) then p else []).
Proof.
  unfold written. simpl. rewrite filter_app, map_app, concat_app. f_equal.
  rewrite filter_cons, filter_nil. simpl.
  destruct (decide (fd' = fd)); simpl; [by rewrite app_nil_r | reflexivity].
Qed.

Lemma written_same_log fd os os' : wlog os' = wlog os -> written fd os' = written fd os.
Proof. unfold written. by intros ->. Qed.

Lemma is_open_same_handles fd os os' :
  handles os' = handles os -> is_open fd os' = is_open fd os.
Proof. unfold is_open. by intros ->. Qed.

Lemma open_handles_same path os os' :
  handles os' = handles os -> open_handles path os' = open_handles path os.
Proof. unfold open_handles. by intros ->. Qed.

(** A write changes neither the file table nor the fsync log nor the
    denied paths; the bytes it reports are the ones that reached the device. *)
Lemma file_Write_frame fd p os os' n e :
  file_Write fd p os = (os', n, e) ->
  handles os' = handles os /\ synced os' = synced os /\ denied os' = denied os
  /\ n <= length p
  /\ written fd os' = written fd os ++ take n p
  /\ (forall fd', fd' <> fd -> written fd' os' = written fd' os)
  /\ (e = None -> n = length p /\ is_open fd os = true)
  /\ room os' = room os - n /\ n <= room os.
Proof.
  unfold file_Write, is_open. destruct (handles os !! fd) as [h|] eqn:Hh.
  - destruct (h_open h) eqn:Ho.
    + destruct (length p <=? room os) eqn:Hr; intros [= <- <- <-]; simpl.
      * apply Nat.leb_le in Hr.
        repeat split; try done.
        -- rewrite written_log, decide_True by done.
           by rewrite firstn_all.
        -- intros fd' Hne.
           rewrite written_log, decide_False by done. by rewrite app_nil_r.
      * apply Nat.leb_gt in Hr.
        repeat split; try done; try lia.
        -- by rewrite written_log, decide_True by done.
        -- intros fd' Hne.
           rewrite written_log, decide_False by done. by rewrite app_nil_r.
    + intros [= <- <- <-]. rewrite take_0, app_nil_r.
      repeat split; try done; lia.
  - intros [= <- <- <-]. rewrite take_0, app_nil_r.
    repeat split; try done; lia.
Qed.

Lemma file_Write_ok fd p os :
  healthy fd (length p) os ->
  file_Write fd p os =
  (mkOS (handles os) (wlog os ++ [(fd, p)]) (room os - length p) (synced os)
        (denied os), length p, None).
Proof.
  intros [Ho Hr]. unfold file_Write, is_open in *.
  destruct (handles os !! fd) as [h|]; [|discriminate]. rewrite Ho.
  apply Nat.leb_le in Hr. by rewrite Hr.
Qed.

Lemma file_Sync_frame fd os os' e :
  file_Sync fd os = (os', e) ->
  handles os' = handles os /\ wlog os' = wlog os /\ room os' = room os
  /\ denied os' = denied os
  /\ (e = None <-> is_open fd os = true).
Proof.
  unfold file_Sync, is_open. destruct (handles os !! fd) as [h|].
  - destruct (h_open h); intros [= <- <-]; simpl; repeat split; done.
  - intros [= <- <-]. repeat split; done.
Qed.

Lemma file_Close_frame fd os os' e :
  file_Close fd os = (os', e) ->
  wlog os' = wlog os /\ room os' = room os /\ denied os' = denied os
  /\ length (handles os') = length (handles os)
  /\ (e = None <-> is_open fd os = true)
  /\ (e = None -> is_open fd os' = false)
  /\ (e <> None -> os' = os)
  /\ (forall fd', fd' <> fd -> handles os' !! fd' = handles os !! fd').
Proof.
  unfold file_Close, is_open. destruct (handles os !! fd) as [h|] eqn:Hh.
  - destruct (h_open h) eqn:Ho; intros [= <- <-]; simpl.
    + rewrite length_insert. repeat split; try done.
      * intros _. rewrite list_lookup_insert_eq; [done|]. by eapply lookup_lt_Some.
      * intros fd' Hne. by rewrite list_lookup_insert_ne.
    + rewrite Hh. repeat split; done.
  - intros [= <- <-]. rewrite Hh. repeat split; done.
Qed.

(** [Flush] moves buffered bytes to the device and loses none: what is on
    the device and what is still buffered make up the same stream. *)
Lemma bufio_Flush_frame b os b' os' e :
  bufio_Flush b os = (b', os', e) ->
  handles os' = handles os /\ synced os' = synced os /\ denied os' = denied os
  /\ b_size b' = b_size b /\ b_wr b' = b_wr b
  /\ written (b_wr b) os' ++ b_buf b' = written (b_wr b) os ++ b_buf b
  /\ (forall fd', fd' <> b_wr b -> written fd' os' = written fd' os)
  /\ b_err b' = e
  /\ (e = None -> b_buf b' = [] /\ b_err b = None)
  /\ length (b_buf b') <= length (b_buf b)
  /\ room os' <= room os.
Proof.
  unfold bufio_Flush. destruct (b_err b) as [x|] eqn:He.
  { intros [= <- <- <-]. repeat split; try done. }
  destruct (length (b_buf b) =? 0) eqn:Hz.
  { intros [= <- <- <-]. apply Nat.eqb_eq in Hz.
    repeat split; try done. by apply nil_length_inv. }
  destruct (file_Write (b_wr b) (b_buf b) os) as [[os1 n] e1] eqn:Hw.
  destruct (file_Write_frame _ _ _ _ _ _ Hw)
    as (Hh & Hs & Hd & Hn & Hwr & Hoth & Hnone & Hroom & _).
  destruct e1 as [x|].
  - intros [= <- <- <-]. simpl. rewrite Hwr, <- app_assoc, take_drop.
    repeat split; try done; try lia. rewrite length_drop. lia.
  - destruct (Hnone eq_refl) as [-> _]. rewrite Nat.ltb_irrefl.
    intros [= <- <- <-]. simpl. rewrite Hwr, firstn_all, app_nil_r.
    repeat split; try done; lia.
Qed.

(** The device only ever gains bytes. *)
Lemma file_Write_prefix fd p os os' n e :
  file_Write fd p os = (os', n, e) -> wlog os `prefix_of` wlog os'.
Proof.
  unfold file_Write. destruct (handles os !! fd) as [h|].
  - destruct (h_open h).
    + destruct (length p <=? room os); intros [= <- <- <-]; simpl;
        by eexists.
    + intros [= <- <- <-]. reflexivity.
  - intros [= <- <- <-]. reflexivity.
Qed.

Lemma bufio_Flush_prefix b os b' os' e :
  bufio_Flush b os = (b', os', e) -> wlog os `prefix_of` wlog os'.
Proof.
  unfold bufio_Flush. destruct (b_err b).
  { intros [= <- <- <-]. reflexivity. }
  destruct (length (b_buf b) =? 0).
  { intros [= <- <- <-]. reflexivity. }
  destruct (file_Write (b_wr b) (b_buf b) os) as [[os1 n] e1] eqn:Hw.
  apply file_Write_prefix in Hw.
  destruct e1; [|destruct (n <? length (b_buf b))]; by intros [= <- <- <-].
Qed.

Lemma written_prefix fd os os' :
  wlog os `prefix_of` wlog os' -> written fd os `prefix_of` written fd os'.
Proof.
  intros [new Hnew]. unfold written. rewrite Hnew, filter_app, map_app, concat_app.
  by eexists.
Qed.

(** A second [Flush] right after a first does nothing to the device and
    returns what the first returned. *)
Lemma bufio_Flush_again b os b' os' e :
  bufio_Flush b os = (b', os', e) -> bufio_Flush b' os' = (b', os', e).
Proof.
  intros H. destruct (bufio_Flush_frame _ _ _ _ _ H)
    as (_ & _ & _ & _ & _ & _ & _ & Herr & Hnone & _).
  unfold bufio_Flush at 1. rewrite Herr. destruct e as [x|]; [reflexivity|].
  destruct (Hnone eq_refl) as [-> _]. reflexivity.
Qed.

Lemma bufio_Flush_ok b os :
  b_err b = None -> b_buf b <> [] -> healthy (b_wr b) (length (b_buf b)) os ->
  bufio_Flush b os =
  (mkBufio None (b_size b) [] (b_wr b),
   mkOS (handles os) (wlog os ++ [(b_wr b, b_buf b)]) (room os - length (b_buf b))
        (synced os) (denied os),
   None).
Proof.
  intros He Hne Hh. unfold bufio_Flush. rewrite He.
  destruct (length (b_buf b) =? 0) eqn:Hz.
  { apply Nat.eqb_eq, nil_length_inv in Hz. contradiction. }
  rewrite file_Write_ok by done. by rewrite Nat.ltb_irrefl.
Qed.

(** The condition of the loop in [Write]. *)
Definition loop_cond (b : bufioWriter) (p : list byte) : bool :=
  (bufio_Available b <? length p) && bool_decide (b_err b = None).

Lemma loop_stop k b os p nn :
  loop_cond b p = false -> bufio_Write_loop (S k) b os p nn = (b, os, p, nn).
Proof. unfold loop_cond. intros H. simpl. by rewrite H. Qed.

Lemma direct_write_stops b os p os' n e :
  file_Write (b_wr b) p os = (os', n, e) ->
  loop_cond (mkBufio e (b_size b) (b_buf b) (b_wr b)) (drop n p) = false.
Proof.
  intros Hw. destruct (file_Write_frame _ _ _ _ _ _ Hw)
    as (_ & _ & _ & _ & _ & _ & Hnone & _).
  unfold loop_cond. simpl. destruct e as [x|].
  - rewrite bool_decide_eq_false_2 by done. apply andb_false_r.
  - destruct (Hnone eq_refl) as [-> _]. by rewrite drop_all.
Qed.

Lemma loop_two_from_empty k b os p nn :
  b_buf b = [] ->
  bufio_Write_loop (S (S k)) b os p nn = bufio_Write_loop 2 b os p nn.
Proof.
  intros Hb. destruct (loop_cond b p) eqn:Hc.
  - unfold loop_cond in Hc.
    cbn [bufio_Write_loop]. rewrite Hc. unfold bufio_Buffered. rewrite Hb. simpl.
    destruct (file_Write (b_wr b) p os) as [[os' n] e] eqn:Hw.
    pose proof (direct_write_stops b os p os' n e Hw) as Hs. rewrite Hb in Hs.
    unfold loop_cond in Hs. simpl in Hs. rewrite Hs.
    destruct k; simpl; by rewrite ?Hs.
  - by rewrite !loop_stop.
Qed.

(** Three rounds are all the loop ever takes: more fuel changes nothing,
    and the loop condition is false where the model's loop ends. *)
Lemma bufio_Write_loop_fuel k b os p nn :
  bufio_Write_loop (S (S (S k))) b os p nn = bufio_Write_loop 3 b os p nn.
Proof.
  destruct (loop_cond b p) eqn:Hc; [|by rewrite !loop_stop].
  unfold loop_cond in Hc.
  change (bufio_Write_loop (S (S (S k))) b os p nn) with
    (if (bufio_Available b <? length p) && bool_decide (b_err b = None) then
       if bufio_Buffered b =? 0 then
         let '(os', n, e) := file_Write (b_wr b) p os in
         bufio_Write_loop (S (S k)) (mkBufio e (b_size b) (b_buf b) (b_wr b)) os'
                          (drop n p) (nn + n)
       else
         let n := min (bufio_Available b) (length p) in
         let b1 := mkBufio (b_err b) (b_size b) (b_buf b ++ take n p) (b_wr b) in
         let '(b2, os', _) := bufio_Flush b1 os in
         bufio_Write_loop (S (S k)) b2 os' (drop n p) (nn + n)
     else (b, os, p, nn)).
  change (bufio_Write_loop 3 b os p nn) with
    (if (bufio_Available b <? length p) && bool_decide (b_err b = None) then
       if bufio_Buffered b =? 0 then
         let '(os', n, e) := file_Write (b_wr b) p os in
         bufio_Write_loop 2 (mkBufio e (b_size b) (b_buf b) (b_wr b)) os'
                          (drop n p) (nn + n)
       else
         let n := min (bufio_Available b) (length p) in
         let b1 := mkBufio (b_err b) (b_size b) (b_buf b ++ take n p) (b_wr b) in
         let '(b2, os', _) := bufio_Flush b1 os in
         bufio_Write_loop 2 b2 os' (drop n p) (nn + n)
     else (b, os, p, nn)).
  rewrite Hc. destruct (bufio_Buffered b =? 0).
  - destruct (file_Write (b_wr b) p os) as [[os' n] e] eqn:Hw.
    pose proof (direct_write_stops b os p os' n e Hw) as Hs.
    by rewrite !loop_stop.
  - cbv zeta.
    destruct (bufio_Flush _ os) as [[b2 os'] e] eqn:Hf.
    destruct (bufio_Flush_frame _ _ _ _ _ Hf)
      as (_ & _ & _ & _ & _ & _ & _ & Herr & Hnone & _).
    destruct e as [x|].
    + assert (Hs : loop_cond b2 (drop (bufio_Available b `min` length p) p) = false).
      { unfold loop_cond. rewrite Herr, bool_decide_eq_false_2 by done.
        apply andb_false_r. }
      by rewrite !loop_stop.
    + destruct (Hnone eq_refl) as [Hb _]. by apply loop_two_from_empty.
Qed.

Lemma loop_two_from_empty_exit b os p nn b' os' p' nn' :
  b_buf b = [] ->
  bufio_Write_loop 2 b os p nn = (b', os', p', nn') -> loop_cond b' p' = false.
Proof.
  intros Hb. destruct (loop_cond b p) eqn:Hc.
  - pose proof Hc as Hc'. unfold loop_cond in Hc'.
    cbn [bufio_Write_loop]. rewrite Hc'. unfold bufio_Buffered. rewrite Hb. simpl.
    destruct (file_Write (b_wr b) p os) as [[os1 n] e] eqn:Hw.
    pose proof (direct_write_stops b os p os1 n e Hw) as Hs. rewrite Hb in Hs.
    pose proof Hs as Hs'. unfold loop_cond in Hs'. simpl in Hs'. rewrite Hs'.
    by intros [= <- <- <- <-].
  - rewrite loop_stop by done. by intros [= <- <- <- <-].
Qed.

Lemma bufio_Write_loop_exit b os p nn b' os' p' nn' :
  bufio_Write_loop 3 b os p nn = (b', os', p', nn') -> loop_cond b' p' = false.
Proof.
  destruct (loop_cond b p) eqn:Hc.
  2:{ rewrite loop_stop by done. by intros [= <- <- <- <-]. }
  pose proof Hc as Hc'. unfold loop_cond in Hc'.
  change (bufio_Write_loop 3 b os p nn) with
    (if (bufio_Available b <? length p) && bool_decide (b_err b = None) then
       if bufio_Buffered b =? 0 then
         let '(os', n, e) := file_Write (b_wr b) p os in
         bufio_Write_loop 2 (mkBufio e (b_size b) (b_buf b) (b_wr b)) os'
                          (drop n p) (nn + n)
       else
         let n := min (bufio_Available b) (length p) in
         let b1 := mkBufio (b_err b) (b_size b) (b_buf b ++ take n p) (b_wr b) in
         let '(b2, os', _) := bufio_Flush b1 os in
         bufio_Write_loop 2 b2 os' (drop n p) (nn + n)
     else (b, os, p, nn)).
  rewrite Hc'. destruct (bufio_Buffered b =? 0).
  - destruct (file_Write (b_wr b) p os) as [[os1 n] e] eqn:Hw.
    pose proof (direct_write_stops b os p os1 n e Hw) as Hs.
    rewrite loop_stop by done. by intros [= <- <- <- <-].
  - cbv zeta.
    destruct (bufio_Flush _ os) as [[b2 os1] e] eqn:Hf.
    destruct (bufio_Flush_frame _ _ _ _ _ Hf)
      as (_ & _ & _ & _ & _ & _ & _ & Herr & Hnone & _).
    destruct e as [x|].
    + assert (Hs : loop_cond b2 (drop (bufio_Available b `min` length p) p) = false).
      { unfold loop_cond. rewrite Herr, bool_decide_eq_false_2 by done.
        apply andb_false_r. }
      rewrite loop_stop by done. by intros [= <- <- <- <-].
    + destruct (Hnone eq_refl) as [Hb _]. by apply loop_two_from_empty_exit.
Qed.

(** A write that fits is copied into the buffer; the device is not touched. *)
Lemma bufio_Write_fits b p os :
  b_err b = None -> length p <= bufio_Available b ->
  bufio_Write b p os =
  (mkBufio None (b_size b) (b_buf b ++ p) (b_wr b), os, length p, None).
Proof.
  intros He Hfit. unfold bufio_Write.
  rewrite loop_stop.
  2:{ unfold loop_cond. by rewrite (proj2 (Nat.ltb_ge _ _)) by lia. }
  rewrite He. rewrite Nat.min_r by lia. by rewrite firstn_all.
Qed.

Lemma healthy_log fd fd' n q os :
  healthy fd (n + length q) os ->
  healthy fd n (mkOS (handles os) (wlog os ++ [(fd', q)]) (room os - length q)
                     (synced os) (denied os)).
Proof. unfold healthy, is_open. simpl. intros [Ho Hr]. split; [done|lia]. Qed.

(** The loop on a device with room for everything: no byte is lost or
    reordered, no error arises, and a round of the loop puts bytes on the
    device. *)
Lemma bufio_Write_loop_healthy k b os p nn b' os' p' nn' :
  b_err b = None -> length (b_buf b) <= b_size b ->
  healthy (b_wr b) (length (b_buf b) + length p) os ->
  bufio_Write_loop k b os p nn = (b', os', p', nn') ->
  b_err b' = None /\ b_size b' = b_size b /\ b_wr b' = b_wr b
  /\ length (b_buf b') <= b_size b
  /\ handles os' = handles os /\ synced os' = synced os /\ denied os' = denied os
  /\ written (b_wr b) os' ++ b_buf b' ++ p' = written (b_wr b) os ++ b_buf b ++ p
  /\ (forall fd', fd' <> b_wr b -> written fd' os' = written fd' os)
  /\ healthy (b_wr b) (length (b_buf b') + length p') os'
  /\ nn' + length p' = nn + length p
  /\ length (written (b_wr b) os) <= length (written (b_wr b) os')
  /\ (0 < k -> loop_cond b p = true ->
      length (written (b_wr b) os) < length (written (b_wr b) os')).
Proof.
  revert b os p nn b' os' p' nn'.
  induction k as [|k IH]; intros b os p nn b' os' p' nn' He Hwf Hh.
  { simpl. intros [= <- <- <- <-]. split_and!; try done; lia. }
  destruct (loop_cond b p) eqn:Hc.
  2:{ rewrite loop_stop by done. intros [= <- <- <- <-].
      split_and!; try done; lia. }
  pose proof Hc as Hc'. unfold loop_cond in Hc'.
  apply andb_true_iff in Hc' as [Hlt _]. apply Nat.ltb_lt in Hlt.
  unfold bufio_Available in Hlt.
  cbn [bufio_Write_loop]. unfold loop_cond in Hc. rewrite Hc.
  unfold bufio_Buffered. destruct (length (b_buf b) =? 0) eqn:Hz.
  - apply Nat.eqb_eq in Hz. pose proof (nil_length_inv _ Hz) as Hb.
    rewrite file_Write_ok.
    2:{ destruct Hh as [Ho Hr]. split; [done|lia]. }
    intros Hloop. apply IH in Hloop; simpl; try done.
    2:{ rewrite drop_all. simpl. apply healthy_log.
        destruct Hh as [Ho Hr]. split; [done|lia]. }
    destruct Hloop as (E1 & E2 & E3 & E4 & E5 & E6 & E7 & E8 & E9 & E10 & E11 & E12 & _).
    simpl in *.
    rewrite written_log, decide_True in E8, E12 by done.
    rewrite drop_all in E8, E11. simpl in E8, E11.
    rewrite Hb in *. simpl in *. rewrite app_nil_r in E8.
    rewrite length_app in E12.
    split_and!; try done; try lia.
    intros fd' Hne. rewrite (E9 fd' Hne), written_log, decide_False by done.
    by rewrite app_nil_r.
  - apply Nat.eqb_neq in Hz. cbv zeta.
    unfold bufio_Available. rewrite Nat.min_l by lia.
    set (n := b_size b - length (b_buf b)).
    assert (Hn : length (take n p) = n) by (rewrite length_take; lia).
    rewrite bufio_Flush_ok; simpl; try done.
    2:{ intros Hnil. apply (f_equal length) in Hnil. rewrite length_app in Hnil.
        simpl in Hnil. lia. }
    2:{ rewrite length_app, Hn. destruct Hh as [Ho Hr]. split; [done|lia]. }
    intros Hloop. apply IH in Hloop; simpl; try done; try lia.
    2:{ rewrite length_drop.
        replace (length (b_buf b) + length p)
          with ((length p - n) + length (b_buf b ++ take n p)) in Hh
          by (rewrite length_app, Hn; lia).
        by apply healthy_log. }
    destruct Hloop as (E1 & E2 & E3 & E4 & E5 & E6 & E7 & E8 & E9 & E10 & E11 & E12 & _).
    simpl in *.
    rewrite written_log, decide_True in E8, E12 by done.
    rewrite length_drop in E11. rewrite !length_app in E12.
    split_and!; try done; try lia.
    + rewrite E8. rewrite <- !app_assoc. simpl. by rewrite take_drop.
    + intros fd' Hne. rewrite (E9 fd' Hne), written_log, decide_False by done.
      by rewrite app_nil_r.
Qed.

(** [Write] on a device with room for everything. *)
Lemma bufio_Write_healthy b p os :
  b_err b = None -> length (b_buf b) <= b_size b ->
  healthy (b_wr b) (length (b_buf b) + length p) os ->
  exists b' os',
    bufio_Write b p os = (b', os', length p, None)
    /\ b_err b' = None /\ b_size b' = b_size b /\ b_wr b' = b_wr b
    /\ length (b_buf b') <= b_size b
    /\ handles os' = handles os /\ synced os' = synced os /\ denied os' = denied os
    /\ written (b_wr b) os' ++ b_buf b' = written (b_wr b) os ++ b_buf b ++ p
    /\ (forall fd', fd' <> b_wr b -> written fd' os' = written fd' os)
    /\ healthy (b_wr b) (length (b_buf b')) os'
    /\ (bufio_Available b < length p ->
        length (written (b_wr b) os) < length (written (b_wr b) os')).
Proof.
  intros He Hwf Hh. unfold bufio_Write.
  destruct (bufio_Write_loop 3 b os p 0) as [[[b1 os1] p1] nn] eqn:Hloop.
  pose proof (bufio_Write_loop_exit _ _ _ _ _ _ _ _ Hloop) as Hexit.
  destruct (bufio_Write_loop_healthy _ _ _ _ _ _ _ _ _ He Hwf Hh Hloop)
    as (E1 & E2 & E3 & E4 & E5 & E6 & E7 & E8 & E9 & E10 & E11 & E12 & E13).
  rewrite E1. unfold loop_cond in Hexit. rewrite E1 in Hexit.
  rewrite bool_decide_eq_true_2, andb_true_r in Hexit by done.
  apply Nat.ltb_ge in Hexit. unfold bufio_Available in *.
  rewrite Nat.min_r by lia. rewrite firstn_all.
  eexists _, _. split; [do 3 f_equal; lia|]. simpl.
  rewrite length_app.
  split_and!; try done; try lia.
  intros Hspill. apply E13; [lia|]. unfold loop_cond.
  rewrite He, bool_decide_eq_true_2, andb_true_r by done.
  apply Nat.ltb_lt. unfold bufio_Available. lia.
Qed.

(** [Write] never changes the file table. *)
Lemma bufio_Write_loop_handles k b os p nn b' os' p' nn' :
  bufio_Write_loop k b os p nn = (b', os', p', nn') -> handles os' = handles os.
Proof.
  revert b os p nn. induction k as [|k IH]; intros b os p nn; simpl.
  { by intros [= <- <- <- <-]. }
  destruct ((bufio_Available b <? length p) && bool_decide (b_err b = None)).
  2:{ by intros [= <- <- <- <-]. }
  destruct (bufio_Buffered b =? 0).
  - destruct (file_Write (b_wr b) p os) as [[os1 n] e] eqn:Hw.
    destruct (file_Write_frame _ _ _ _ _ _ Hw) as (Hh & _).
    intros Hl. apply IH in Hl. congruence.
  - destruct (bufio_Flush _ os) as [[b2 os1] e] eqn:Hf.
    destruct (bufio_Flush_frame _ _ _ _ _ Hf) as (Hh & _).
    intros Hl. apply IH in Hl. congruence.
Qed.

Lemma bufio_Write_handles b p os b' os' nn e :
  bufio_Write b p os = (b', os', nn, e) -> handles os' = handles os.
Proof.
  unfold bufio_Write.
  destruct (bufio_Write_loop 3 b os p 0) as [[[b1 os1] p1] n1] eqn:Hl.
  apply bufio_Write_loop_handles in Hl.
  destruct (b_err b1); intros [= <- <- <- <-]; exact Hl.
Qed.

(** Counting the handles open for a path. *)
Lemma open_handles_app path os hd rm wl sy dn :
  open_handles path (mkOS (handles os ++ [hd]) wl rm sy dn) =
  open_handles path os ++
  (if decide (h_path hd = path /\ h_open hd = true) then [hd] else []).
Proof.
  unfold open_handles. simpl. rewrite filter_app. f_equal.
Qed.

Lemma filter_at_most_one {A} (P : A -> Prop) `{!forall x, Decision (P x)} (l : list A) :
  (forall i j x y, l !! i = Some x -> l !! j = Some y -> P x -> P y -> i = j) ->
  length (filter P l) <= 1.
Proof.
  induction l as [|a l IH]; intros Huniq; [simpl; lia|].
  rewrite filter_cons. destruct (decide (P a)) as [Ha|Hna].
  - assert (Hnone : filter P l = []).
    { destruct (filter P l) as [|y ys] eqn:E; [reflexivity|]. exfalso.
      assert (Hy : y ∈ filter P l) by (rewrite E; left).
      apply list_elem_of_filter in Hy as [Py Hy].
      apply list_elem_of_lookup in Hy as [j Hj].
      specialize (Huniq 0 (S j) a y eq_refl Hj Ha Py). discriminate. }
    rewrite Hnone. simpl. lia.
  - apply IH. intros i j x y Hi Hj Px Py.
    specialize (Huniq (S i) (S j) x y Hi Hj Px Py). lia.
Qed.

End OsProofs.

(** * Lemmas on package handler *)

Module HandlerProofs.
Import Os OsProofs Handler.

Local Open Scope nat_scope.

Section proofs.
Context {R Mutex : Type}.
Context `{!Locker Mutex, !HandlerDeps R}.

Abbreviation FileHandler := (FileHandler R Mutex).
Abbreviation BufferedHandler := (BufferedHandler R Mutex).

(** *** FileHandler.Flush and Close *)

(** [Flush] keeps the file table and the handler's file and options; when
    it returns nil the file is open and the handler's buffer, if it has
    one, is empty, its bytes on the device. *)
Lemma FileHandler_Flush_frame (h : FileHandler) os h1 os1 e :
  FileHandler_Flush h os = (h1, os1, e) ->
  handles os1 = handles os /\ denied os1 = denied os
  /\ wlog os `prefix_of` wlog os1
  /\ file h1 = file h /\ fpath h1 = fpath h /\ NoBuffer h1 = NoBuffer h
  /\ fh_BuffSize h1 = fh_BuffSize h /\ fh_lockWrapper h1 = fh_lockWrapper h
  /\ fh_LevelsWithFormatter h1 = fh_LevelsWithFormatter h
  /\ (bufio h = None -> h1 = h /\ wlog os1 = wlog os /\ room os1 = room os)
  /\ (e = None ->
      is_open (file h) os = true
      /\ forall b, bufio h = Some b ->
           b_err b = None
           /\ bufio h1 = Some (mkBufio None (b_size b) [] (b_wr b))
           /\ written (b_wr b) os1 = written (b_wr b) os ++ b_buf b).
Proof.
  unfold FileHandler_Flush. destruct (bufio h) as [b|] eqn:Hb.
  - destruct (bufio_Flush b os) as [[b1 os'] eb] eqn:Hf.
    pose proof (bufio_Flush_prefix _ _ _ _ _ Hf) as Hpre.
    destruct (bufio_Flush_frame _ _ _ _ _ Hf)
      as (Hh & Hs & Hd & Hsz & Hwr & Hstream & _ & Herr & Hnone & _).
    destruct eb as [x|].
    + intros [= <- <- <-]. simpl. split_and!; try done.
    + destruct (file_Sync (file h) os') as [os2 r] eqn:Hsy.
      destruct (file_Sync_frame _ _ _ _ Hsy) as (Hh2 & Hw2 & Hr2 & Hd2 & Hopen).
      intros [= <- <- <-]. simpl. rewrite Hw2.
      split_and!; try done; try congruence.
      intros ->. split.
      * rewrite <- (is_open_same_handles _ os os') by done. by apply Hopen.
      * intros b0 [= <-]. destruct (Hnone eq_refl) as [Hnil Hnoerr].
        split; [done|]. split.
        -- f_equal. destruct b1; simpl in *. by subst.
        -- rewrite (written_same_log _ os' os2) by done.
           rewrite Hnil, app_nil_r in Hstream. exact Hstream.
  - destruct (file_Sync (file h) os) as [os1' r] eqn:Hsy.
    destruct (file_Sync_frame _ _ _ _ Hsy) as (Hh2 & Hw2 & Hr2 & Hd2 & Hopen).
    intros [= <- <- <-]. rewrite Hw2. split_and!; try done.
    intros ->. split; [by apply Hopen|]. intros b0 [=].
Qed.

(** A second [Flush] puts nothing on the device, and succeeds where the
    first did. *)
Lemma FileHandler_Flush_again (h : FileHandler) os h1 os1 e :
  FileHandler_Flush h os = (h1, os1, e) ->
  exists os2 e2,
    FileHandler_Flush h1 os1 = (h1, os2, e2)
    /\ wlog os2 = wlog os1 /\ room os2 = room os1 /\ handles os2 = handles os1
    /\ (e = None -> e2 = None).
Proof.
  unfold FileHandler_Flush at 1. destruct (bufio h) as [b|] eqn:Hb.
  - destruct (bufio_Flush b os) as [[b1 os'] eb] eqn:Hf.
    pose proof (bufio_Flush_again _ _ _ _ _ Hf) as Hagain.
    destruct (bufio_Flush_frame _ _ _ _ _ Hf)
      as (_ & _ & _ & _ & _ & _ & _ & Herr & Hnone & _).
    destruct eb as [x|].
    + intros [= <- <- <-]. unfold FileHandler_Flush. simpl. rewrite Hagain.
      eexists _, _. split; [reflexivity|]. split_and!; done.
    + destruct (file_Sync (file h) os') as [os2 r] eqn:Hsy.
      destruct (file_Sync_frame _ _ _ _ Hsy) as (Hh2 & Hw2 & Hr2 & Hd2 & Hopen).
      intros [= <- <- <-]. unfold FileHandler_Flush. simpl.
      destruct (Hnone eq_refl) as [Hnil _].
      assert (Hb1 : bufio_Flush b1 os2 = (b1, os2, None)).
      { unfold bufio_Flush. by rewrite Herr, Hnil. }
      rewrite Hb1.
      destruct (file_Sync (file h) os2) as [os3 r3] eqn:Hsy3.
      destruct (file_Sync_frame _ _ _ _ Hsy3) as (Hh3 & Hw3 & Hr3 & Hd3 & Hopen3).
      eexists _, _. split; [reflexivity|]. split_and!; try done.
      intros ->. apply Hopen3.
      rewrite (is_open_same_handles _ os' os2) by done. by apply Hopen.
  - destruct (file_Sync (file h) os) as [os2 r] eqn:Hsy.
    destruct (file_Sync_frame _ _ _ _ Hsy) as (Hh2 & Hw2 & Hr2 & Hd2 & Hopen).
    intros [= <- <- <-]. unfold FileHandler_Flush. rewrite Hb.
    destruct (file_Sync (file h) os2) as [os3 r3] eqn:Hsy3.
    destruct (file_Sync_frame _ _ _ _ Hsy3) as (Hh3 & Hw3 & Hr3 & Hd3 & Hopen3).
    eexists _, _. split; [reflexivity|]. split_and!; try done.
    intros ->. apply Hopen3.
    rewrite (is_open_same_handles _ os os2) by done. by apply Hopen.
Qed.

(** *** BufferedHandler.Flush and Close *)

(** What a [Flush] that returns has done. *)
Lemma BufferedHandler_Flush_returns (h : BufferedHandler) os h1 os1 e :
  BufferedHandler_Flush h os = Returns (h1, os1, e) ->
  exists m1 b b1 osb eb,
    lw_Lock (bh_lockWrapper h) = Some m1
    /\ buffer h = Some b
    /\ bufio_Flush b os = (b1, osb, eb)
    /\ bh_lockWrapper h1 = lw_Unlock m1
    /\ buffer h1 = Some b1
    /\ bh_BuffSize h1 = bh_BuffSize h
    /\ bh_LevelsWithFormatter h1 = bh_LevelsWithFormatter h
    /\ match eb with
       | Some x => e = Some x /\ os1 = osb /\ handler h1 = handler h
       | None => FileHandler_Flush (handler h) osb = (handler h1, os1, e)
       end.
Proof.
  unfold BufferedHandler_Flush, Lock.
  destruct (lw_Lock (bh_lockWrapper h)) as [m1|] eqn:Hl; [|discriminate].
  simpl. destruct (buffer h) as [b|] eqn:Hb; [|discriminate].
  destruct (bufio_Flush b os) as [[b1 osb] eb] eqn:Hf.
  destruct eb as [x|].
  - intros [= <- <- <-]. exists m1, b, b1, osb, (Some x). simpl.
    split_and!; done.
  - destruct (FileHandler_Flush (handler h) osb) as [[fh1 os2] r] eqn:Hff.
    intros [= <- <- <-]. exists m1, b, b1, osb, None. simpl.
    split_and!; done.
Qed.

(** C8: [Close()] flushes first.  Told by what the flush returns: when it
    fails, [Close] returns that error and no handle has changed (the sink
    is not closed); when it succeeds, [Close] closes the file, and the
    bytes that were buffered are on the device by then. *)
Theorem Close_flushes_before_closing :
  (forall (h : FileHandler) os h1 os1 e1,
      FileHandler_Flush h os = (h1, os1, e1) ->
      match e1 with
      | Some x => FileHandler_Close h os = (h1, os1, Some x)
                  /\ handles os1 = handles os
      | None => exists os2,
          FileHandler_Close h os = (h1, os2, None)
          /\ file_Close (file h) os1 = (os2, None)
          /\ is_open (file h) os1 = true /\ is_open (file h) os2 = false
          /\ forall b, bufio h = Some b ->
                written (b_wr b) os2 = written (b_wr b) os ++ b_buf b
      end)
  /\ (forall (h : BufferedHandler) os h1 os1 e1,
      BufferedHandler_Flush h os = Returns (h1, os1, e1) ->
      match e1 with
      | Some x => BufferedHandler_Close h os = Returns (h1, os1, Some x)
                  /\ handles os1 = handles os
      | None => exists h2 os2,
          BufferedHandler_Close h os = Returns (h2, os2, None)
          /\ is_open (file (handler h)) os1 = true
          /\ is_open (file (handler h)) os2 = false
          /\ wlog os2 = wlog os1
          /\ forall b, buffer h = Some b ->
                (written (b_wr b) os ++ b_buf b) `prefix_of` written (b_wr b) os2
      end).
Proof.
  split.
  - intros h os h1 os1 e1 Hf.
    destruct (FileHandler_Flush_frame _ _ _ _ _ Hf)
      as (Hh & _ & _ & Hfile & _ & _ & _ & _ & _ & _ & Hnone).
    unfold FileHandler_Close. rewrite Hf. destruct e1 as [x|]; [done|].
    destruct (Hnone eq_refl) as [Hopen Hbuf].
    assert (Hopen1 : is_open (file h) os1 = true).
    { by rewrite (is_open_same_handles _ os os1). }
    rewrite Hfile.
    destruct (file_Close (file h) os1) as [os2 r] eqn:Hc.
    destruct (file_Close_frame _ _ _ _ Hc) as (Hw & _ & _ & _ & Hr & Hcl & _).
    assert (r = None) as -> by by apply Hr.
    exists os2. split_and!; try done; [by apply Hcl|].
    intros b Hb. destruct (Hbuf b Hb) as (_ & _ & Hwr).
    by rewrite (written_same_log _ os1 os2).
  - intros h os h1 os1 e1 Hf.
    destruct (BufferedHandler_Flush_returns _ _ _ _ _ Hf)
      as (m1 & b & b1 & osb & eb & Hl & Hb & Hbf & Hl1 & Hb1 & _ & _ & Hcase).
    unfold BufferedHandler_Close. rewrite Hf. simpl.
    destruct (bufio_Flush_frame _ _ _ _ _ Hbf)
      as (Hhb & _ & _ & _ & _ & Hstream & _ & _ & Hnone & _).
    destruct eb as [x|].
    { destruct Hcase as (-> & -> & _). done. }
    destruct (Hnone eq_refl) as [Hnil _]. rewrite Hnil, app_nil_r in Hstream.
    destruct (FileHandler_Flush_frame _ _ _ _ _ Hcase)
      as (Hh & _ & Hpre & Hfile & _ & _ & _ & _ & _ & _ & Hnone1).
    destruct e1 as [x|]; [by rewrite Hh|].
    destruct (FileHandler_Flush_again _ _ _ _ _ Hcase)
      as (os2 & e2 & Hagain & Hw2 & _ & Hh2 & He2).
    rewrite (He2 eq_refl) in Hagain.
    destruct (Hnone1 eq_refl) as [Hopen _].
    assert (Hopen1 : is_open (file (handler h)) os1 = true).
    { rewrite (is_open_same_handles _ osb os1) by done. exact Hopen. }
    unfold FileHandler_Close. rewrite Hagain. rewrite Hfile.
    destruct (file_Close (file (handler h)) os2) as [os3 r] eqn:Hc.
    destruct (file_Close_frame _ _ _ _ Hc) as (Hw3 & _ & _ & _ & Hr & Hcl & _).
    assert (r = None) as ->.
    { apply Hr. by rewrite (is_open_same_handles _ os1 os2). }
    eexists _, os3. split_and!; try done.
    + by apply Hcl.
    + congruence.
    + intros b0 Hb0. rewrite Hb in Hb0. injection Hb0 as <-.
      rewrite <- Hstream.
      apply written_prefix. rewrite Hw3, Hw2. exact Hpre.
Qed.

(** C9, as the code has it: of two calls of [Flush()] with no write in
    between, the second puts no byte on the device, and it returns nil when
    the first did. *)
Theorem Flush_twice_adds_nothing :
  (forall (h : FileHandler) os h1 os1 e1 h2 os2 e2,
      FileHandler_Flush h os = (h1, os1, e1) ->
      FileHandler_Flush h1 os1 = (h2, os2, e2) ->
      wlog os2 = wlog os1 /\ (e1 = None -> e2 = None))
  /\ (forall (h : BufferedHandler) os h1 os1 e1,
      BufferedHandler_Flush h os = Returns (h1, os1, e1) ->
      exists h2 os2 e2,
        BufferedHandler_Flush h1 os1 = Returns (h2, os2, e2)
        /\ wlog os2 = wlog os1 /\ (e1 = None -> e2 = None)).
Proof.
  split.
  - intros h os h1 os1 e1 h2 os2 e2 Hf1 Hf2.
    destruct (FileHandler_Flush_again _ _ _ _ _ Hf1)
      as (os2' & e2' & Hagain & Hw & _ & _ & He).
    rewrite Hagain in Hf2. injection Hf2 as <- <- <-. done.
  - intros h os h1 os1 e1 Hf.
    destruct (BufferedHandler_Flush_returns _ _ _ _ _ Hf)
      as (m1 & b & b1 & osb & eb & Hl & Hb & Hbf & Hl1 & Hb1 & _ & _ & Hcase).
    destruct (lw_relock _ _ Hl) as [m3 Hl3].
    unfold BufferedHandler_Flush, Lock. rewrite Hl1, Hl3, Hb1. simpl.
    destruct (bufio_Flush_frame _ _ _ _ _ Hbf)
      as (_ & _ & _ & _ & _ & _ & _ & Herr & Hnone & _).
    destruct eb as [x|].
    + destruct Hcase as (-> & -> & _).
      rewrite (bufio_Flush_again _ _ _ _ _ Hbf).
      eexists _, _, _. split; [reflexivity|]. done.
    + destruct (Hnone eq_refl) as [Hnil _].
      assert (Hb1' : bufio_Flush b1 os1 = (b1, os1, None)).
      { unfold bufio_Flush. by rewrite Herr, Hnil. }
      rewrite Hb1'.
      destruct (FileHandler_Flush_again _ _ _ _ _ Hcase)
        as (os2 & e2 & Hagain & Hw & _ & _ & He).
      rewrite Hagain. eexists _, _, _. split; [reflexivity|]. done.
Qed.

(** *** Handle and the flush threshold *)

(** The buffer a [Handle] call writes to: the handler's, or the one
    [Handle] makes when the handler has none yet. *)
Definition file_buffer (h : FileHandler) : bufioWriter :=
  match bufio h with
  | Some b => b
  | None => bufio_NewWriterSize (file h) (fh_BuffSize h)
  end.

Definition buffered_buffer (h : BufferedHandler) : bufioWriter :=
  match buffer h with
  | Some b => b
  | None => bufio_NewWriterSize (FileHandler_Writer (handler h)) (bh_BuffSize h)
  end.







(** *** One handle per path *)

Lemma sole_handle_count (h : FileHandler) os :
  sole_handle h os -> length (open_handles (fpath h) os) <= 1.
Proof.
  intros Hs. unfold open_handles. apply filter_at_most_one.
  intros i j x y Hi Hj [Px Ox] [Py Oy].
  rewrite (Hs i x Hi Px Ox), (Hs j y Hj Py Oy). reflexivity.
Qed.

(** No handle is opened from [os] to [os']. *)
Definition none_opened (os os' : OS) : Prop :=
  forall fd hd, handles os' !! fd = Some hd -> h_open hd = true ->
                handles os !! fd = Some hd.

Lemma sole_handle_kept (h h' : FileHandler) os os' :
  none_opened os os' -> file h' = file h -> fpath h' = fpath h ->
  sole_handle h os -> sole_handle h' os'.
Proof.
  intros Hno Hf Hp Hs fd hd Hl Hpath Hopen. rewrite Hf.
  apply (Hs fd hd); [by apply Hno | congruence | done].
Qed.

Lemma none_opened_same os os' : handles os' = handles os -> none_opened os os'.
Proof. intros Hh fd hd. by rewrite Hh. Qed.

Lemma FileHandler_Handle_frame (h : FileHandler) r os h' os' e :
  FileHandler_Handle h r os = Returns (h', os', e) ->
  handles os' = handles os /\ file h' = file h /\ fpath h' = fpath h.
Proof.
  unfold FileHandler_Handle, Lock.
  destruct (get_Formatter _ r) as [bts|x]; [|by intros [= <- <- <-]].
  destruct (lw_Lock (fh_lockWrapper h)) as [m1|]; [|discriminate]. simpl.
  destruct (NoBuffer h).
  - destruct (file_Write (file h) bts os) as [[os1 n] e1] eqn:Hw.
    destruct (file_Write_frame _ _ _ _ _ _ Hw) as (Hh & _).
    by intros [= <- <- <-].
  - destruct (bufio_Write _ bts os) as [[[b1 os1] n] e1] eqn:Hw.
    apply bufio_Write_handles in Hw. by intros [= <- <- <-].
Qed.

Lemma FileHandler_Close_frame (h : FileHandler) os h' os' e :
  FileHandler_Close h os = (h', os', e) ->
  none_opened os os' /\ file h' = file h /\ fpath h' = fpath h.
Proof.
  unfold FileHandler_Close.
  destruct (FileHandler_Flush h os) as [[h1 os1] e1] eqn:Hf.
  destruct (FileHandler_Flush_frame _ _ _ _ _ Hf) as (Hh & _ & _ & Hfile & Hp & _).
  destruct e1 as [x|].
  { intros [= <- <- <-]. split; [by apply none_opened_same | done]. }
  destruct (file_Close (file h1) os1) as [os2 r] eqn:Hc.
  intros [= <- <- <-]. split; [|done].
  intros fd hd Hl Hopen. rewrite <- Hh.
  unfold file_Close in Hc. destruct (handles os1 !! file h1) as [hd1|] eqn:H1.
  - destruct (h_open hd1); injection Hc as <- <-; [|done]. simpl in Hl.
    destruct (decide (fd = file h1)) as [->|Hne].
    + rewrite list_lookup_insert_eq in Hl by by eapply lookup_lt_Some.
      injection Hl as <-. discriminate.
    + by rewrite list_lookup_insert_ne in Hl.
  - by injection Hc as <- <-.
Qed.

Lemma openFile_spec path os os' res :
  openFile path os = (os', res) ->
  match res with
  | inl fd => fd = length (handles os)
              /\ os' = mkOS (handles os ++ [mkHandle path true]) (wlog os) (room os)
                            (synced os) (denied os)
  | inr _ => os' = os
  end.
Proof.
  unfold openFile, MkdirAll, OpenFile.
  destruct (bool_decide (path_Dir path ∈ denied os)); [by intros [= <- <-]|].
  destruct (bool_decide (path = "")); [by intros [= <- <-]|].
  destruct (bool_decide (path ∈ denied os)); by intros [= <- <-].
Qed.

Lemma is_open_app fd os hd wl rm sy dn :
  is_open fd os = true ->
  is_open fd (mkOS (handles os ++ [hd]) wl rm sy dn) = true.
Proof.
  unfold is_open. simpl. destruct (handles os !! fd) as [h0|] eqn:Hl; [|discriminate].
  intros Ho. rewrite lookup_app_l by by eapply lookup_lt_Some. by rewrite Hl.
Qed.

Lemma is_open_new os path wl rm sy dn :
  is_open (length (handles os))
          (mkOS (handles os ++ [mkHandle path true]) wl rm sy dn) = true.
Proof.
  unfold is_open. simpl. rewrite lookup_app_r by lia. by rewrite Nat.sub_diag.
Qed.

Lemma step_sole_handle o (h : FileHandler) os h' os' :
  (o = OpReopenFile -> is_open (file h) os = false) ->
  step o (h, os) = Returns (h', os') ->
  sole_handle h os -> sole_handle h' os' /\ fpath h' = fpath h.
Proof.
  intros Hguard Hstep Hs. destruct o as [r| | |]; simpl in Hstep.
  - destruct (FileHandler_Handle h r os) as [[[h1 os1] e]| |] eqn:Hh; try discriminate.
    simpl in Hstep. injection Hstep as <- <-.
    destruct (FileHandler_Handle_frame _ _ _ _ _ _ Hh) as (H1 & H2 & H3).
    split; [|done]. eapply sole_handle_kept; eauto using none_opened_same.
  - destruct (FileHandler_Flush h os) as [[h1 os1] e] eqn:Hf.
    injection Hstep as <- <-.
    destruct (FileHandler_Flush_frame _ _ _ _ _ Hf) as (H1 & _ & _ & H2 & H3 & _).
    split; [|done]. eapply sole_handle_kept; eauto using none_opened_same.
  - destruct (FileHandler_Close h os) as [[h1 os1] e] eqn:Hc.
    injection Hstep as <- <-.
    destruct (FileHandler_Close_frame _ _ _ _ _ Hc) as (H1 & H2 & H3).
    split; [|done]. eapply sole_handle_kept; eauto.
  - unfold ReopenFile in Hstep.
    destruct (openFile (fpath h) os) as [os1 [fd|x]] eqn:Ho;
      pose proof (openFile_spec _ _ _ _ Ho) as Hspec; simpl in Hspec;
      injection Hstep as <- <-.
    + destruct Hspec as [-> ->]. split; [|done].
      intros fd hd Hl Hpath Hopen. simpl in *.
      destruct (decide (fd < length (handles os))) as [Hlt|Hge].
      * exfalso. rewrite lookup_app_l in Hl by done.
        pose proof (Hs fd hd Hl Hpath Hopen) as ->.
        specialize (Hguard eq_refl). unfold is_open in Hguard.
        rewrite Hl in Hguard. congruence.
      * apply lookup_lt_Some in Hl. rewrite length_app in Hl. simpl in Hl. lia.
    + subst os1. done.
Qed.

Lemma run_sole_handle ops (h : FileHandler) os h' os' :
  reopens_closed ops (h, os) -> run ops (h, os) = Returns (h', os') ->
  sole_handle h os -> sole_handle h' os' /\ fpath h' = fpath h.
Proof.
  revert h os. induction ops as [|o ops IH]; intros h os Hguard Hrun Hs.
  - simpl in Hrun. injection Hrun as <- <-. done.
  - simpl in Hguard, Hrun. destruct Hguard as [Hg Hrest].
    destruct (step o (h, os)) as [[h1 os1]| |] eqn:Hstep; try discriminate.
    simpl in Hrun.
    destruct (step_sole_handle o h os h1 os1 Hg Hstep Hs) as [Hs1 Hp1].
    destruct (IH h1 os1 Hrest Hrun Hs1) as [Hs' Hp']. split; [done|congruence].
Qed.

(** C2, as the code has it: a successful [NewFileHandler] or [ReopenFile]
    opens one more handle for the path and makes it the handler's file,
    and [ReopenFile] leaves the handle it replaces open if it was open.  So
    at most one handle is open for the handler's path over the sequences of
    operations in which [ReopenFile] is only called while the handler's
    file is closed, from a construction at a path no handle is open for. *)
Theorem one_handle_if_reopened_when_closed :
  (forall path json os (h : FileHandler) os1,
      NewFileHandler path json os = (os1, inl h) ->
      length (open_handles path os1) = S (length (open_handles path os))
      /\ fpath h = path /\ file h = length (handles os)
      /\ is_open (file h) os1 = true
      /\ (open_handles path os = [] -> sole_handle h os1))
  /\ (forall (h h' : FileHandler) os os',
      ReopenFile h os = (h', os', None) ->
      length (open_handles (fpath h) os')
      = S (length (open_handles (fpath h) os))
      /\ file h' = length (handles os) /\ is_open (file h') os' = true
      /\ (is_open (file h) os = true -> is_open (file h) os' = true))
  /\ (forall (h h' : FileHandler) os os' ops,
      sole_handle h os ->
      reopens_closed ops (h, os) ->
      run ops (h, os) = Returns (h', os') ->
      length (open_handles (fpath h) os') <= 1).
Proof.
  split_and!.
  - intros path json os h os1. unfold NewFileHandler.
    destruct (openFile path os) as [os2 [fd|x]] eqn:Ho; [|discriminate].
    pose proof (openFile_spec _ _ _ _ Ho) as [-> ->].
    intros [= <- <-]. simpl. rewrite open_handles_app, decide_True by done.
    rewrite length_app. simpl. split_and!; try done; [lia|apply is_open_new|].
    intros Hnone fd hd Hl Hpath Hopen. simpl in *.
    destruct (decide (fd < length (handles os))) as [Hlt|Hge].
    + exfalso. rewrite lookup_app_l in Hl by done.
      assert (Hin : hd ∈ open_handles path os).
      { unfold open_handles. apply list_elem_of_filter. split; [done|].
        apply list_elem_of_lookup. by exists fd. }
      rewrite Hnone in Hin. by apply not_elem_of_nil in Hin.
    + apply lookup_lt_Some in Hl. rewrite length_app in Hl. simpl in Hl. lia.
  - intros h h' os os'. unfold ReopenFile.
    destruct (openFile (fpath h) os) as [os2 [fd|x]] eqn:Ho; [|discriminate].
    pose proof (openFile_spec _ _ _ _ Ho) as [-> ->].
    intros [= <- <-]. simpl. rewrite open_handles_app, decide_True by done.
    rewrite length_app. simpl. split_and!; try done;
      [lia | apply is_open_new | apply is_open_app].
  - intros h h' os os' ops Hs Hguard Hrun.
    destruct (run_sole_handle ops h os h' os' Hguard Hrun Hs) as [Hs' Hp'].
    rewrite <- Hp'. by apply sole_handle_count.
Qed.

End proofs.

(** *** Concrete handlers *)

(** The lock switched off: [Lock] always returns. *)
#[local] Instance no_lock : Locker unit := {|
  lw_zero := tt;
  lw_Lock _ := Some tt;
  lw_Unlock _ := tt;
  lw_relock := fun _ _ _ => ex_intro _ tt eq_refl
|}.

(** The lock as a plain [sync.Mutex] ([true]: held): [Lock] on a held
    mutex never returns. *)
#[local] Instance go_mutex : Locker bool := {|
  lw_zero := false;
  lw_Lock m := if m then None else Some true;
  lw_Unlock _ := false;
  lw_relock := fun _ _ _ => ex_intro _ true eq_refl
|}.

(** Records that are their own rendering. *)
#[local] Instance raw_records : HandlerDeps (list byte) := {|
  NewJSONFormatter r := inl r;
  NewTextFormatter r := inl r;
  unset_Formatter r := inl r;
  AllLevels := [100; 200; 300; 400; 500; 600; 700; 800]%Z;
  path_Dir _ := "."
|}.

(** A device with room for 1000 bytes and no open file. *)
Definition os0 : OS := mkOS [] [] 1000 [] [].

(** [os0] after [NewFileHandler("app.log", false)]: handle 0 is open. *)
Definition os1 : OS := mkOS [mkHandle "app.log" true] [] 1000 [] [].

(** The handler [NewFileHandler("app.log", false)] returns on [os0]. *)
Definition new_fh {Mutex} `{!Locker Mutex} : Handler.FileHandler (list byte) Mutex :=
  mkFileHandler lw_zero (mkLWF AllLevels (Some NewTextFormatter)) "app.log" 0 None
                false false bufferSize.

Definition fh0 : Handler.FileHandler (list byte) unit := new_fh.

(** [fh0] configured with an 8-byte buffer. *)
Definition fh8 : Handler.FileHandler (list byte) unit :=
  Configure (set_fh_BuffSize 8) fh0.

(** A buffered handler of capacity 8 around [fh0], and the same with a
    mutex for its lock. *)
Definition bh8 : Handler.BufferedHandler (list byte) unit :=
  NewBufferedHandler fh0 8.

Definition bh8_mutex : Handler.BufferedHandler (list byte) bool :=
  NewBufferedHandler new_fh 8.

Definition rec8 : list byte := [x61; x62; x63; x64; x65; x66; x67; x68].

Example NewFileHandler_os0 :
  NewFileHandler "app.log" false os0 = (os1, inl fh0).
Proof. reflexivity. Qed.




(** With the lock a plain mutex, the flush [Handle] starts at the threshold
    takes the lock [Handle] already holds: the call never returns. *)
Example BufferedHandler_Handle_self_lock :
  BufferedHandler_Handle bh8_mutex rec8 os1 = Blocks.
Proof. reflexivity. Qed.

(** [bh8] with the two bytes "ab" in its buffer. *)
Definition bh8_ab : Handler.BufferedHandler (list byte) unit :=
  set_buffer (Some (mkBufio None 8 [x61; x62] 0)) bh8.

Example BufferedHandler_Handle_ab :
  BufferedHandler_Handle bh8 [x61; x62] os1 = Returns (bh8_ab, os1, None).
Proof. reflexivity. Qed.

Lemma Close_flushes_before_closing_witness :
  exists h2 os3,
    BufferedHandler_Close bh8_ab os1 = Returns (h2, os3, None)
    /\ written 0 os1 = []
    /\ written 0 os3 = [x61; x62]
    /\ is_open 0 os3 = false.
Proof.
  eassert (Hf : BufferedHandler_Flush bh8_ab os1 = Returns (_, _, None))
    by (vm_compute; reflexivity).
  destruct (proj2 (Close_flushes_before_closing (R := list byte) (Mutex := unit))
              _ _ _ _ _ Hf) as (h2 & os3 & H1 & _ & H3 & _ & _).
  exists h2, os3. split; [exact H1|]. split; [reflexivity|].
  split; [|exact H3].
  vm_compute in H1. injection H1 as <- <-. reflexivity.
Defined.

(** A handler whose file is closed: [fh0] after [Close()]. *)
Definition os1_closed : OS := mkOS [mkHandle "app.log" false] [] 1000 [0] [].

Example FileHandler_Close_fh0 : FileHandler_Close fh0 os1 = (fh0, os1_closed, None).
Proof. reflexivity. Qed.

Lemma Flush_twice_adds_nothing_witness :
  exists h1 osa h2 osb,
    BufferedHandler_Flush bh8_ab os1 = Returns (h1, osa, None)
    /\ written 0 osa = [x61; x62]
    /\ BufferedHandler_Flush h1 osa = Returns (h2, osb, None)
    /\ wlog osb = wlog osa.
Proof.
  eassert (Hf : BufferedHandler_Flush bh8_ab os1 = Returns (_, _, None))
    by (vm_compute; reflexivity).
  destruct (proj2 (Flush_twice_adds_nothing (R := list byte) (Mutex := unit))
              _ _ _ _ _ Hf) as (h2 & osb & e2 & H1 & H2 & H3).
  rewrite (H3 eq_refl) in H1.
  eexists _, _, h2, osb. split; [exact Hf|]. split; [reflexivity|].
  split; [exact H1 | exact H2].
Defined.

(** C9 as stated fails: on a handler whose file is closed, both calls of
    [Flush()] return the error of [Sync]; the second call returns an error. *)
Lemma Flush_twice_on_closed_file_counterexample :
  FileHandler_Close fh0 os1 = (fh0, os1_closed, None)
  /\ FileHandler_Flush fh0 os1_closed = (fh0, os1_closed, Some ErrClosed)
  /\ snd (FileHandler_Flush (fst (fst (FileHandler_Flush fh0 os1_closed)))
                            (snd (fst (FileHandler_Flush fh0 os1_closed))))
     = Some ErrClosed.
Proof. split_and!; reflexivity. Qed.

(** The same on a full device: the first [Flush()] fails with ENOSPC, and
    the second returns the error the buffer has kept. *)
Example Flush_twice_on_full_device :
  let os_full := mkOS [mkHandle "app.log" true] [] 1 [] [] in
  let h := set_bufio (Some (mkBufio None 8 [x61; x62] 0)) fh8 in
  exists h1 osa,
    FileHandler_Flush h os_full = (h1, osa, Some ErrNoSpace)
    /\ written 0 osa = [x61]
    /\ FileHandler_Flush h1 osa = (h1, osa, Some ErrNoSpace).
Proof. eexists _, _. split_and!; reflexivity. Qed.

Lemma one_handle_if_reopened_when_closed_witness :
  let ops := [OpHandle rec8; OpFlush; OpClose; OpReopenFile; OpHandle rec8] in
  exists h' os',
    run ops (fh8, os1) = Returns (h', os')
    /\ reopens_closed ops (fh8, os1)
    /\ file h' = 1 /\ length (handles os') = 2
    /\ length (open_handles "app.log" os') <= 1.
Proof.
  intros ops.
  eassert (Hrun : run ops (fh8, os1) = Returns (_, _)) by (vm_compute; reflexivity).
  assert (Hguard : reopens_closed ops (fh8, os1)).
  { vm_compute. split_and!; try done; discriminate. }
  assert (Hsole : sole_handle fh8 os1).
  { apply (proj1 (one_handle_if_reopened_when_closed
                    (R := list byte) (Mutex := unit)) "app.log" false os0 fh0 os1
             eq_refl). reflexivity. }
  eexists _, _. split; [exact Hrun|]. split; [exact Hguard|].
  split; [reflexivity|]. split; [reflexivity|].
  exact (proj2 (proj2 (one_handle_if_reopened_when_closed
                         (R := list byte) (Mutex := unit)))
           fh8 _ os1 _ ops Hsole Hguard Hrun).
Defined.

(** C2 as stated fails: [ReopenFile] on a handler whose file is open leaves
    that handle open and opens a second one for the same path. *)
Lemma ReopenFile_leaves_two_handles_counterexample :
  exists h' os2,
    NewFileHandler "app.log" false os0 = (os1, inl fh0)
    /\ ReopenFile fh0 os1 = (h', os2, None)
    /\ file fh0 = 0 /\ file h' = 1
    /\ is_open 0 os2 = true /\ is_open 1 os2 = true
    /\ length (open_handles "app.log" os2) = 2.
Proof. eexists _, _. split_and!; reflexivity. Qed.

End HandlerProofs.

(** * Lemmas on Config *)

Module HandlerConfigProofs.
Import Os HandlerConfig.

Section proofs.
Context {W : Type} `{!WriterDeps W}.

(** C7: with MaxSize and RotateTime both 0, [RotateWriter] returns its
    error at once, and so does the construction without a log file path;
    the operating system is as it was: nothing was opened or written. *)
Theorem RotateWriter_rejects_bad_config (c : Config) (os : OS) :
  (MaxSize c = 0 /\ RotateTime c = 0) \/ Logfile c = "" ->
  exists e,
    RotateWriter c os = Returns (os, inr e)
    /\ (MaxSize c = 0 /\ RotateTime c = 0 ->
        e = ErrMsg "slog: cannot create rotate writer, MaxSize and RotateTime both is 0")
    /\ (Logfile c = "" ->
        CreateWriter c os =
        Returns (os, inr (ErrMsg "slog: logfile cannot be empty for create writer"))).
Proof.
  intros Hbad. unfold RotateWriter, CreateWriter.
  destruct (decide (MaxSize c = 0 /\ RotateTime c = 0)) as [Hz|Hnz].
  - rewrite bool_decide_eq_true_2 by done. eexists. split; [reflexivity|].
    split; [done|]. intros ->. by rewrite bool_decide_eq_true_2.
  - rewrite bool_decide_eq_false_2 by done.
    destruct Hbad as [Hz|Hl]; [contradiction|].
    rewrite Hl, bool_decide_eq_true_2 by done. eexists. split; [reflexivity|].
    split; [intros; contradiction | done].
Qed.

End proofs.

(** Writers that are file handles: both constructors open the log file. *)
#[local] Instance file_writers : WriterDeps nat := {|
  rotatefile_EmptyConfigWith := mkRotateConfig false "" 0 0 0 0 false None;
  rotatefile_Create rc os := OpenFile (rc_Filepath rc) os;
  fsutil_QuickOpenFile path os := OpenFile path os;
  bufwrite_NewLineWriterSize w _ := w;
  bufwrite_NewBufIOWriterSize w _ := w
|}.

Definition empty_os : OS := mkOS [] [] 1000 [] [].

(** A config with a log file and both rotation triggers at 0. *)
Definition no_trigger : Config :=
  mkConfig "app.log" [] false BuffModeLine 0 0 0 false 20 168 None.

(** With a size trigger the same config opens the log file. *)
Example RotateWriter_opens_file :
  RotateWriter (mkConfig "app.log" [] false BuffModeLine 0 0 1024 false 20 168 None) empty_os
  = Returns (mkOS [mkHandle "app.log" true] [] 1000 [] [], inl 0%nat).
Proof. reflexivity. Qed.

Lemma RotateWriter_rejects_bad_config_witness :
  ((MaxSize no_trigger = 0 /\ RotateTime no_trigger = 0) \/ Logfile no_trigger = "")
  /\ RotateWriter no_trigger empty_os
     = Returns (empty_os, inr (ErrMsg
         "slog: cannot create rotate writer, MaxSize and RotateTime both is 0")).
Proof.
  split; [left; split; reflexivity|].
  destruct (RotateWriter_rejects_bad_config no_trigger empty_os
              (or_introl (conj eq_refl eq_refl))) as (e & H1 & H2 & _).
  rewrite H1, (H2 (conj eq_refl eq_refl)). reflexivity.
Defined.

End HandlerConfigProofs.

(** * More lemmas on package slog *)

Module SlogMoreProofs.
Import Slog SlogMore SlogProofs.

Section proofs.
Context {Handler World : Type}.
Context `{!HandlerOps Handler World, !LoggerDeps Handler World}.

Abbreviation Logger := (Logger Handler).
Abbreviation Env := (Env Handler World).

(** *** What Flush and Close return *)

(** [Flush()], [FlushAll()] and [Close()] return [l.err] as the fan-out
    leaves it: the last failure of this fan-out, and when no handler failed
    the error the logger held before, which no fan-out clears.  [MustFlush]
    panics in exactly the cases in which [Flush] returns an error. *)
Theorem Flush_returns_last_failure_or_held_error (l : Logger) (e : Env) :
  mu l = false ->
  let held_or_last m :=
    match last (failures (snd (fan_out m (handlers l) (world e)))) with
    | Some x => Some x
    | None => err l
    end in
  (exists l' e',
      Flush (l, e) = Returns (l', e', held_or_last MFlush)
      /\ FlushAll (l, e) = Returns (l', e', held_or_last MFlush)
      /\ mu l' = false /\ err l' = held_or_last MFlush
      /\ (MustFlush (l, e) = Panics <-> held_or_last MFlush <> None))
  /\ snd (Close (l, e)) = held_or_last MClose.
Proof.
  intros Hmu held. split.
  - destruct (fan_spec MFlush (set_mu true l) e)
      as (l1 & e1 & Hfan & _ & _ & He & _). simpl in Hfan, He.
    unfold FlushAll, MustFlush, Flush, lockAndFlushAll, mu_Lock. simpl.
    rewrite Hmu. simpl. rewrite Hfan. simpl.
    exists (mu_Unlock l1), e1. unfold err_after in He. fold (held MFlush) in He.
    rewrite He. split_and!; try done.
    destruct (held MFlush); split; done.
  - destruct (fan_spec MClose l e) as (l1 & e1 & Hfan & _ & _ & He & _).
    simpl in Hfan. unfold Close in *.
    destruct (fst (VisitAll _ (l, e))) as [l2 e2]. simpl in *.
    injection Hfan as -> ->. exact He.
Qed.

(** *** Registration order *)

Lemma fan_out_app m (hs1 hs2 : list Handler) (w : World) :
  fan_out m (hs1 ++ hs2) w =
  (fst (fan_out m hs2 (fst (fan_out m hs1 w))),
   snd (fan_out m hs1 w) ++ snd (fan_out m hs2 (fst (fan_out m hs1 w)))).
Proof.
  revert w. induction hs1 as [|h hs1 IH]; intros w; simpl.
  - by destruct (fan_out m hs2 w).
  - destruct (match m with MFlush => h_Flush h w | MClose => h_Close h w end)
      as [w1 r].
    rewrite IH. destruct (fan_out m hs1 w1) as [w2 c1]. simpl.
    by destruct (fan_out m hs2 w2).
Qed.

(** Handlers registered later are served later: a fan-out (flush or close)
    over a logger to which [hs] were added does what it did before and then
    serves [hs], in order, on the state the earlier handlers left.  The
    three ways of adding handlers build the same list, [SetHandlers]
    replaces it, and after [ResetHandlers] a fan-out calls no handler and
    leaves the handlers' state and the held error alone. *)
Theorem fan_out_follows_registration (m : method) (l : Logger) (e : Env)
    (hs : list Handler) (h : Handler) :
  let before := snd (fan m (l, e)) in
  let after := snd (fan m (AddHandlers hs l, e)) in
  calls after = calls before ++ snd (fan_out m hs (world before))
  /\ world after = fst (fan_out m hs (world before))
  /\ PushHandlers hs l = AddHandlers hs l
  /\ PushHandler h l = AddHandlers [h] l
  /\ handlers (AddHandlers hs (AddHandler h l)) = handlers l ++ h :: hs
  /\ handlers (SetHandlers hs l) = hs
  /\ snd (fan m (ResetHandlers l, e)) = e
  /\ err (fst (fan m (Reset l, e))) = err l.
Proof.
  intros before after. subst before after.
  destruct (fan_spec m l e) as (l1 & e1 & -> & Hw1 & Hc1 & _).
  destruct (fan_spec m (AddHandlers hs l) e) as (l2 & e2 & -> & Hw2 & Hc2 & _).
  destruct (fan_spec m (ResetHandlers l) e) as (l3 & e3 & H3 & Hw3 & Hc3 & He3 & _).
  simpl in *. rewrite fan_out_app in Hw2, Hc2. simpl in *.
  rewrite Hw1, Hc1, Hc2, Hw2, app_assoc.
  split_and!; try done.
  - simpl. by rewrite <- app_assoc.
  - by destruct m.
  - unfold Reset. rewrite H3. simpl. exact He3.
Qed.

(** *** The record pool *)

(** The pool is sound: its pointers point into the heap, none twice. *)
Definition pool_ok (l : Logger) (hp : heap) : Prop :=
  pool_valid l hp /\ NoDup (recordPool l).

Lemma Logger_newRecord_fresh (l : Logger) (hp : heap) :
  pool_ok l hp ->
  exists a l1 hp1 r,
    Logger_newRecord l hp = (a, l1, hp1)
    /\ hp1 !! a = Some r /\ (a ∉ recordPool l1) /\ pool_ok l1 hp1
    /\ (length hp <= length hp1)%nat
    /\ err l1 = err l /\ handlers l1 = handlers l.
Proof.
  intros [Hv Hnd]. unfold Logger_newRecord, pool_ok, pool_valid in *.
  destruct (recordPool l) as [|a p] eqn:Hp.
  - simpl. exists (length hp), l, (hp ++ [newRecord_value]), newRecord_value.
    rewrite Hp. split_and!; try done.
    + rewrite lookup_app_r by lia. by rewrite Nat.sub_diag.
    + apply not_elem_of_nil.
    + rewrite length_app. simpl. lia.
  - apply NoDup_cons in Hnd as [Hna Hnd]. inversion Hv as [|? ? Ha Hrest]; subst.
    destruct (lookup_lt_is_Some_2 hp a Ha) as [r Hr].
    exists a, (set_pool p l), hp, r. simpl. split_and!; done.
Qed.

(** What a leveled call does to the pool and to the size of the heap. *)
Lemma Logger_log_pool (level : Z) (args : list value) (l : Logger) (hp : heap)
    (e : Env) :
  pool_valid l hp ->
  exists l' hp' e',
    Logger_log level args (l, hp, e) = (l', hp', e')
    /\ recordPool l'
       = fst (fst (Logger_newRecord l hp)) :: recordPool (snd (fst (Logger_newRecord l hp)))
    /\ length hp' = length (snd (Logger_newRecord l hp)).
Proof.
  intros Hv. unfold Logger_log.
  destruct (Logger_newRecord_spec l hp Hv)
    as (a & l1 & hp1 & r1 & -> & Hr1 & _). simpl. unfold Record_log.
  set (hp2 := store a _ hp1).
  assert (H2 : exists r2, hp2 !! a = Some r2).
  { eexists. subst hp2. by apply store_lookup. }
  destruct H2 as [r2 H2].
  set (hp3 := store a _ hp2).
  assert (H3 : exists r3, hp3 !! a = Some r3).
  { eexists. subst hp3. by apply store_lookup. }
  destruct H3 as [r3 H3]. rewrite H3.
  destruct (write level r3 (err l1) e) as [[r4 er] e4].
  eexists _, _, _. split; [reflexivity|]. simpl. split; [reflexivity|].
  rewrite store_length, length_insert. subst hp3 hp2. by rewrite !store_length.
Qed.

(** The pool stays sound under the record methods of the logger: after a
    leveled call, [Record()], [WithContext], [WithFields] and [WithField],
    every pooled pointer still points into the heap and none is pooled
    twice; and the record a call takes from the pool is not in the pool
    while the call has it. *)
Theorem pool_stays_sound (l : Logger) (hp : heap) (e : Env) (level : Z)
    (args : list value) (ctx : option nat) (fields : M) (nm : string) (val : value) :
  pool_ok l hp ->
  (let '(a, l1, _) := Logger_newRecord l hp in a ∉ recordPool l1)
  /\ (let '(l', hp', _) := Logger_log level args (l, hp, e) in pool_ok l' hp')
  /\ (let '(_, l', hp') := Logger_Record l hp in pool_ok l' hp')
  /\ (let '(_, l', hp') := Logger_WithContext ctx l hp in pool_ok l' hp')
  /\ (exists b l' hp',
        Logger_WithFields fields l hp = Returns (b, l', hp') /\ pool_ok l' hp')
  /\ (exists b l' hp',
        Logger_WithField nm val l hp = Returns (b, l', hp') /\ pool_ok l' hp').
Proof.
  intros Hok. pose proof Hok as [Hv Hnd].
  destruct (Logger_newRecord_fresh l hp Hok)
    as (a & l1 & hp1 & r1 & Hnew & Hr1 & Hna & [Hv1 Hnd1] & Hlen & _).
  pose proof (lookup_lt_Some _ _ _ Hr1) as Ha.
  assert (Hrel : forall hp2 (l2 : Logger),
             recordPool l2 = a :: recordPool l1 ->
             (length hp1 <= length hp2)%nat -> pool_ok l2 hp2).
  { intros hp2 l2 Hp Hl. unfold pool_ok, pool_valid in *. rewrite Hp. split.
    - constructor; [lia|]. eapply Forall_impl; [exact Hv1|]. simpl. intros. lia.
    - apply NoDup_cons. done. }
  assert (Hfields : forall f, exists b l' hp',
             Logger_WithFields f l hp = Returns (b, l', hp') /\ pool_ok l' hp').
  { intros f. unfold Logger_WithFields, Record_WithFields. rewrite Hnew, Hr1. simpl.
    eexists _, _, _. split; [reflexivity|]. apply Hrel; [reflexivity|].
    rewrite store_length, length_app. simpl. lia. }
  split_and!.
  - by rewrite Hnew.
  - destruct (Logger_log_pool level args l hp e Hv) as (l' & hp' & e' & -> & Hp & Hl).
    rewrite Hnew in Hp, Hl. simpl in Hp, Hl. apply Hrel; [done|lia].
  - unfold Logger_Record. rewrite Hnew. simpl. apply Hrel; [reflexivity|].
    by rewrite store_length.
  - unfold Logger_WithContext, Record_WithContext. rewrite Hnew. simpl.
    apply Hrel; [reflexivity|]. by rewrite !store_length.
  - apply Hfields.
  - apply (Hfields (Some {[ nm := val ]})).
Qed.

(** *** Fields of a record *)

Lemma AddFields_fold (m entries : gmap string value) :
  map_fold (fun n v acc => <[n := v]> acc) m entries = entries ∪ m.
Proof.
  apply (map_fold_weak_ind (fun acc es => acc = es ∪ m)).
  - by rewrite (left_id_L ∅ (∪)).
  - intros i x es acc _ ->. by rewrite insert_union_l.
Qed.

(** [AddFields] merges into the record's own map, the new entries winning:
    afterwards a name bound by [fields] has the value from [fields], every
    other name what it had, and no other field of the record has changed.
    [AddField] is the case of one entry. *)
Theorem AddFields_merges_new_over_old (a : nat) (fields : M) (hp : heap)
    (r : Record_) (m : gmap string value) (nm : string) (val : value) :
  hp !! a = Some r ->
  Fields r = Some m ->
  exists hp' r',
    Record_AddFields a fields hp = Returns (a, hp')
    /\ hp' !! a = Some r'
    /\ (exists m', Fields r' = Some m'
         /\ forall k, m' !! k = match default ∅ fields !! k with
                                | Some v => Some v
                                | None => m !! k
                                end)
    /\ set_Fields (Fields r) r' = r
    /\ Record_AddField a nm val hp = Record_AddFields a (Some {[ nm := val ]}) hp.
Proof.
  intros Hr Hm. pose proof (lookup_lt_Some _ _ _ Hr) as Ha.
  assert (Hone : Record_AddField a nm val hp
                 = Record_AddFields a (Some {[ nm := val ]}) hp).
  { unfold Record_AddField, Record_AddFields. rewrite Hr, Hm. simpl.
    destruct (decide _) as [He|_].
    - exfalso. by apply (insert_non_empty (M:=gmap string) ∅ nm val).
    - by rewrite AddFields_fold, insert_union_singleton_l. }
  revert Hone. generalize (Record_AddField a nm val hp). intros o Hone.
  unfold Record_AddFields at 1. rewrite Hr, Hm.
  destruct (decide (default ∅ fields = ∅)) as [He|Hne].
  - exists hp, r. split; [reflexivity|]. split; [exact Hr|]. split.
    { exists m. split; [done|]. intros k. by rewrite He, lookup_empty. }
    split; [|done]. destruct r. simpl in *. by rewrite Hm.
  - eexists _, _. split; [reflexivity|].
    split; [by apply list_lookup_insert_eq|]. split.
    { eexists. split; [reflexivity|]. intros k.
      rewrite AddFields_fold, lookup_union.
      destruct (default ∅ fields !! k), (m !! k); reflexivity. }
    split; [destruct r; simpl in *; by rewrite Hm|done].
Qed.

(** The record that [Record()] hands out has just been released, and a
    release sets [Fields] to nil: [AddField] on it panics, and so does
    [AddFields] with at least one entry, while [AddFields] with no entry
    returns the record as it is. *)
Theorem AddField_on_released_record_panics (l : Logger) (hp : heap)
    (nm : string) (val : value) (fields : M) :
  pool_valid l hp ->
  let '(a, _, hp') := Logger_Record l hp in
  Record_AddField a nm val hp' = Panics
  /\ (default ∅ fields <> ∅ -> Record_AddFields a fields hp' = Panics)
  /\ (default ∅ fields = ∅ -> Record_AddFields a fields hp' = Returns (a, hp')).
Proof.
  intros Hv. unfold Logger_Record.
  destruct (Logger_newRecord_spec l hp Hv)
    as (a & l1 & hp1 & r1 & -> & Hr1 & Hv1 & _).
  destruct (releaseRecord_spec l1 a hp1 r1 Hr1 Hv1)
    as (l2 & hp2 & r2 & -> & _ & Hr2 & _ & Hf & _).
  unfold Record_AddField, Record_AddFields. rewrite Hr2, Hf. split_and!.
  - done.
  - intros Hne. by destruct (decide _).
  - intros He. by destruct (decide _).
Qed.

(** [WithFields] replaces, it does not merge: the new record has exactly
    the given fields and none of the receiver's Fields, Ctx, Data or Extra,
    its CallerSkip is 0, and the receiver and every other record stay as
    they were; so of a chain [WithFields(f).WithFields(g)] only [g] is
    left, and [WithError(err).WithField(n, v)] has lost the error. *)
Theorem WithFields_replaces_fields (a : nat) (f g : M) (hp : heap) (r : Record_)
    (er : error) (nm : string) (val : value) :
  hp !! a = Some r ->
  (exists hp1 r1,
      Record_WithFields a f hp = Returns (length hp, hp1)
      /\ hp1 !! length hp = Some r1
      /\ (forall c, (c < length hp)%nat -> hp1 !! c = hp !! c)
      /\ Fields r1 = f /\ Ctx r1 = None /\ Data r1 = None /\ Extra r1 = None
      /\ CallerSkip r1 = 0
      /\ Level r1 = Level r /\ LevelName r1 = LevelName r
      /\ Message r1 = Message r /\ Time r1 = Time r
      /\ exists hp2 r2,
          Record_WithFields (length hp) g hp1 = Returns (length hp1, hp2)
          /\ hp2 !! length hp1 = Some r2 /\ Fields r2 = g
          /\ Message r2 = Message r)
  /\ (exists hp1 hp2 r2,
        Record_WithError a er hp = Returns (length hp, hp1)
        /\ Record_WithField (length hp) nm val hp1 = Returns (length hp1, hp2)
        /\ hp2 !! length hp1 = Some r2
        /\ Fields r2 = Some {[ nm := val ]}).
Proof.
  intros Hr.
  assert (Hstep : forall (h : heap) c rc fs, h !! c = Some rc ->
             exists h1 r1,
               Record_WithFields c fs h = Returns (length h, h1)
               /\ h1 !! length h = Some r1
               /\ (forall d, (d < length h)%nat -> h1 !! d = h !! d)
               /\ Fields r1 = fs /\ Ctx r1 = None /\ Data r1 = None
               /\ Extra r1 = None /\ CallerSkip r1 = 0
               /\ Level r1 = Level rc /\ LevelName r1 = LevelName rc
               /\ Message r1 = Message rc /\ Time r1 = Time rc
               /\ length h1 = S (length h)).
  { intros h c rc fs Hc. unfold Record_WithFields, alloc. rewrite Hc.
    eexists _, _. split; [reflexivity|].
    split; [rewrite lookup_app_r by lia; by rewrite Nat.sub_diag|].
    split; [intros d Hd; by rewrite lookup_app_l by lia|].
    split_and!; try reflexivity. rewrite length_app. simpl. lia. }
  split.
  - destruct (Hstep hp a r f Hr)
      as (hp1 & r1 & H1 & Hr1 & Hold & Hf & Hc & Hd & He & Hs & Hl & Hn & Hm & Ht & Hlen).
    exists hp1, r1. split_and!; try done.
    destruct (Hstep hp1 (length hp) r1 g Hr1)
      as (hp2 & r2 & H2 & Hr2 & _ & Hg & _ & _ & _ & _ & _ & _ & Hm2 & _).
    exists hp2, r2. split_and!; try done. by rewrite Hm2.
  - unfold Record_WithError, Record_WithField.
    destruct (Hstep hp a r (Some {[ ErrorKey := VErr er ]}) Hr)
      as (hp1 & r1 & H1 & Hr1 & _).
    destruct (Hstep hp1 (length hp) r1 (Some {[ nm := val ]}) Hr1)
      as (hp2 & r2 & H2 & Hr2 & _ & Hg & _).
    exists hp1, hp2, r2. split_and!; done.
Qed.

(** [l.WithFields(f).Log(level, args...)]: the record that reaches the
    dispatch has the fields [f], the level and the message of the call and
    CallerSkip 0; it is a record of its own, which the call leaves out of
    the pool, and the pool is as [WithFields] left it. *)
Theorem WithFields_Log_dispatches_fields (f : M) (level : Z) (args : list value)
    (l : Logger) (hp : heap) (e : Env) :
  pool_valid l hp ->
  exists b l1 hp1 r0,
    Logger_WithFields f l hp = Returns (b, l1, hp1)
    /\ Fields r0 = f /\ Level r0 = level /\ LevelName r0 = Level_String level
    /\ Message r0 = Sprint args /\ CallerSkip r0 = 0
    /\ Data r0 = None /\ Extra r0 = None /\ Ctx r0 = None
    /\ Record_Log b level args (l1, hp1, e)
       = (let '(r', er, e') := write level r0 (err l1) e in
          (set_err er l1, <[b := r']> hp1, e'))
    /\ (b ∉ recordPool l1)
    /\ recordPool (fst (fst (Record_Log b level args (l1, hp1, e)))) = recordPool l1.
Proof.
  intros Hv.
  destruct (Logger_newRecord_spec l hp Hv)
    as (a & l1 & hp1 & r1 & Hnew & Hr1 & Hv1 & _).
  pose proof (lookup_lt_Some _ _ _ Hr1) as Ha.
  unfold Logger_WithFields, Record_WithFields. rewrite Hnew, Hr1. simpl.
  set (rb := {| Level := Level r1; LevelName := LevelName r1; Channel := "";
                Message := Message r1; Time := Time r1; Ctx := None; Fields := f;
                Data := None; Extra := None; Caller := None; Formatted := [];
                CallerSkip := 0 |}).
  set (hp3 := store a _ (hp1 ++ [rb])).
  assert (Hb : hp3 !! length hp1 = Some rb).
  { subst hp3. rewrite store_lookup_ne by lia. rewrite lookup_app_r by lia.
    by rewrite Nat.sub_diag. }
  exists (length hp1), (set_pool (a :: recordPool l1) l1), hp3,
    {| Level := level; LevelName := Level_String level; Channel := "";
       Message := Sprint args; Time := Time r1; Ctx := None; Fields := f;
       Data := None; Extra := None; Caller := None; Formatted := [];
       CallerSkip := 0 |}.
  assert (Hlog : Record_Log (length hp1) level args
                   (set_pool (a :: recordPool l1) l1, hp3, e)
                 = (let '(r', er, e') :=
                      write level
                        {| Level := level; LevelName := Level_String level;
                           Channel := ""; Message := Sprint args; Time := Time r1;
                           Ctx := None; Fields := f; Data := None; Extra := None;
                           Caller := None; Formatted := []; CallerSkip := 0 |}
                        (err (set_pool (a :: recordPool l1) l1)) e in
                    (set_err er (set_pool (a :: recordPool l1) l1),
                     <[length hp1 := r']> hp3, e'))).
  { unfold Record_Log, Record_log. erewrite store_lookup by exact Hb.
    destruct (write _ _ _ _) as [[r' er] e']. f_equal. f_equal.
    unfold store. rewrite Hb. apply list_insert_insert_eq. }
  split; [reflexivity|]. split_and!; try reflexivity.
  - exact Hlog.
  - simpl. intros Hin. apply elem_of_cons in Hin as [Heq|Hin]; [lia|].
    unfold pool_valid in Hv1. rewrite Forall_forall in Hv1.
    specialize (Hv1 _ Hin). simpl in Hv1. lia.
  - change (recordPool (fst (fst (Record_Log (length hp1) level args
                                    (set_pool (a :: recordPool l1) l1, hp3, e))))
            = recordPool (set_pool (a :: recordPool l1) l1)).
    rewrite Hlog. by destruct (write _ _ _ _) as [[r' er] e'].
Qed.

(** *** VisitAll, the mutex and stderr *)

Lemma VisitAll_range_app (fn : Handler -> Logger * Env -> Logger * Env * option error)
    (hs1 hs2 : list Handler) (s : Logger * Env) :
  VisitAll_range (hs1 ++ hs2) fn s =
  match VisitAll_range hs1 fn s with
  | (s1, Some x) => (s1, Some x)
  | (s1, None) => VisitAll_range hs2 fn s1
  end.
Proof.
  revert s. induction hs1 as [|h hs1 IH]; intros s; [reflexivity|].
  simpl. destruct (fn h s) as [s' [x|]]; [reflexivity|apply IH].
Qed.

(** [VisitAll] stops at the first handler for which the callback returns
    an error and returns that error; the handlers registered after it are
    not visited, whatever they would have done.  And an error that
    [VisitAll] returns is the error of the last handler it visited, every
    handler before having returned nil. *)
Theorem VisitAll_stops_at_first_error
    (fn : Handler -> Logger * Env -> Logger * Env * option error)
    (l : Logger) (e : Env) :
  (forall hs1 h hs2 s1 s2 x,
      handlers l = hs1 ++ h :: hs2 ->
      VisitAll_range hs1 fn (l, e) = (s1, None) ->
      fn h s1 = (s2, Some x) ->
      VisitAll fn (l, e) = (s2, Some x))
  /\ (forall s2 x,
      VisitAll fn (l, e) = (s2, Some x) ->
      exists hs1 h hs2 s1,
        handlers l = hs1 ++ h :: hs2
        /\ VisitAll_range hs1 fn (l, e) = (s1, None)
        /\ fn h s1 = (s2, Some x)).
Proof.
  split.
  - intros hs1 h hs2 s1 s2 x Hh H1 Hfn. unfold VisitAll. simpl. rewrite Hh.
    rewrite VisitAll_range_app, H1. simpl. by rewrite Hfn.
  - unfold VisitAll. simpl. generalize (handlers l) (l, e). clear l e.
    intros hs. induction hs as [|h hs IH]; intros s s2 x; [discriminate|].
    simpl. destruct (fn h s) as [s' [y|]] eqn:Hfn.
    + intros [= <- <-]. by exists [], h, hs, s.
    + intros Hrest. destruct (IH s' s2 x Hrest) as (hs1 & h' & hs2 & s1 & -> & H1 & H2).
      exists (h :: hs1), h', hs2, s1. simpl. by rewrite Hfn.
Qed.

Lemma fan_as_range m (l : Logger) (e : Env) :
  fan m (l, e) = fst (VisitAll_range (handlers l) (fan_fn m) (l, e)).
Proof.
  destruct (fan_range m (handlers l) l e) as (l' & e' & Hrange & _).
  rewrite Hrange. destruct m; unfold fan, flushAll, Close, VisitAll; simpl.
  - change (fst (VisitAll_range (handlers l) (fan_fn MFlush) (l, e)) = (l', e')).
    by rewrite Hrange.
  - change ((let '(l1, e1) := fst (VisitAll_range (handlers l) (fan_fn MClose) (l, e))
             in (l1, e1, err l1)).1 = (l', e')).
    by rewrite Hrange.
Qed.

Lemma fan_fn_cases m h (l : Logger) (e : Env) :
  fan_fn m h (l, e) =
  match snd (fan_out m [h] (world e)) with
  | [(_, _, Some x)] =>
      (set_err (Some x) l,
       printlnStderr (method_msg m) (Some x)
         (mkEnv (fst (fan_out m [h] (world e))) (calls e ++ [(m, h, Some x)])
                (stderr e)),
       None)
  | _ =>
      (l, mkEnv (fst (fan_out m [h] (world e))) (calls e ++ [(m, h, None)]) (stderr e),
       None)
  end.
Proof.
  unfold fan_fn. simpl.
  destruct m; unfold method_call, handler_Flush, handler_Close;
    [destruct (h_Flush h (world e)) as [w [x|]]
    |destruct (h_Close h (world e)) as [w [x|]]]; reflexivity.
Qed.

Lemma fan_out_cons m h hs (w : World) :
  fan_out m (h :: hs) w
  = (fst (fan_out m hs (fst (fan_out m [h] w))),
     snd (fan_out m [h] w) ++ snd (fan_out m hs (fst (fan_out m [h] w)))).
Proof. apply (fan_out_app m [h] hs w). Qed.

Lemma fan_range_stderr m hs (l : Logger) (e : Env) (b : bool) :
  stderr (snd (fst (VisitAll_range hs (fan_fn m) (l, e))))
  = stderr e ++ map (fun x => (method_msg m, Some x))
                    (failures (snd (fan_out m hs (world e))))
  /\ VisitAll_range hs (fan_fn m) (set_mu b l, e)
     = (let '(l', e', r) := VisitAll_range hs (fan_fn m) (l, e) in (set_mu b l', e', r)).
Proof.
  revert l e. induction hs as [|h hs IH]; intros l e.
  { simpl. by rewrite app_nil_r. }
  rewrite fan_out_cons. cbn [VisitAll_range]. rewrite !fan_fn_cases.
  assert (Hone : exists w1 r, fan_out m [h] (world e) = (w1, [(m, h, r)])).
  { simpl. destruct m; [destruct (h_Flush h (world e))|destruct (h_Close h (world e))];
      by eexists _, _. }
  destruct Hone as (w1 & r & ->). cbn [fst snd].
  destruct r as [x|].
  - destruct (IH (set_err (Some x) l)
                 (printlnStderr (method_msg m) (Some x)
                    (mkEnv w1 (calls e ++ [(m, h, Some x)]) (stderr e))))
      as [Hs Hm].
    change (set_err (Some x) (set_mu b l)) with (set_mu b (set_err (Some x) l)).
    rewrite Hm, Hs. simpl. split; [|done].
    by rewrite <- app_assoc.
  - destruct (IH l (mkEnv w1 (calls e ++ [(m, h, None)]) (stderr e))) as [Hs Hm].
    rewrite Hm, Hs. simpl. done.
Qed.

(** Every failure of a fan-out is reported: [Flush] and [Close] print one
    line on stderr for each handler whose method returned an error, in the
    order of the calls, with the message of the method and the error, and
    print nothing else. *)
Theorem fan_out_reports_failures (l : Logger) (e : Env) :
  let report m :=
    stderr e ++ map (fun x => (method_msg m, Some x))
                    (failures (snd (fan_out m (handlers l) (world e)))) in
  (forall l' e' r, Flush (l, e) = Returns (l', e', r) -> stderr e' = report MFlush)
  /\ stderr (snd (fst (Close (l, e)))) = report MClose
  /\ (forall m, stderr (snd (fan m (l, e))) = report m).
Proof.
  intros report.
  assert (Hfan : forall m, stderr (snd (fan m (l, e))) = report m).
  { intros m. rewrite fan_as_range.
    apply (fan_range_stderr m (handlers l) l e false). }
  split_and!.
  - intros l' e' r. unfold Flush, lockAndFlushAll, mu_Lock. simpl.
    destruct (mu l) eqn:Hmu; [discriminate|]. simpl.
    change (flushAll (set_mu true l, e)) with (fan MFlush (set_mu true l, e)).
    rewrite fan_as_range. simpl handlers.
    destruct (fan_range_stderr MFlush (handlers l) l e true) as [Hs Hm].
    rewrite Hm. fold (report MFlush) in Hs.
    destruct (VisitAll_range (handlers l) (fan_fn MFlush) (l, e)) as [[l1 e1] r1].
    simpl in *. by intros [= <- <- <-].
  - apply (Hfan MClose).
  - exact Hfan.
Qed.

(** [Close] does not take the logger's mutex.  While the mutex is held,
    [Flush], [FlushAll] and [MustFlush] never return; [Close] makes the
    whole fan-out, with the calls and the result it has when the mutex is
    free, and leaves the mutex as it is. *)
Theorem Close_does_not_take_the_mutex (l : Logger) (e : Env) :
  mu l = true ->
  Flush (l, e) = Blocks /\ FlushAll (l, e) = Blocks /\ MustFlush (l, e) = Blocks
  /\ exists l' e' r,
      Close (l, e) = (l', e', r)
      /\ mu l' = true
      /\ Close (set_mu false l, e) = (set_mu false l', e', r)
      /\ calls e' = calls e ++ snd (fan_out MClose (handlers l) (world e)).
Proof.
  intros Hmu. unfold FlushAll, MustFlush, Flush, lockAndFlushAll, mu_Lock. simpl.
  rewrite Hmu. split_and!; try done.
  destruct (fan_range MClose (handlers l) l e)
    as (l' & e' & Hrange & _ & Hc & _ & _ & _ & Hm).
  destruct (fan_range_stderr MClose (handlers l) l e false) as [_ Hfree].
  rewrite Hrange in Hfree.
  exists l', e', (err l'). split_and!.
  - unfold Close, VisitAll. simpl.
    change ((let '(l1, e1) := fst (VisitAll_range (handlers l) (fan_fn MClose) (l, e))
             in (l1, e1, err l1)) = (l', e', err l')).
    by rewrite Hrange.
  - congruence.
  - unfold Close, VisitAll. simpl.
    change ((let '(l1, e1) :=
               fst (VisitAll_range (handlers l) (fan_fn MClose) (set_mu false l, e))
             in (l1, e1, err l1)) = (set_mu false l', e', err l')).
    by rewrite Hfree.
  - exact Hc.
Qed.

End proofs.

(** *** Concrete runs *)

#[local] Existing Instance SlogProofs.spy_handlers.
#[local] Existing Instance SlogProofs.plain_logger.

(** A logger whose handlers 0 and 2 never fail, holding the error of an
    earlier failure. *)
Definition stale_logger : Logger nat :=
  set_err (Some ErrInvalid) (AddHandlers [0; 2]%nat (NewWithName "logger")).

(** A heap of one record with the fields [user = 7]. *)
Definition user7 : Record_ :=
  set_Fields (Some {[ "user" := VInt 7 ]}) newRecord_value.

(** Both handlers flush without an error, and [Flush] still returns the
    error the logger held. *)
Lemma Flush_returns_last_failure_or_held_error_witness :
  mu stale_logger = false
  /\ exists l' e',
      Flush (stale_logger, env0) = Returns (l', e', Some ErrInvalid)
      /\ failures (calls e') = [].
Proof.
  split; [reflexivity|].
  destruct (Flush_returns_last_failure_or_held_error stale_logger env0 eq_refl)
    as [(l' & e' & H1 & _) _].
  vm_compute in H1. injection H1 as <- <-.
  eexists _, _. split; reflexivity.
Defined.

Lemma pool_stays_sound_witness :
  pool_ok logger0 []
  /\ (let '(l', hp', _) := Logger_log 600 [VStr "hello"] (logger0, [], env0) in
      pool_ok l' hp').
Proof.
  assert (H0 : pool_ok logger0 []) by (split; constructor).
  split; [exact H0|].
  exact (proj1 (proj2 (pool_stays_sound logger0 [] env0 600 [VStr "hello"] None None
                         "user" (VInt 7) H0))).
Defined.

Lemma AddFields_merges_new_over_old_witness :
  exists hp' r',
    Record_AddFields 0 (Some {[ "user" := VInt 8; "host" := VStr "a" ]}) [user7]
    = Returns (0%nat, hp')
    /\ hp' !! 0%nat = Some r'
    /\ exists m', Fields r' = Some m' /\ m' !! "user" = Some (VInt 8)
                  /\ m' !! "host" = Some (VStr "a").
Proof.
  destruct (AddFields_merges_new_over_old 0
              (Some {[ "user" := VInt 8; "host" := VStr "a" ]}) [user7] user7
              {[ "user" := VInt 7 ]} "user" (VInt 7) eq_refl eq_refl)
    as (hp' & r' & H1 & H2 & (m' & H3 & H4) & _).
  exists hp', r'. split; [exact H1|]. split; [exact H2|].
  exists m'. split; [exact H3|]. split; rewrite H4; reflexivity.
Defined.

Lemma AddField_on_released_record_panics_witness :
  pool_valid logger0 []
  /\ (let '(a, _, hp') := Logger_Record logger0 [] in
      Record_AddField a "user" (VInt 7) hp' = Panics).
Proof.
  split; [constructor|].
  pose proof (AddField_on_released_record_panics logger0 [] "user" (VInt 7) None
                (Forall_nil_2 _)) as H.
  destruct (Logger_Record logger0 []) as [[a l'] hp']. exact (proj1 H).
Defined.

Lemma WithFields_replaces_fields_witness :
  exists hp1 hp2 r2,
    Record_WithError 0 ErrClosed [user7] = Returns (1%nat, hp1)
    /\ Record_WithField 1 "host" (VStr "a") hp1 = Returns (2%nat, hp2)
    /\ hp2 !! 2%nat = Some r2
    /\ Fields r2 = Some {[ "host" := VStr "a" ]}.
Proof.
  destruct (WithFields_replaces_fields 0 None None [user7] user7 ErrClosed
              "host" (VStr "a") eq_refl)
    as [_ (hp1 & hp2 & r2 & H1 & H2 & H3 & H4)].
  exists hp1, hp2, r2. split; [exact H1|].
  assert (Hl : length hp1 = 2%nat).
  { vm_compute in H1. injection H1 as <-. reflexivity. }
  rewrite Hl in H2, H3. simpl in H2. split_and!; assumption.
Defined.

(** A callback that notes the handler it visits and fails on handler 1. *)
Definition fails_on_1 (h : nat) (s : Logger nat * Env nat (list nat))
  : Logger nat * Env nat (list nat) * option error :=
  (fst s, mkEnv (world (snd s) ++ [h]) (calls (snd s)) (stderr (snd s)),
   if decide (h = 1)%nat then Some ErrClosed else None).

Lemma VisitAll_stops_at_first_error_witness :
  exists s2,
    VisitAll fails_on_1 (logger0, env0) = (s2, Some ErrClosed)
    /\ world (snd s2) = [0; 1]%nat.
Proof.
  destruct (VisitAll_stops_at_first_error fails_on_1 logger0 env0) as [H _].
  eexists. split.
  - eapply (H [0%nat] 1%nat [2; 3]%nat); reflexivity.
  - reflexivity.
Defined.

(** [logger0] while its mutex is held. *)
Definition held_logger : Logger nat := set_mu true logger0.

Lemma Close_does_not_take_the_mutex_witness :
  Flush (held_logger, env0) = Blocks
  /\ exists l' e',
      Close (held_logger, env0) = (l', e', Some ErrNoSpace)
      /\ mu l' = true /\ world e' = [0; 1; 2; 3]%nat.
Proof.
  destruct (Close_does_not_take_the_mutex held_logger env0 eq_refl)
    as (H1 & _ & _ & l' & e' & r & H2 & H3 & _).
  split; [exact H1|]. exists l', e'.
  vm_compute in H2. injection H2 as <- <- <-. done.
Defined.

Lemma WithFields_Log_dispatches_fields_witness :
  pool_valid logger0 []
  /\ exists b l1 hp1 r0,
      Logger_WithFields (Some {[ "user" := VInt 7 ]}) logger0 [] = Returns (b, l1, hp1)
      /\ Fields r0 = Some {[ "user" := VInt 7 ]} /\ Message r0 = "hello"
      /\ (b ∉ recordPool l1).
Proof.
  split; [constructor|].
  destruct (WithFields_Log_dispatches_fields (Some {[ "user" := VInt 7 ]}) 600
              [VStr "hello"] logger0 [] env0 (Forall_nil_2 _))
    as (b & l1 & hp1 & r0 & H1 & H2 & _ & _ & H3 & _ & _ & _ & _ & _ & H4 & _).
  exists b, l1, hp1, r0. split_and!; assumption.
Defined.

End SlogMoreProofs.

(** * More on package handler *)

Module HandlerMoreProofs.
Import Os OsProofs Handler HandlerProofs HandlerMore.

Local Open Scope nat_scope.

(** *** Room on the device *)

(** Every byte that leaves the free space arrives in the file written to. *)
Lemma file_Write_conserves fd p os os' n e :
  file_Write fd p os = (os', n, e) ->
  room os' + length (written fd os') = room os + length (written fd os).
Proof.
  intros Hw. destruct (file_Write_frame _ _ _ _ _ _ Hw)
    as (_ & _ & _ & Hn & Hwr & _ & _ & Hroom & Hle).
  rewrite Hwr, length_app, length_take. lia.
Qed.

Lemma bufio_Flush_conserves b os b' os' e :
  bufio_Flush b os = (b', os', e) ->
  room os' + length (written (b_wr b) os') = room os + length (written (b_wr b) os).
Proof.
  unfold bufio_Flush. destruct (b_err b); [by intros [= <- <- <-]|].
  destruct (length (b_buf b) =? 0); [by intros [= <- <- <-]|].
  destruct (file_Write (b_wr b) (b_buf b) os) as [[os1 n] e1] eqn:Hw.
  apply file_Write_conserves in Hw.
  destruct e1; [|destruct (n <? length (b_buf b))]; by intros [= <- <- <-].
Qed.

Lemma bufio_Write_loop_conserves k b os p nn b' os' p' nn' :
  bufio_Write_loop k b os p nn = (b', os', p', nn') ->
  room os' + length (written (b_wr b) os') = room os + length (written (b_wr b) os)
  /\ b_wr b' = b_wr b /\ b_size b' = b_size b.
Proof.
  revert b os p nn. induction k as [|k IH]; intros b os p nn; simpl.
  { by intros [= <- <- <- <-]. }
  destruct ((bufio_Available b <? length p) && bool_decide (b_err b = None)).
  2:{ by intros [= <- <- <- <-]. }
  destruct (bufio_Buffered b =? 0).
  - destruct (file_Write (b_wr b) p os) as [[os1 n] e] eqn:Hw.
    apply file_Write_conserves in Hw.
    intros Hl. apply IH in Hl as (Hc & Hwr & Hsz). simpl in *.
    split_and!; try done. lia.
  - destruct (bufio_Flush _ os) as [[b2 os1] e] eqn:Hf.
    pose proof (bufio_Flush_conserves _ _ _ _ _ Hf) as Hc1.
    destruct (bufio_Flush_frame _ _ _ _ _ Hf) as (_ & _ & _ & Hsz1 & Hwr1 & _).
    simpl in *.
    intros Hl. apply IH in Hl as (Hc & Hwr & Hsz). rewrite Hwr1 in *.
    split_and!; congruence.
Qed.

Lemma bufio_Write_conserves b p os b' os' nn e :
  bufio_Write b p os = (b', os', nn, e) ->
  room os' + length (written (b_wr b) os') = room os + length (written (b_wr b) os)
  /\ b_wr b' = b_wr b /\ b_size b' = b_size b.
Proof.
  unfold bufio_Write.
  destruct (bufio_Write_loop 3 b os p 0) as [[[b1 os1] p1] n1] eqn:Hl.
  apply bufio_Write_loop_conserves in Hl.
  destruct (b_err b1); intros [= <- <- <- <-]; exact Hl.
Qed.

(** [Write] on a device with room for the bytes and for [k] more: the
    room for the [k] more is still there afterwards. *)
Lemma bufio_Write_slack b p os k :
  b_err b = None -> length (b_buf b) <= b_size b ->
  healthy (b_wr b) (length (b_buf b) + length p + k) os ->
  exists b' os',
    bufio_Write b p os = (b', os', length p, None)
    /\ b_err b' = None /\ b_size b' = b_size b /\ b_wr b' = b_wr b
    /\ length (b_buf b') <= b_size b
    /\ handles os' = handles os /\ synced os' = synced os
    /\ written (b_wr b) os' ++ b_buf b' = written (b_wr b) os ++ b_buf b ++ p
    /\ (forall fd', fd' <> b_wr b -> written fd' os' = written fd' os)
    /\ healthy (b_wr b) (length (b_buf b') + k) os'.
Proof.
  intros He Hwf [Ho Hr].
  destruct (bufio_Write_healthy b p os He Hwf)
    as (b' & os' & Hw & E1 & E2 & E3 & E4 & E5 & E6 & E7 & E8 & E9 & [Ho' _] & _).
  { split; [done|lia]. }
  exists b', os'. split; [exact Hw|]. split_and!; try done.
  destruct (bufio_Write_conserves _ _ _ _ _ _ _ Hw) as (Hc & _).
  split; [done|].
  apply (f_equal length) in E8. rewrite !length_app in E8. lia.
Qed.

(** [Write], whatever the state of the device: it syncs nothing, writes
    to no file but the buffer's, and leaves no more in the buffer than the
    buffer's size. *)
Lemma bufio_Write_loop_frame k b os p nn b' os' p' nn' :
  bufio_Write_loop k b os p nn = (b', os', p', nn') ->
  synced os' = synced os
  /\ wlog os `prefix_of` wlog os'
  /\ (forall fd', fd' <> b_wr b -> written fd' os' = written fd' os)
  /\ (length (b_buf b) <= b_size b -> length (b_buf b') <= b_size b).
Proof.
  revert b os p nn. induction k as [|k IH]; intros b os p nn; simpl.
  { by intros [= <- <- <- <-]. }
  destruct ((bufio_Available b <? length p) && bool_decide (b_err b = None)) eqn:Hc.
  2:{ by intros [= <- <- <- <-]. }
  apply andb_true_iff in Hc as [Hlt _]. apply Nat.ltb_lt in Hlt.
  unfold bufio_Available in *.
  destruct (bufio_Buffered b =? 0).
  - destruct (file_Write (b_wr b) p os) as [[os1 n] e] eqn:Hw.
    pose proof (file_Write_prefix _ _ _ _ _ _ Hw) as Hpre.
    destruct (file_Write_frame _ _ _ _ _ _ Hw) as (_ & Hsy & _ & _ & _ & Hoth & _).
    intros Hl. apply IH in Hl as (Hsy1 & Hpre1 & Hoth1 & Hcap). simpl in *.
    split_and!; try done; try congruence.
    + by etrans.
    + intros fd' Hne. by rewrite Hoth1, Hoth.
  - destruct (bufio_Flush _ os) as [[b2 os1] e] eqn:Hf.
    pose proof (bufio_Flush_prefix _ _ _ _ _ Hf) as Hpre.
    destruct (bufio_Flush_frame _ _ _ _ _ Hf)
      as (_ & Hsy & _ & Hsz & Hwr & _ & Hoth & _ & _ & Hlen & _).
    simpl in *.
    intros Hl. apply IH in Hl as (Hsy1 & Hpre1 & Hoth1 & Hcap).
    rewrite Hwr, Hsz in *.
    split_and!; try done; try congruence.
    + by etrans.
    + intros fd' Hne. by rewrite Hoth1, Hoth.
    + intros Hwf. apply Hcap. rewrite length_app, length_take in Hlen. lia.
Qed.

Lemma bufio_Write_frame b p os b' os' nn e :
  bufio_Write b p os = (b', os', nn, e) ->
  synced os' = synced os
  /\ wlog os `prefix_of` wlog os'
  /\ (forall fd', fd' <> b_wr b -> written fd' os' = written fd' os)
  /\ (length (b_buf b) <= b_size b -> length (b_buf b') <= b_size b)
  /\ b_err b' = e.
Proof.
  unfold bufio_Write.
  destruct (bufio_Write_loop 3 b os p 0) as [[[b1 os1] p1] n1] eqn:Hl.
  destruct (bufio_Write_loop_conserves _ _ _ _ _ _ _ _ _ Hl) as (_ & _ & Hsz).
  destruct (bufio_Write_loop_frame _ _ _ _ _ _ _ _ _ Hl) as (Hsy & Hpre & Hoth & Hcap).
  destruct (b_err b1) eqn:He; intros [= <- <- <- <-]; split_and!; try done.
  simpl. intros Hwf. specialize (Hcap Hwf).
  unfold bufio_Available. rewrite length_app, length_take. lia.
Qed.


Section proofs.
Context {R Mutex : Type}.
Context `{!Locker Mutex, !HandlerDeps R}.

Abbreviation FileHandler := (FileHandler R Mutex).
Abbreviation BufferedHandler := (BufferedHandler R Mutex).

(** *** A run of [Handle] on the file handler *)

(** A buffering file handler in working order, on a device with room for
    what it has buffered and for [k] bytes more: the lock can be taken,
    the buffer (the one it has, or the one [Handle] will make) has no
    pending error, holds no more than its size and writes to the
    handler's file, which is open. *)
Definition file_ready (h : FileHandler) (os : OS) (k : nat) : Prop :=
  NoBuffer h = false
  /\ is_Some (lw_Lock (fh_lockWrapper h))
  /\ b_err (file_buffer h) = None
  /\ length (b_buf (file_buffer h)) <= b_size (file_buffer h)
  /\ b_wr (file_buffer h) = file h
  /\ healthy (file h) (length (b_buf (file_buffer h)) + k) os.

Lemma formatted_cons_ok (f : Formatter R) r rs bts :
  f r = inl bts -> formatted f (r :: rs) = bts ++ formatted f rs.
Proof. unfold formatted. simpl. by intros ->. Qed.

Lemma formatted_cons_err (f : Formatter R) r rs e :
  f r = inr e -> formatted f (r :: rs) = formatted f rs.
Proof. unfold formatted. simpl. by intros ->. Qed.

(** One [Handle] of a record the formatter accepts. *)
Lemma FileHandler_Handle_ready (h : FileHandler) r bts os k :
  get_Formatter (fh_LevelsWithFormatter h) r = inl bts ->
  file_ready h os (length bts + k) ->
  exists h' os',
    FileHandler_Handle h r os = Returns (h', os', None)
    /\ file_ready h' os' k
    /\ file h' = file h
    /\ fh_LevelsWithFormatter h' = fh_LevelsWithFormatter h
    /\ synced os' = synced os
    /\ written (file h) os' ++ b_buf (file_buffer h')
       = written (file h) os ++ b_buf (file_buffer h) ++ bts
    /\ (forall fd', fd' <> file h -> written fd' os' = written fd' os).
Proof.
  intros Hfmt (Hnb & [m1 Hl] & He & Hwf & Hwr & Hh).
  unfold FileHandler_Handle, Lock. rewrite Hfmt, Hl, Hnb. simpl.
  fold (file_buffer h). set (b := file_buffer h) in *.
  destruct (bufio_Write_slack b bts os k He Hwf)
    as (b1 & os1 & Hw & E1 & E2 & E3 & E4 & E5 & E6 & E7 & E8 & E9).
  { rewrite Hwr. replace (length (b_buf b) + length bts + k)
      with (length (b_buf b) + (length bts + k)) by lia. exact Hh. }
  rewrite Hw. eexists _, _. split; [reflexivity|].
  rewrite Hwr in *. unfold file_ready, file_buffer. simpl.
  split_and!; try done; try lia; try congruence.
  by eapply lw_relock.
Qed.

(** [Flush] of a handler in working order. *)
Lemma FileHandler_Flush_ready (h : FileHandler) os :
  file_ready h os 0 ->
  exists h' os',
    FileHandler_Flush h os = (h', os', None)
    /\ written (file h) os' = written (file h) os ++ b_buf (file_buffer h)
    /\ (forall fd', fd' <> file h -> written fd' os' = written fd' os)
    /\ synced os' = synced os ++ [file h]
    /\ handles os' = handles os
    /\ b_buf (file_buffer h') = []
    /\ file h' = file h.
Proof.
  intros (Hnb & _ & He & Hwf & Hwr & [Ho Hr]).
  destruct (FileHandler_Flush h os) as [[h' os'] e] eqn:Hf.
  pose proof Hf as Hf'. revert Hf'.
  unfold FileHandler_Flush, file_buffer in *.
  destruct (bufio h) as [b|] eqn:Hb.
  - destruct (bufio_Flush b os) as [[b1 os1] eb] eqn:Hbf.
    destruct (bufio_Flush_frame _ _ _ _ _ Hbf)
      as (Hh & Hsy & _ & _ & _ & Hstream & Hoth & Herr & Hnone & _).
    assert (eb = None) as ->.
    { revert Hbf. unfold bufio_Flush. rewrite He.
      destruct (length (b_buf b) =? 0); [by intros [= <- <- <-]|].
      rewrite file_Write_ok.
      2:{ rewrite Hwr. split; [done|lia]. }
      rewrite Nat.ltb_irrefl. by intros [= <- <- <-]. }
    destruct (Hnone eq_refl) as [Hnil _].
    unfold file_Sync. unfold is_open in Ho. rewrite Hh.
    destruct (handles os !! file h) as [hd|]; [|discriminate]. rewrite Ho.
    intros [= <- <- <-]. eexists _, _. split; [reflexivity|]. simpl.
    rewrite Hnil, app_nil_r, Hwr in Hstream. rewrite Hwr in Hoth.
    split_and!; try done; try (by rewrite Hsy);
      try (rewrite <- Hstream; by apply written_same_log).
  - unfold file_Sync. unfold is_open in Ho.
    destruct (handles os !! file h) as [hd|]; [|discriminate]. rewrite Ho.
    intros [= <- <- <-]. eexists _, _. split; [reflexivity|]. simpl.
    rewrite Hb. simpl. split_and!; try done.
    rewrite app_nil_r. by apply written_same_log.
Qed.

Lemma FileHandler_Handle_each_ready (rs : list R) (h : FileHandler) os k :
  file_ready h os (length (formatted (get_Formatter (fh_LevelsWithFormatter h)) rs) + k) ->
  exists h' os',
    FileHandler_Handle_each rs (h, os)
    = Returns (h', os', format_errors (get_Formatter (fh_LevelsWithFormatter h)) rs)
    /\ file_ready h' os' k
    /\ file h' = file h
    /\ synced os' = synced os
    /\ written (file h) os' ++ b_buf (file_buffer h')
       = written (file h) os ++ b_buf (file_buffer h)
         ++ formatted (get_Formatter (fh_LevelsWithFormatter h)) rs
    /\ (forall fd', fd' <> file h -> written fd' os' = written fd' os).
Proof.
  revert h os. induction rs as [|r rs IH]; intros h os Hready.
  { exists h, os. simpl. split_and!; try done. by rewrite !app_nil_r. }
  set (f := get_Formatter (fh_LevelsWithFormatter h)) in *.
  destruct (f r) as [bts|x] eqn:Hfmt.
  - rewrite (formatted_cons_ok f r rs bts Hfmt), length_app in Hready.
    destruct (FileHandler_Handle_ready h r bts os
                (length (formatted f rs) + k) Hfmt)
      as (h1 & os1 & Hh & Hready1 & Hfile & Hlwf & Hsy & Hstream & Hoth).
    { by rewrite Nat.add_assoc. }
    destruct (IH h1 os1) as (h2 & os2 & Hrun & Hready2 & Hfile2 & Hsy2 & Hstream2 & Hoth2).
    { by rewrite Hlwf. }
    exists h2, os2. cbn [FileHandler_Handle_each fst snd]. rewrite Hh. simpl.
    rewrite Hrun. simpl. rewrite Hlwf. fold f. rewrite Hfmt.
    rewrite Hfile in *. rewrite Hlwf in Hstream2. fold f in Hstream2.
    split_and!; try done; try congruence.
    + rewrite Hstream2. rewrite (formatted_cons_ok f r rs bts Hfmt).
      rewrite !app_assoc. f_equal. rewrite <- app_assoc. exact Hstream.
    + intros fd' Hne. by rewrite Hoth2, Hoth.
  - rewrite (formatted_cons_err f r rs x Hfmt) in Hready.
    destruct (IH h os Hready) as (h2 & os2 & Hrun & Hready2 & Hfile2 & Hsy2 & Hstream2 & Hoth2).
    exists h2, os2. cbn [FileHandler_Handle_each fst snd].
    unfold FileHandler_Handle at 1. fold f. rewrite Hfmt. simpl.
    rewrite Hrun. simpl. fold f. rewrite Hfmt.
    rewrite (formatted_cons_err f r rs x Hfmt). done.
Qed.

(** No record is lost and none overtakes another: after [Handle] for each
    record of a run and one [Flush], the file holds what it held, then what
    the handler had buffered, then the bytes of every record the formatter
    accepted, in the order of the calls.  Each [Handle] returns nil, or the
    formatter's error for a record it refused, which is skipped; no other
    file is written to, and [Flush] is the only call to sync the file. *)
Theorem FileHandler_delivers_in_order (rs : list R) (h : FileHandler) (os : OS) :
  let f := get_Formatter (fh_LevelsWithFormatter h) in
  file_ready h os (length (formatted f rs)) ->
  exists h1 os1 h2 os2,
    FileHandler_Handle_each rs (h, os) = Returns (h1, os1, format_errors f rs)
    /\ FileHandler_Flush h1 os1 = (h2, os2, None)
    /\ written (file h) os2
       = written (file h) os ++ b_buf (file_buffer h) ++ formatted f rs
    /\ (forall fd', fd' <> file h -> written fd' os2 = written fd' os)
    /\ synced os2 = synced os ++ [file h]
    /\ b_buf (file_buffer h2) = [].
Proof.
  intros f Hready.
  destruct (FileHandler_Handle_each_ready rs h os 0)
    as (h1 & os1 & Hrun & Hready1 & Hfile & Hsy & Hstream & Hoth).
  { by rewrite Nat.add_0_r. }
  destruct (FileHandler_Flush_ready h1 os1 Hready1)
    as (h2 & os2 & Hf & Hw & Hoth2 & Hsy2 & _ & Hnil & _).
  exists h1, os1, h2, os2. rewrite Hfile in *.
  split_and!; try done.
  - by rewrite Hw, Hstream.
  - intros fd' Hne. by rewrite Hoth2, Hoth.
  - by rewrite Hsy2, Hsy.
Qed.

(** *** Writing without a buffer *)

Lemma NoBuffer_Handle_each (rs : list R) (h : FileHandler) os :
  NoBuffer h = true -> is_Some (lw_Lock (fh_lockWrapper h)) ->
  healthy (file h) (length (formatted (get_Formatter (fh_LevelsWithFormatter h)) rs)) os ->
  exists h1 os1,
    FileHandler_Handle_each rs (h, os)
    = Returns (h1, os1, format_errors (get_Formatter (fh_LevelsWithFormatter h)) rs)
    /\ written (file h) os1
       = written (file h) os ++ formatted (get_Formatter (fh_LevelsWithFormatter h)) rs
    /\ (forall fd', fd' <> file h -> written fd' os1 = written fd' os)
    /\ bufio h1 = bufio h /\ synced os1 = synced os.
Proof.
  revert h os. induction rs as [|r rs IH]; intros h os Hnb [m1 Hl] Hh.
  { exists h, os. simpl. split_and!; try done. by rewrite app_nil_r. }
  set (f := get_Formatter (fh_LevelsWithFormatter h)) in *.
  cbn [FileHandler_Handle_each fst snd]. unfold FileHandler_Handle, Lock. fold f.
  destruct (f r) as [bts|x] eqn:Hfmt.
  - rewrite (formatted_cons_ok f r rs bts Hfmt), length_app in Hh.
    rewrite Hl, Hnb. simpl. rewrite file_Write_ok.
    2:{ destruct Hh as [Ho Hr]. split; [done|lia]. }
    set (h1 := set_fh_lock (lw_Unlock m1) h).
    set (os1 := mkOS _ _ _ _ _).
    destruct (IH h1 os1) as (h2 & os2 & Hrun & Hw & Hoth & Hb & Hsy); try done.
    { by eapply lw_relock. }
    { subst os1. simpl. apply healthy_log.
      by rewrite (Nat.add_comm (length (formatted f rs))). }
    simpl. rewrite Hrun. simpl. exists h2, os2. fold f. rewrite Hfmt.
    split; [reflexivity|]. simpl in Hw, Hoth. fold f in Hw.
    split_and!; try done.
    + rewrite Hw. subst os1. rewrite written_log, decide_True by done.
      by rewrite (formatted_cons_ok f r rs bts Hfmt), app_assoc.
    + intros fd' Hne. rewrite (Hoth fd' Hne). subst os1.
      rewrite written_log, decide_False by done. by rewrite app_nil_r.
  - rewrite (formatted_cons_err f r rs x Hfmt) in Hh. simpl.
    destruct (IH h os Hnb (ex_intro _ m1 Hl) Hh) as (h2 & os2 & Hrun & Hw & Hoth & Hb & Hsy).
    rewrite Hrun. simpl. exists h2, os2. fold f. rewrite Hfmt.
    rewrite (formatted_cons_err f r rs x Hfmt). done.
Qed.

(** With [NoBuffer] set, [Handle] writes the record to the file before it
    returns and never makes or uses a buffer, and no call syncs: after a
    run of [Handle] the file holds what it held and then the bytes of
    every accepted record, in order.  On a device too full for a record,
    [Handle] returns the error of the write, and the part of the record
    that did fit is in the file. *)
Theorem NoBuffer_writes_through (rs : list R) (h : FileHandler) (os : OS) :
  let f := get_Formatter (fh_LevelsWithFormatter h) in
  NoBuffer h = true -> is_Some (lw_Lock (fh_lockWrapper h)) ->
  is_open (file h) os = true ->
  (length (formatted f rs) <= room os ->
   exists h1 os1,
     FileHandler_Handle_each rs (h, os) = Returns (h1, os1, format_errors f rs)
     /\ written (file h) os1 = written (file h) os ++ formatted f rs
     /\ (forall fd', fd' <> file h -> written fd' os1 = written fd' os)
     /\ bufio h1 = bufio h /\ synced os1 = synced os)
  /\ (forall r bts, f r = inl bts -> room os < length bts ->
      exists h1 os1,
        FileHandler_Handle h r os = Returns (h1, os1, Some ErrNoSpace)
        /\ written (file h) os1 = written (file h) os ++ take (room os) bts
        /\ room os1 = 0 /\ bufio h1 = bufio h).
Proof.
  intros f Hnb Hl Ho. split.
  - intros Hr. by apply NoBuffer_Handle_each.
  - intros r bts Hfmt Hlt. destruct Hl as [m1 Hl].
    unfold FileHandler_Handle, Lock. fold f. rewrite Hfmt, Hl, Hnb. simpl.
    unfold file_Write. unfold is_open in Ho.
    destruct (handles os !! file h) as [hd|]; [|discriminate]. rewrite Ho.
    rewrite (proj2 (Nat.leb_gt _ _)) by lia.
    eexists _, _. split; [reflexivity|]. simpl. split_and!; try done.
    by rewrite written_log, decide_True.
Qed.

(** *** A buffer that has failed *)

(** The handler's buffer holds an error from an earlier write. *)
Definition buffer_failed (h : FileHandler) (b : bufioWriter) (x : error) : Prop :=
  NoBuffer h = false /\ bufio h = Some b /\ b_err b = Some x
  /\ is_Some (lw_Lock (fh_lockWrapper h)).




(** *** The buffer after [ReopenFile] *)

(** The handler's buffer writes to [old], which is not the handler's file. *)
Definition buffer_on_old (h : FileHandler) (old : nat) : Prop :=
  NoBuffer h = false /\ (exists b, bufio h = Some b /\ b_wr b = old)
  /\ old <> file h /\ is_Some (lw_Lock (fh_lockWrapper h)).

Lemma old_buffer_step (o : op R) (h : FileHandler) old os :
  o <> OpReopenFile -> buffer_on_old h old ->
  exists h' os',
    step o (h, os) = Returns (h', os')
    /\ buffer_on_old h' old /\ file h' = file h
    /\ written (file h) os' = written (file h) os.
Proof.
  intros Ho (Hnb & (b & Hb & Hwr) & Hne & [m1 Hl]).
  assert (Hflush : exists h' os' e,
             FileHandler_Flush h os = (h', os', e)
             /\ buffer_on_old h' old /\ file h' = file h
             /\ written (file h) os' = written (file h) os).
  { unfold FileHandler_Flush. rewrite Hb.
    destruct (bufio_Flush b os) as [[b1 os1] eb] eqn:Hf.
    destruct (bufio_Flush_frame _ _ _ _ _ Hf)
      as (_ & _ & _ & _ & Hwr1 & _ & Hoth & _).
    assert (Hold : buffer_on_old (set_bufio (Some b1) h) old).
    { unfold buffer_on_old. simpl. split_and!; try done.
      exists b1. split; [done|congruence]. }
    destruct eb as [x|].
    - eexists _, _, _. split; [reflexivity|]. split_and!; try done.
      apply Hoth. congruence.
    - destruct (file_Sync (file h) os1) as [os2 r] eqn:Hsy.
      destruct (file_Sync_frame _ _ _ _ Hsy) as (_ & Hw2 & _).
      eexists _, _, _. split; [reflexivity|]. split_and!; try done.
      rewrite (written_same_log _ os1 os2) by done. apply Hoth. congruence. }
  destruct o as [r| | |]; simpl; [| | |done].
  - unfold FileHandler_Handle, Lock.
    destruct (get_Formatter _ r) as [bts|y].
    + rewrite Hl, Hnb, Hb. simpl.
      destruct (bufio_Write b bts os) as [[[b1 os1] n] e] eqn:Hw.
      destruct (bufio_Write_conserves _ _ _ _ _ _ _ Hw) as (_ & Hwr1 & _).
      destruct (bufio_Write_frame _ _ _ _ _ _ _ Hw) as (_ & _ & Hoth & _).
      eexists _, _. split; [reflexivity|]. simpl. split_and!; try done.
      * unfold buffer_on_old. simpl. split_and!; try done.
        -- exists b1. split; [done|congruence].
        -- by eapply lw_relock.
      * apply Hoth. congruence.
    + simpl. eexists _, _. split; [reflexivity|]. split_and!; try done.
      unfold buffer_on_old. split_and!; try done. by exists b.
  - destruct Hflush as (h' & os' & e & -> & Hold & Hfile & Hw).
    eexists _, _. split; [reflexivity|]. done.
  - destruct Hflush as (h' & os' & e & Hf & Hold & Hfile & Hw).
    unfold FileHandler_Close. rewrite Hf. destruct e as [x|].
    + eexists _, _. split; [reflexivity|]. done.
    + destruct (file_Close (file h') os') as [os2 r] eqn:Hc.
      destruct (file_Close_frame _ _ _ _ Hc) as (Hw2 & _).
      eexists _, _. split; [reflexivity|]. split_and!; try done.
      by rewrite (written_same_log _ os' os2).
Qed.

(** [ReopenFile] gives the handler a new file and leaves it the buffer it
    had, which writes to the file it was made for: of what is handled,
    flushed or closed after a [ReopenFile] nothing is written to the
    reopened file. *)
Theorem ReopenFile_keeps_old_buffer (ops : list (op R)) (h : FileHandler)
    (b : bufioWriter) (os : OS) (h1 : FileHandler) (os1 : OS) :
  NoBuffer h = false -> bufio h = Some b -> b_wr b < length (handles os) ->
  is_Some (lw_Lock (fh_lockWrapper h)) ->
  ReopenFile h os = (h1, os1, None) ->
  (OpReopenFile ∉ ops) ->
  file h1 = length (handles os)
  /\ is_open (file h1) os1 = true
  /\ bufio h1 = Some b
  /\ exists h' os' b',
      run ops (h1, os1) = Returns (h', os')
      /\ file h' = file h1
      /\ bufio h' = Some b' /\ b_wr b' = b_wr b
      /\ written (file h1) os' = written (file h1) os1.
Proof.
  intros Hnb Hb Hlt Hl Hre Hops.
  unfold ReopenFile in Hre.
  destruct (openFile (fpath h) os) as [os2 [fd|y]] eqn:Ho; [|discriminate].
  pose proof (openFile_spec _ _ _ _ Ho) as [-> ->].
  injection Hre as <- <-. simpl.
  split; [reflexivity|]. split; [apply is_open_new|]. split; [exact Hb|].
  set (h1 := set_file (length (handles os)) h).
  set (os1 := mkOS _ _ _ _ _).
  assert (Hold : buffer_on_old h1 (b_wr b)).
  { unfold buffer_on_old. simpl. split_and!; try done; [by exists b | lia]. }
  change (length (handles os)) with (file h1).
  clearbody h1 os1. clear Ho Hb Hnb Hl Hlt.
  revert h1 os1 Hold. induction ops as [|o ops IH]; intros h1 os1 Hold.
  - pose proof Hold as (_ & (b' & Hb' & Hwr') & _).
    exists h1, os1, b'. done.
  - apply not_elem_of_cons in Hops as [Hne Hops].
    destruct (old_buffer_step o h1 (b_wr b) os1) as (h2 & os2 & Hstep & Hold2 & Hfile & Hw);
      [done|done|].
    destruct (IH Hops h2 os2 Hold2) as (h' & os' & b' & Hrun & Hfile' & Hb' & Hwr' & Hw').
    exists h', os', b'. cbn [run]. rewrite Hstep. simpl.
    split; [exact Hrun|]. rewrite Hfile in *. split_and!; try done. congruence.
Qed.

(** *** After [Close] *)

Lemma closed_Sync fd os hd :
  handles os !! fd = Some hd -> h_open hd = false ->
  file_Sync fd os = (os, Some ErrClosed)
  /\ file_Close fd os = (os, Some ErrClosed)
  /\ forall p, file_Write fd p os = (os, 0, Some ErrClosed).
Proof.
  intros Hfd Hcl. unfold file_Sync, file_Close, file_Write. by rewrite Hfd, Hcl.
Qed.

(** A handler that [Close] has closed: [Flush] and [Close] return
    os.ErrClosed and change nothing.  For a record the formatter accepts
    and a lock that is free, [Handle] returns that error when the handler
    writes without a buffer.  With buffering, when the buffer writes to
    the handler's file (no [ReopenFile] has replaced the file since the
    buffer was made) and the record is not empty and fits in the buffer,
    [Handle] takes the record and returns nil, although the record cannot
    reach the file: the next [Flush] fails on the closed file and leaves
    the error in the buffer. *)
Theorem Handle_after_Close (h : FileHandler) (os : OS) (h1 : FileHandler) (os1 : OS)
    (r : R) (bts : list byte) :
  FileHandler_Close h os = (h1, os1, None) ->
  is_Some (lw_Lock (fh_lockWrapper h)) ->
  get_Formatter (fh_LevelsWithFormatter h) r = inl bts ->
  is_open (file h) os1 = false
  /\ FileHandler_Flush h1 os1 = (h1, os1, Some ErrClosed)
  /\ FileHandler_Close h1 os1 = (h1, os1, Some ErrClosed)
  /\ (NoBuffer h = true ->
      exists h2, FileHandler_Handle h1 r os1 = Returns (h2, os1, Some ErrClosed))
  /\ (NoBuffer h = false -> bts <> [] -> b_wr (file_buffer h) = file h ->
      length bts <= b_size (file_buffer h) ->
      exists h2 h3 b3,
        FileHandler_Handle h1 r os1 = Returns (h2, os1, None)
        /\ FileHandler_Flush h2 os1 = (h3, os1, Some ErrClosed)
        /\ buffer_failed h3 b3 ErrClosed /\ b_buf b3 = bts).
Proof.
  intros Hclose [m1 Hl] Hfmt. unfold FileHandler_Close in Hclose.
  destruct (FileHandler_Flush h os) as [[h0 os0] e0] eqn:Hf.
  destruct e0 as [x|]; [discriminate|].
  destruct (FileHandler_Flush_frame _ _ _ _ _ Hf)
    as (Hh & _ & _ & Hfile & _ & Hnb0 & Hsz0 & Hlk0 & Hlwf0 & Hnobuf & Hnone).
  destruct (Hnone eq_refl) as [Hopen Hbuf].
  unfold FileHandler_Flush in Hf.
  destruct (file_Close (file h0) os0) as [os2 r2] eqn:Hc.
  injection Hclose as -> -> ->.
  rewrite Hfile in Hc.
  assert (Hclosed : exists hd, handles os1 !! file h = Some hd /\ h_open hd = false).
  { unfold file_Close in Hc. destruct (handles os0 !! file h) as [hd|] eqn:Hfd;
      [|discriminate].
    destruct (h_open hd); [|discriminate]. injection Hc as <-. simpl.
    eexists. split; [apply list_lookup_insert_eq; by eapply lookup_lt_Some|].
    reflexivity. }
  destruct Hclosed as (hd & Hfd & Hcl).
  destruct (closed_Sync (file h) os1 hd Hfd Hcl) as (Hsync & Hcls & Hwrite).
  (* the buffer of the closed handler is empty and has no error *)
  assert (Hempty : b_err (file_buffer h1) = None /\ b_buf (file_buffer h1) = []
                   /\ b_size (file_buffer h1) = b_size (file_buffer h)
                   /\ b_wr (file_buffer h1) = b_wr (file_buffer h)).
  { unfold file_buffer. destruct (bufio h) as [b|] eqn:Hb.
    - destruct (Hbuf b eq_refl) as (_ & -> & _). done.
    - destruct (Hnobuf eq_refl) as (-> & _). rewrite Hb. done. }
  destruct Hempty as (He1 & Hb1 & Hs1 & Hw1).
  assert (Hflush1 : FileHandler_Flush h1 os1 = (h1, os1, Some ErrClosed)).
  { unfold FileHandler_Flush. unfold file_buffer in He1, Hb1.
    destruct (bufio h1) as [b1|] eqn:Hbb.
    - unfold bufio_Flush. rewrite He1, Hb1. simpl. rewrite Hfile, Hsync.
      f_equal. f_equal. destruct h1. simpl in *. by subst.
    - by rewrite Hfile, Hsync. }
  split_and!.
  - unfold is_open. by rewrite Hfd, Hcl.
  - exact Hflush1.
  - unfold FileHandler_Close. by rewrite Hflush1.
  - intros Hnb. unfold FileHandler_Handle, Lock.
    rewrite Hlwf0, Hfmt, Hlk0, Hl, Hnb0, Hnb. simpl. rewrite Hfile, Hwrite.
    by eexists.
  - intros Hnb Hne Hwr Hfit. unfold FileHandler_Handle, Lock.
    rewrite Hlwf0, Hfmt, Hlk0, Hl, Hnb0, Hnb. simpl. fold (file_buffer h1).
    rewrite bufio_Write_fits.
    2:{ exact He1. }
    2:{ unfold bufio_Available. rewrite Hb1, Hs1. simpl. lia. }
    eexists _, _, _. split; [reflexivity|].
    unfold FileHandler_Flush, bufio_Flush. simpl. rewrite Hb1. simpl.
    destruct (length bts =? 0) eqn:Hz.
    { apply Nat.eqb_eq, nil_length_inv in Hz. contradiction. }
    rewrite Hw1, Hwr, Hwrite. simpl.
    split; [reflexivity|]. unfold buffer_failed. simpl.
    split; [split; [congruence|]; split; [reflexivity|]; split; [reflexivity|];
            by eapply lw_relock|].
    reflexivity.
Qed.

(** *** The buffer and its size *)

(** The handler's buffer, when it has one, holds no more than its size. *)
Definition within_size (h : FileHandler) : Prop :=
  forall b, bufio h = Some b -> length (b_buf b) <= b_size b.

Lemma within_size_step (o : op R) (h : FileHandler) os :
  within_size h -> is_Some (lw_Lock (fh_lockWrapper h)) ->
  exists h' os',
    step o (h, os) = Returns (h', os')
    /\ within_size h' /\ is_Some (lw_Lock (fh_lockWrapper h'))
    /\ wlog os `prefix_of` wlog os'
    /\ (forall b, bufio h = Some b ->
        exists b', bufio h' = Some b' /\ b_size b' = b_size b /\ b_wr b' = b_wr b).
Proof.
  intros Hin [m1 Hl].
  assert (Hflush : exists h' os' e,
             FileHandler_Flush h os = (h', os', e)
             /\ within_size h' /\ is_Some (lw_Lock (fh_lockWrapper h'))
             /\ wlog os `prefix_of` wlog os' /\ file h' = file h
             /\ (forall b, bufio h = Some b ->
                 exists b', bufio h' = Some b' /\ b_size b' = b_size b
                            /\ b_wr b' = b_wr b)).
  { destruct (FileHandler_Flush h os) as [[h' os'] e] eqn:Hf.
    destruct (FileHandler_Flush_frame _ _ _ _ _ Hf)
      as (_ & _ & Hpre & Hfile & _ & _ & _ & Hlk & _).
    exists h', os', e. split; [reflexivity|].
    revert Hf. unfold FileHandler_Flush, within_size in *.
    destruct (bufio h) as [b|] eqn:Hb.
    - destruct (bufio_Flush b os) as [[b1 os1] eb] eqn:Hbf.
      destruct (bufio_Flush_frame _ _ _ _ _ Hbf)
        as (_ & _ & _ & Hsz & Hwr & _ & _ & _ & _ & Hlen & _).
      specialize (Hin b eq_refl).
      assert (Hgoal : forall hx : FileHandler, hx = set_bufio (Some b1) h ->
                 (forall b0, bufio hx = Some b0 -> length (b_buf b0) <= b_size b0)
                 /\ forall b0, Some b = Some b0 ->
                      exists b', bufio hx = Some b' /\ b_size b' = b_size b0
                                 /\ b_wr b' = b_wr b0).
      { intros hx ->. simpl. split.
        - intros b0 [= <-]. lia.
        - intros b0 [= <-]. by exists b1. }
      destruct eb as [x|].
      + intros [= <- <- <-]. destruct (Hgoal _ eq_refl) as [G1 G2].
        split_and!; try done; try (rewrite Hlk; by exists m1).
      + destruct (file_Sync (file h) os1) as [os2 r2].
        intros [= <- <- <-]. destruct (Hgoal _ eq_refl) as [G1 G2].
        split_and!; try done; try (rewrite Hlk; by exists m1).
    - destruct (file_Sync (file h) os) as [os2 r2].
      intros [= <- <- <-]. rewrite Hb. split_and!; try done; try by exists m1. }
  assert (Hsame : forall b, bufio h = Some b ->
             exists b', bufio h = Some b' /\ b_size b' = b_size b /\ b_wr b' = b_wr b).
  { intros b Hb. by exists b. }
  assert (Hlock : is_Some (lw_Lock (fh_lockWrapper h))) by by exists m1.
  pose proof (lw_relock _ _ Hl) as Hre.
  destruct o as [r| | |]; simpl.
  - unfold FileHandler_Handle, Lock.
    destruct (get_Formatter _ r) as [bts|y].
    + rewrite Hl. simpl. destruct (NoBuffer h).
      * destruct (file_Write (file h) bts os) as [[os1 n] e] eqn:Hw.
        pose proof (file_Write_prefix _ _ _ _ _ _ Hw) as Hpre.
        eexists _, _. split; [reflexivity|]. simpl. by split_and!.
      * fold (file_buffer h).
        destruct (bufio_Write (file_buffer h) bts os) as [[[b1 os1] n] e] eqn:Hw.
        destruct (bufio_Write_conserves _ _ _ _ _ _ _ Hw) as (_ & Hwr1 & Hsz1).
        destruct (bufio_Write_frame _ _ _ _ _ _ _ Hw) as (_ & Hpre & _ & Hcap & _).
        eexists _, _. split; [reflexivity|]. simpl.
        split; [|split; [done|split; [done|]]].
        -- intros b0 [= <-]. rewrite Hsz1. apply Hcap.
           unfold file_buffer. destruct (bufio h) as [b|] eqn:Hb.
           ++ by apply Hin.
           ++ simpl. lia.
        -- intros b Hb. exists b1. unfold file_buffer in *. rewrite Hb in *. done.
    + simpl. eexists _, _. split; [reflexivity|]. by split_and!.
  - destruct Hflush as (h' & os' & e & -> & H1 & H2 & H3 & _ & H4).
    eexists _, _. split; [reflexivity|]. done.
  - destruct Hflush as (h' & os' & e & Hf & H1 & H2 & H3 & _ & H4).
    unfold FileHandler_Close. rewrite Hf. destruct e as [x|].
    + eexists _, _. split; [reflexivity|]. done.
    + destruct (file_Close (file h') os') as [os2 r] eqn:Hc.
      destruct (file_Close_frame _ _ _ _ Hc) as (Hw2 & _).
      eexists _, _. split; [reflexivity|]. split; [done|]. split; [done|].
      split; [by rewrite Hw2|done].
  - unfold ReopenFile. destruct (openFile (fpath h) os) as [os1 [fd|y]] eqn:Ho;
      pose proof (openFile_spec _ _ _ _ Ho) as Hspec; simpl in Hspec.
    + destruct Hspec as [-> ->]. eexists _, _. split; [reflexivity|].
      by split_and!.
    + subst os1. eexists _, _. split; [reflexivity|]. by split_and!.
Qed.

(** Whatever the device does, a handler whose lock is free runs any
    sequence of [Handle], [Flush], [Close] and [ReopenFile] to its end (no
    call blocks or panics); its buffer never holds more than its size,
    and keeps the size and the file it was made with; and the device keeps
    every write it has taken, in order. *)
Theorem buffer_stays_within_size (ops : list (op R)) (h : FileHandler) (os : OS) :
  within_size h -> is_Some (lw_Lock (fh_lockWrapper h)) ->
  exists h' os',
    run ops (h, os) = Returns (h', os')
    /\ within_size h'
    /\ wlog os `prefix_of` wlog os'
    /\ (forall b, bufio h = Some b ->
        exists b', bufio h' = Some b' /\ b_size b' = b_size b /\ b_wr b' = b_wr b).
Proof.
  revert h os. induction ops as [|o ops IH]; intros h os Hin Hl.
  - exists h, os. split; [reflexivity|]. split_and!; try done.
    intros b Hb. by exists b.
  - destruct (within_size_step o h os Hin Hl)
      as (h1 & os1 & Hstep & Hin1 & Hl1 & Hpre1 & Hb1).
    destruct (IH h1 os1 Hin1 Hl1) as (h' & os' & Hrun & Hin' & Hpre' & Hb').
    exists h', os'. cbn [run]. rewrite Hstep. simpl.
    split; [exact Hrun|]. split_and!; try done.
    + by etrans.
    + intros b Hb. destruct (Hb1 b Hb) as (b1 & Hbb1 & Hs1 & Hw1).
      destruct (Hb' b1 Hbb1) as (b' & Hbb' & Hs' & Hw').
      exists b'. split_and!; congruence.
Qed.

(** *** A run of [Handle] on the buffered handler *)

(** [Flush] of a writer in working order, on a device with room. *)
Lemma bufio_Flush_ready b os k :
  b_err b = None -> healthy (b_wr b) (length (b_buf b) + k) os ->
  exists b' os',
    bufio_Flush b os = (b', os', None)
    /\ b_err b' = None /\ b_buf b' = []
    /\ b_size b' = b_size b /\ b_wr b' = b_wr b
    /\ written (b_wr b) os' = written (b_wr b) os ++ b_buf b
    /\ (forall fd', fd' <> b_wr b -> written fd' os' = written fd' os)
    /\ handles os' = handles os /\ synced os' = synced os
    /\ healthy (b_wr b) k os'.
Proof.
  intros He [Ho Hr]. destruct (b_buf b) as [|c cs] eqn:Hb.
  - exists b, os. unfold bufio_Flush. rewrite He, Hb. simpl.
    split; [reflexivity|]. split_and!; try done; try by rewrite app_nil_r.
  - rewrite <- Hb in *. rewrite bufio_Flush_ok; try done.
    2:{ rewrite Hb. done. }
    2:{ split; [done|lia]. }
    eexists _, _. split; [reflexivity|]. simpl.
    split_and!; try done; try (by rewrite written_log, decide_True).
    + intros fd' Hne. rewrite written_log, decide_False by done.
      by rewrite app_nil_r.
    + split; [done|]. simpl. lia.
Qed.

(** A buffered handler in working order, on a device with room for what
    it has buffered and for [k] bytes more: its buffer has no pending
    error, holds no more than its size and writes to the file of the
    wrapped file handler, which is open and has no buffer of its own. *)
Definition buffered_ready (h : BufferedHandler) (os : OS) (k : nat) : Prop :=
  b_err (buffered_buffer h) = None
  /\ length (b_buf (buffered_buffer h)) <= b_size (buffered_buffer h)
  /\ b_wr (buffered_buffer h) = file (handler h)
  /\ bufio (handler h) = None
  /\ healthy (file (handler h)) (length (b_buf (buffered_buffer h)) + k) os.

Lemma BufferedHandler_Flush_ready (h : BufferedHandler) os k :
  (forall m : Mutex, is_Some (lw_Lock m)) ->
  is_Some (buffer h) -> buffered_ready h os k ->
  exists h' os',
    BufferedHandler_Flush h os = Returns (h', os', None)
    /\ buffered_ready h' os' k /\ is_Some (buffer h')
    /\ b_buf (buffered_buffer h') = []
    /\ handler h' = handler h
    /\ bh_LevelsWithFormatter h' = bh_LevelsWithFormatter h
    /\ bh_BuffSize h' = bh_BuffSize h
    /\ b_size (buffered_buffer h') = b_size (buffered_buffer h)
    /\ written (file (handler h)) os'
       = written (file (handler h)) os ++ b_buf (buffered_buffer h)
    /\ (forall fd', fd' <> file (handler h) -> written fd' os' = written fd' os)
    /\ synced os' = synced os ++ [file (handler h)].
Proof.
  intros Hlock [b Hb] (He & Hwf & Hwr & Hinner & Hh).
  unfold buffered_buffer in *. rewrite Hb in *.
  unfold BufferedHandler_Flush, Lock.
  destruct (Hlock (bh_lockWrapper h)) as [m1 ->]. simpl. rewrite Hb.
  destruct (bufio_Flush_ready b os k He) as
    (b1 & os1 & -> & E1 & E2 & E3 & E4 & E5 & E6 & E7 & E8 & [Ho1 Hr1]).
  { by rewrite Hwr. }
  unfold FileHandler_Flush. rewrite Hinner.
  unfold file_Sync. rewrite Hwr in *. pose proof Ho1 as Ho1'. unfold is_open in Ho1'.
  destruct (handles os1 !! file (handler h)) as [hd|]; [|discriminate].
  rewrite Ho1'. eexists _, _. split; [reflexivity|].
  unfold buffered_ready, buffered_buffer. simpl.
  rewrite E1, E2, E3, E4. simpl.
  split_and!; try done; try lia; try congruence.
Qed.

(** One [Handle] of a record the formatter accepts: either the buffer was
    flushed and the file synced, or the buffer ends below BuffSize. *)
Lemma BufferedHandler_Handle_ready (h : BufferedHandler) r bts os k :
  (forall m : Mutex, is_Some (lw_Lock m)) ->
  get_Formatter (bh_LevelsWithFormatter h) r = inl bts ->
  buffered_ready h os (length bts + k) ->
  exists h' os',
    BufferedHandler_Handle h r os = Returns (h', os', None)
    /\ buffered_ready h' os' k /\ is_Some (buffer h')
    /\ handler h' = handler h
    /\ bh_LevelsWithFormatter h' = bh_LevelsWithFormatter h
    /\ bh_BuffSize h' = bh_BuffSize h
    /\ b_size (buffered_buffer h') = b_size (buffered_buffer h)
    /\ written (file (handler h)) os' ++ b_buf (buffered_buffer h')
       = written (file (handler h)) os ++ b_buf (buffered_buffer h) ++ bts
    /\ (forall fd', fd' <> file (handler h) -> written fd' os' = written fd' os)
    /\ ((b_buf (buffered_buffer h') = []
         /\ synced os' = synced os ++ [file (handler h)])
        \/ ((Z.of_nat (length (b_buf (buffered_buffer h'))) < bh_BuffSize h)%Z
            /\ synced os' = synced os)).
Proof.
  intros Hlock Hfmt (He & Hwf & Hwr & Hinner & Hh).
  unfold BufferedHandler_Handle, Lock. rewrite Hfmt.
  destruct (Hlock (bh_lockWrapper h)) as [m1 ->]. simpl.
  fold (buffered_buffer h). set (b := buffered_buffer h) in *.
  destruct (bufio_Write_slack b bts os k He Hwf)
    as (b1 & os1 & Hw & E1 & E2 & E3 & E4 & E5 & E6 & E7 & E8 & E9).
  { rewrite Hwr. replace (length (b_buf b) + length bts + k)
      with (length (b_buf b) + (length bts + k)) by lia. exact Hh. }
  rewrite Hw. rewrite Hwr in *. unfold bufio_Buffered.
  set (h1 := set_bh_lock m1 (set_buffer (Some b1) h)).
  assert (Hready1 : buffered_ready h1 os1 k).
  { unfold buffered_ready, buffered_buffer. simpl. split_and!; try done; lia. }
  destruct (bh_BuffSize h <=? Z.of_nat (length (b_buf b1)))%Z eqn:Hcmp.
  - destruct (BufferedHandler_Flush_ready h1 os1 k Hlock)
      as (h2 & os2 & -> & Hready2 & Hsome2 & Hnil2 & Hh2 & Hlwf2 & Hsz2 & Hbs2
          & Hw2 & Hoth2 & Hsy2); [by eexists | done |].
    exists (set_bh_lock (lw_Unlock (bh_lockWrapper h2)) h2), os2.
    split; [reflexivity|].
    change (buffered_buffer (set_bh_lock (lw_Unlock (bh_lockWrapper h2)) h2))
      with (buffered_buffer h2).
    split; [exact Hready2|]. split; [exact Hsome2|]. split; [exact Hh2|].
    split; [exact Hlwf2|]. split; [exact Hsz2|].
    split; [etrans; [exact Hbs2 | exact E2]|].
    split; [rewrite Hnil2, app_nil_r; etrans; [exact Hw2 | exact E7]|].
    split.
    + intros fd' Hne. etrans; [apply (Hoth2 fd' Hne) | apply (E8 fd' Hne)].
    + left. split; [done|]. etrans; [exact Hsy2|]. by rewrite E6.
  - apply Z.leb_gt in Hcmp.
    exists (set_bh_lock (lw_Unlock m1) h1), os1. split; [reflexivity|].
    change (buffered_buffer (set_bh_lock (lw_Unlock m1) h1)) with b1.
    split; [exact Hready1|]. split; [by eexists|].
    split_and!; try done. right. done.
Qed.



(** A buffered handler made with a size of 0 or less has a buffer of
    bufio's default size, 4096 bytes, which it never uses as one: the
    occupancy is never below such a BuffSize, so every [Handle] of an
    accepted record goes on to flush.  With a lock that the call holding
    it can take again, around a file handler that has no buffer of its
    own and whose file is open on a device with room for the record, that
    [Handle] has put the record on the device, emptied the buffer and
    synced the file when it returns.  (With a lock that cannot be taken
    again it never returns, see [Handle_flush_needs_reentrant_lock].) *)
Theorem nonpositive_BuffSize_flushes_every_record (h : BufferedHandler)
    (fh : FileHandler) (bufSize : Z) (r : R) (bts : list byte) (os : OS) :
  (forall m : Mutex, is_Some (lw_Lock m)) ->
  (bufSize <= 0)%Z ->
  h = NewBufferedHandler fh bufSize ->
  bufio fh = None ->
  get_Formatter (bh_LevelsWithFormatter h) r = inl bts ->
  healthy (file fh) (length bts) os ->
  b_size (buffered_buffer h) = defaultBufSize
  /\ exists h' os',
      BufferedHandler_Handle h r os = Returns (h', os', None)
      /\ b_buf (buffered_buffer h') = []
      /\ written (file fh) os' = written (file fh) os ++ bts
      /\ synced os' = synced os ++ [file fh]
      /\ bh_BuffSize h' = bufSize
      /\ buffered_ready h' os' 0.
Proof.
  intros Hlock Hle -> Hinner Hfmt Hh.
  assert (Hsz : b_size (buffered_buffer (NewBufferedHandler fh bufSize)) = defaultBufSize).
  { unfold buffered_buffer, NewBufferedHandler, bufio_NewWriterSize. simpl.
    by rewrite (proj2 (Z.leb_le _ _)) by done. }
  split; [exact Hsz|].
  destruct (BufferedHandler_Handle_ready (NewBufferedHandler fh bufSize) r bts os 0
              Hlock Hfmt)
    as (h' & os' & Hhandle & Hready & _ & _ & _ & Hbs & _ & Hstream & _ & Hcase).
  { unfold buffered_ready. rewrite Hsz. simpl. rewrite Nat.add_0_r.
    split_and!; try done. unfold defaultBufSize. lia. }
  exists h', os'. split; [exact Hhandle|]. simpl in *.
  destruct Hcase as [[Hnil Hsy]|[Hlt _]]; [|lia].
  rewrite Hnil, app_nil_r in Hstream. split_and!; done.
Qed.

(** When the occupancy reaches BuffSize, [Handle] calls [Flush] while it
    holds the handler's lock, and [Flush] takes that lock again: with a
    lock that the call holding it cannot take again, such a [Handle] never
    returns, while a [Handle] that stays below BuffSize does. *)
Theorem Handle_flush_needs_reentrant_lock (h : BufferedHandler) (r : R)
    (bts : list byte) (os : OS) (m1 : Mutex) (b1 : bufioWriter) (os1 : OS)
    (n : nat) (e : option error) :
  get_Formatter (bh_LevelsWithFormatter h) r = inl bts ->
  lw_Lock (bh_lockWrapper h) = Some m1 -> lw_Lock m1 = None ->
  bufio_Write (buffered_buffer h) bts os = (b1, os1, n, e) ->
  BufferedHandler_Handle h r os
  = if (bh_BuffSize h <=? Z.of_nat (length (b_buf b1)))%Z then Blocks
    else Returns (set_bh_lock (lw_Unlock m1) (set_buffer (Some b1) h), os1, e).
Proof.
  intros Hfmt Hl Hl2 Hw. unfold BufferedHandler_Handle, Lock.
  rewrite Hfmt, Hl. simpl. fold (buffered_buffer h). rewrite Hw.
  unfold bufio_Buffered. destruct (_ <=? _)%Z; [|reflexivity].
  unfold BufferedHandler_Flush, Lock. simpl. by rewrite Hl2.
Qed.

(** *** The constructors of the file handler *)

(** [NewFileHandler] opens one handle or none.  It succeeds exactly when
    the path is not empty and neither the path nor its directory is
    refused; the handler then has the new handle, open, as its file, no
    buffer yet, buffering switched on with a size of 256 KiB, and the JSON
    or the text formatter as asked.  When it fails no handle has been
    opened or closed and no byte written (directories that [os.MkdirAll]
    made before the failure are outside the modelled state and may
    remain).  [MustFileHandler] panics exactly when [NewFileHandler]
    fails, and [JSONFileHandler] is [NewFileHandler] with JSON. *)
Theorem NewFileHandler_opens_one_or_none (filepath : string) (json : bool) (os : OS) :
  match NewFileHandler (Mutex:=Mutex) (R:=R) filepath json os with
  | (os1, inl h) =>
      filepath <> "" /\ (filepath ∉ denied os) /\ (path_Dir filepath ∉ denied os)
      /\ handles os1 = handles os ++ [mkHandle filepath true]
      /\ wlog os1 = wlog os
      /\ file h = length (handles os) /\ is_open (file h) os1 = true
      /\ fpath h = filepath /\ bufio h = None /\ NoBuffer h = false
      /\ fh_BuffSize h = (256 * 1024)%Z
      /\ get_Formatter (fh_LevelsWithFormatter h)
         = (if json then NewJSONFormatter else NewTextFormatter)
      /\ Levels (fh_LevelsWithFormatter h) = AllLevels
      /\ MustFileHandler filepath json os = Returns (os1, h)
  | (os1, inr e) =>
      handles os1 = handles os /\ wlog os1 = wlog os
      /\ (filepath = "" \/ (filepath ∈ denied os) \/ (path_Dir filepath ∈ denied os))
      /\ (e = ErrNotExist \/ e = ErrPermission)
      /\ MustFileHandler (Mutex:=Mutex) (R:=R) filepath json os = Panics
  end
  /\ JSONFileHandler (Mutex:=Mutex) (R:=R) filepath os = NewFileHandler filepath true os.
Proof.
  split; [|reflexivity].
  unfold MustFileHandler, NewFileHandler, openFile, MkdirAll, OpenFile.
  destruct (bool_decide (path_Dir filepath ∈ denied os)) eqn:Hd.
  { apply bool_decide_eq_true in Hd. split_and!; try done; auto. }
  apply bool_decide_eq_false in Hd.
  destruct (bool_decide (filepath = "")) eqn:He.
  { apply bool_decide_eq_true in He. split_and!; try done; auto. }
  apply bool_decide_eq_false in He.
  destruct (bool_decide (filepath ∈ denied os)) eqn:Hp.
  { apply bool_decide_eq_true in Hp. split_and!; try done; auto. }
  apply bool_decide_eq_false in Hp. simpl.
  split_and!; try done.
  unfold is_open. simpl. rewrite lookup_app_r by lia. by rewrite Nat.sub_diag.
Qed.

End proofs.

(** *** Concrete runs *)

#[local] Existing Instance HandlerProofs.no_lock.
#[local] Existing Instance HandlerProofs.raw_records.

(** The lock that is switched off can always be taken. *)
Lemma no_lock_free (m : unit) : is_Some (lw_Lock m).
Proof. by exists tt. Qed.

(** A formatter that refuses the empty record. *)
Definition picky : Formatter (list byte) := fun r =>
  match r with
  | [] => inr (ErrMsg "empty record")
  | _ => inl r
  end.

(** File handlers on handle 0 with the formatter [picky]: with a buffer
    of 8 bytes, and writing without a buffer. *)
Definition fh8_picky : Handler.FileHandler (list byte) unit :=
  mkFileHandler tt (mkLWF AllLevels (Some picky)) "app.log" 0 None false false 8.

Definition fh_direct : Handler.FileHandler (list byte) unit :=
  mkFileHandler tt (mkLWF AllLevels (Some picky)) "app.log" 0 None false true 8.


(** [fh8] after a first [Handle]: it has its buffer, empty by now. *)
Definition fh8_used : Handler.FileHandler (list byte) unit :=
  set_bufio (Some (mkBufio None 8 [] 0)) fh8.

(** [os1] with room for 3 bytes only. *)
Definition os1_tight : OS := mkOS [mkHandle "app.log" true] [] 3 [] [].

Definition abcde : list byte := [x61; x62; x63; x64; x65].
Definition fghij : list byte := [x66; x67; x68; x69; x6a].

Lemma FileHandler_delivers_in_order_witness :
  file_ready fh8_picky os1 11
  /\ exists h1 os' h2 os2,
      FileHandler_Handle_each [abcde; []; fghij; [x6b]] (fh8_picky, os1)
      = Returns (h1, os', [None; Some (ErrMsg "empty record"); None; None])
      /\ FileHandler_Flush h1 os' = (h2, os2, None)
      /\ written 0 os2 = abcde ++ fghij ++ [x6b].
Proof.
  assert (Hr : file_ready fh8_picky os1 11).
  { unfold file_ready, healthy. simpl. split_and!; try done; try lia. }
  split; [exact Hr|].
  destruct (FileHandler_delivers_in_order [abcde; []; fghij; [x6b]] fh8_picky os1 Hr)
    as (h1 & os' & h2 & os2 & H1 & H2 & H3 & _).
  exists h1, os', h2, os2. split; [exact H1|]. split; [exact H2|exact H3].
Defined.

Lemma NoBuffer_writes_through_witness :
  exists h1 os',
    FileHandler_Handle fh_direct abcde os1_tight = Returns (h1, os', Some ErrNoSpace)
    /\ written 0 os' = [x61; x62; x63].
Proof.
  destruct (NoBuffer_writes_through [] fh_direct os1_tight eq_refl
              (no_lock_free _) eq_refl) as [_ H].
  destruct (H abcde abcde eq_refl) as (h1 & os' & H1 & H2 & _).
  { simpl. lia. }
  exists h1, os'. split; [exact H1|exact H2].
Defined.


Lemma ReopenFile_keeps_old_buffer_witness :
  exists h1 os2 h' os',
    ReopenFile fh8_used os1 = (h1, os2, None)
    /\ file h1 = 1
    /\ run [OpHandle abcde; OpFlush] (h1, os2) = Returns (h', os')
    /\ written 1 os' = [].
Proof.
  eassert (Hre : ReopenFile fh8_used os1 = (_, _, None)) by reflexivity.
  assert (Hlt : b_wr (mkBufio None 8 [] 0) < length (handles os1)) by (simpl; lia).
  assert (Hops : OpReopenFile ∉ [OpHandle abcde; OpFlush]).
  { intros Hin. apply elem_of_cons in Hin as [Hin|Hin]; [discriminate|].
    apply elem_of_cons in Hin as [Hin|Hin]; [discriminate|].
    by apply elem_of_nil in Hin. }
  destruct (ReopenFile_keeps_old_buffer [OpHandle abcde; OpFlush] fh8_used
              (mkBufio None 8 [] 0) os1 _ _ eq_refl eq_refl Hlt (no_lock_free _)
              Hre Hops) as (H1 & _ & _ & H2).
  destruct H2 as (h' & os' & b' & H2 & _ & _ & _ & H3).
  eexists _, _, h', os'. split; [exact Hre|]. split; [exact H1|].
  split; [exact H2|]. etrans; [exact H3|reflexivity].
Defined.

Lemma Handle_after_Close_witness :
  exists h1 os2 h2 h3,
    FileHandler_Close fh8 os1 = (h1, os2, None)
    /\ FileHandler_Handle h1 abcde os2 = Returns (h2, os2, None)
    /\ FileHandler_Flush h2 os2 = (h3, os2, Some ErrClosed)
    /\ written 0 os2 = [].
Proof.
  eassert (Hc : FileHandler_Close fh8 os1 = (_, _, None)) by reflexivity.
  destruct (Handle_after_Close fh8 os1 _ _ abcde abcde Hc (no_lock_free _) eq_refl)
    as (_ & _ & _ & _ & H).
  destruct H as (h2 & h3 & b3 & H1 & H2 & _); [done|done|done|simpl; lia|].
  eexists _, _, h2, h3. split; [exact Hc|]. split; [exact H1|].
  split; [exact H2|reflexivity].
Defined.

Lemma buffer_stays_within_size_witness :
  within_size fh8
  /\ exists h' os',
      run [OpHandle abcde; OpHandle fghij; OpFlush; OpClose; OpHandle abcde]
          (fh8, os1_tight) = Returns (h', os')
      /\ within_size h'.
Proof.
  assert (Hin : within_size fh8) by (intros b Hb; discriminate Hb).
  split; [exact Hin|].
  destruct (buffer_stays_within_size
              [OpHandle abcde; OpHandle fghij; OpFlush; OpClose; OpHandle abcde]
              fh8 os1_tight Hin (no_lock_free _))
    as (h' & os' & H1 & H2 & _).
  exists h', os'. split; [exact H1|exact H2].
Defined.


Lemma nonpositive_BuffSize_flushes_every_record_witness :
  exists h' os',
    BufferedHandler_Handle (NewBufferedHandler fh0 0) abcde os1 = Returns (h', os', None)
    /\ b_buf (buffered_buffer h') = []
    /\ written 0 os' = abcde
    /\ synced os' = [0].
Proof.
  destruct (nonpositive_BuffSize_flushes_every_record (NewBufferedHandler fh0 0)
              fh0 0 abcde abcde os1) as (_ & h' & os' & H1 & H2 & H3 & H4 & _);
    [exact no_lock_free | lia | reflexivity | reflexivity | reflexivity
    | split; [reflexivity | simpl; lia] |].
  exists h', os'. split; [exact H1|]. split; [exact H2|]. split; [exact H3|exact H4].
Defined.

Lemma Handle_flush_needs_reentrant_lock_witness :
  BufferedHandler_Handle (Locker0:=HandlerProofs.go_mutex) bh8_mutex rec8 os1 = Blocks
  /\ exists h', BufferedHandler_Handle (Locker0:=HandlerProofs.go_mutex)
                  bh8_mutex abcde os1 = Returns (h', os1, None).
Proof.
  split.
  - eassert (Hw : bufio_Write (buffered_buffer bh8_mutex) rec8 os1 = (_, _, _, _))
      by reflexivity.
    exact (Handle_flush_needs_reentrant_lock (Locker0:=HandlerProofs.go_mutex)
             bh8_mutex rec8 rec8 os1 true _ _ _ _ eq_refl eq_refl eq_refl Hw).
  - eassert (Hw : bufio_Write (buffered_buffer bh8_mutex) abcde os1 = (_, _, _, _))
      by reflexivity.
    eexists.
    exact (Handle_flush_needs_reentrant_lock (Locker0:=HandlerProofs.go_mutex)
             bh8_mutex abcde abcde os1 true _ _ _ _ eq_refl eq_refl eq_refl Hw).
Defined.

End HandlerMoreProofs.

(** * More on the config and the Builder *)

Module ConfigMoreProofs.
Import Os HandlerConfig ConfigMore.

Section proofs.
Context {W H : Type} `{!WriterDeps W, !BuilderDeps W H}.

(** The buffer [CreateWriter] and the Builder put around a writer. *)
Definition wrapped (c : Config) (w : W) : W :=
  if bool_decide (BuffMode c = BuffModeLine)
  then bufwrite_NewLineWriterSize w (BuffSize c)
  else bufwrite_NewBufIOWriterSize w (BuffSize c).

Lemma wrap_when_buffered_returns (c : Config) (w : W) :
  wrap_when_buffered c w
  = Returns (if bool_decide (0 < BuffSize c) then wrapped c w else w).
Proof.
  unfold wrap_when_buffered, wrapBuffer, wrapped.
  destruct (bool_decide (0 < BuffSize c)) eqn:Hb; [|reflexivity].
  apply bool_decide_eq_true in Hb.
  rewrite bool_decide_eq_false_2 by lia.
  by destruct (bool_decide (BuffMode c = BuffModeLine)).
Qed.

(** The writer [CreateWriter] opens before it wraps a buffer around it. *)
Definition opened (c : Config) (os : OS) : OS * (W + error) :=
  if bool_decide (0 < MaxSize c \/ 0 < RotateTime c) then
    rotatefile_Create
      (mkRotateConfig true (Logfile c) (MaxSize c) (RotateTime c)
         (BackupNum c) (BackupTime c) (Compress c)
         (match RenameFunc c with
          | Some f => Some f
          | None => rc_RenameFunc rotatefile_EmptyConfigWith
          end)) os
  else fsutil_QuickOpenFile (Logfile c) os.

Lemma CreateWriter_opened (c : Config) (os : OS) :
  Logfile c <> "" ->
  CreateWriter c os
  = Returns (fst (opened c os),
             match snd (opened c os) with
             | inr e => inr e
             | inl w => inl (if bool_decide (0 < BuffSize c) then wrapped c w else w)
             end).
Proof.
  intros Hl. unfold CreateWriter. rewrite bool_decide_eq_false_2 by done.
  fold (opened c os). destruct (opened c os) as [os1 [w|e]]; simpl; [|done].
  pose proof (wrap_when_buffered_returns c w) as Hw.
  unfold wrap_when_buffered in Hw.
  destruct (bool_decide (0 < BuffSize c)); [|done]. by rewrite Hw.
Qed.

(** [wrapBuffer] panics on a BuffSize of 0, and only then; [CreateWriter]
    and [RotateWriter] call it for a BuffSize above 0 only: whatever the
    config, they return, with a writer or with an error. *)
Theorem wrapBuffer_panic_unreachable (c : Config) (os : OS) (w : W) :
  (wrapBuffer c w = Panics <-> BuffSize c = 0)
  /\ (exists os1 res, CreateWriter c os = Returns (os1, res))
  /\ (exists os1 res, RotateWriter c os = Returns (os1, res))
  /\ (BuffSize c <= 0 -> forall os1 w1,
        CreateWriter c os = Returns (os1, inl w1) -> snd (opened c os) = inl w1).
Proof.
  assert (Hcw : exists os1 res, CreateWriter c os = Returns (os1, res)).
  { destruct (decide (Logfile c = "")) as [Hl|Hl].
    - unfold CreateWriter. rewrite bool_decide_eq_true_2 by done. by eexists _, _.
    - rewrite CreateWriter_opened by done. by eexists _, _. }
  split_and!.
  - unfold wrapBuffer. destruct (bool_decide (BuffSize c = 0)) eqn:Hb.
    + apply bool_decide_eq_true in Hb. done.
    + apply bool_decide_eq_false in Hb.
      destruct (bool_decide (BuffMode c = BuffModeLine)); split; done.
  - exact Hcw.
  - unfold RotateWriter. destruct (bool_decide _); [by eexists _, _|exact Hcw].
  - intros Hle os1 w1. destruct (decide (Logfile c = "")) as [Hl|Hl].
    + unfold CreateWriter. by rewrite bool_decide_eq_true_2 by done.
    + rewrite CreateWriter_opened by done.
      rewrite (bool_decide_eq_false_2 (0 < BuffSize c)) by lia.
      destruct (snd (opened c os)) as [w2|e]; [|done]. by intros [= _ ->].
Qed.

(** [RotateWriter] refuses a config with MaxSize 0 and RotateTime 0, but
    not one with MaxSize 0 and a RotateTime below 0: for that it returns
    what [CreateWriter] builds when rotation is off, the log file opened
    by [fsutil.QuickOpenFile], with no rotation. *)
Theorem RotateWriter_negative_time_does_not_rotate (c : Config) (os : OS) :
  MaxSize c = 0 -> RotateTime c < 0 -> Logfile c <> "" ->
  RotateWriter c os = CreateWriter (WithRotateTime 0 c) os
  /\ opened c os = fsutil_QuickOpenFile (Logfile c) os
  /\ (BuffSize c <= 0 ->
      RotateWriter c os = Returns (fsutil_QuickOpenFile (Logfile c) os))
  /\ exists e, RotateWriter (WithRotateTime 0 c) os = Returns (os, inr e).
Proof.
  intros Hm Ht Hl.
  assert (Hop : opened c os = fsutil_QuickOpenFile (Logfile c) os).
  { unfold opened. rewrite bool_decide_eq_false_2; [done|]. lia. }
  assert (Hop0 : opened (WithRotateTime 0 c) os = fsutil_QuickOpenFile (Logfile c) os).
  { unfold opened. simpl. rewrite bool_decide_eq_false_2; [done|]. lia. }
  assert (Hrw : RotateWriter c os = CreateWriter c os).
  { unfold RotateWriter. rewrite bool_decide_eq_false_2; [done|]. lia. }
  split_and!.
  - rewrite Hrw, !CreateWriter_opened by done. by rewrite Hop, Hop0.
  - exact Hop.
  - intros Hb. rewrite Hrw, CreateWriter_opened by done. rewrite Hop.
    rewrite (bool_decide_eq_false_2 (0 < BuffSize c)) by lia.
    by destruct (fsutil_QuickOpenFile (Logfile c) os) as [os1 [w|e]].
  - unfold RotateWriter. simpl. rewrite bool_decide_eq_true_2 by done. by eexists.
Qed.

(** *** The Builder *)

(** The handler [buildFromWriter] makes: the constructor goes by the
    interfaces of the writer it is given, the buffer by BuffSize. *)
Definition built (c : Config) (w : W) : H :=
  let w' := if bool_decide (0 < BuffSize c) then wrapped c w else w in
  let h := if is_SyncCloseWriter w then NewSyncCloseHandler w' (Levels c)
           else if is_FlushCloseWriter w then NewFlushCloseHandler w' (Levels c)
           else if is_WriteCloser w then NewWriteCloser w' (Levels c)
           else NewIOWriter w' (Levels c) in
  if UseJSON c then if has_SetFormatter h then SetFormatter_JSON h else h else h.

Lemma buildFromWriter_returns (b : Builder W) (w : W) :
  buildFromWriter b w = Returns (built (b_Config b) w, NewBuilder).
Proof.
  unfold buildFromWriter, built. rewrite wrap_when_buffered_returns.
  by destruct (is_SyncCloseWriter w), (is_FlushCloseWriter w), (is_WriteCloser w).
Qed.

(** A Builder builds once.  With an output writer set, [Build] makes the
    handler from it and opens nothing, whatever the log file; with no
    output and a log file, it makes the handler from the writer
    [CreateWriter] returns, and panics on its error; with neither, it
    panics.  A [Build] that returns leaves the builder reset to the empty
    config without output, so that a second [Build] panics. *)
Theorem Builder_builds_once (b : Builder W) (os : OS) :
  (forall w, Output b = Some w ->
     Build b os = Returns (built (b_Config b) w, NewBuilder, os))
  /\ (Output b = None -> Logfile (b_Config b) = "" -> Build b os = Panics)
  /\ (Output b = None -> forall os1 e,
       CreateWriter (b_Config b) os = Returns (os1, inr e) -> Build b os = Panics)
  /\ (Output b = None -> forall os1 w,
       Logfile (b_Config b) <> "" ->
       CreateWriter (b_Config b) os = Returns (os1, inl w) ->
       Build b os = Returns (built (b_Config b) w, NewBuilder, os1))
  /\ (forall h b' os',
       Build b os = Returns (h, b', os') ->
       b' = NewBuilder /\ forall os2, Build b' os2 = Panics).
Proof.
  assert (Hnew : forall os2, Build (H:=H) NewBuilder os2 = Panics) by done.
  split_and!.
  - intros w Hw. unfold Build. by rewrite Hw, buildFromWriter_returns.
  - intros Ho Hl. unfold Build. by rewrite Ho, Hl.
  - intros Ho os1 e Hc. unfold Build. rewrite Ho.
    destruct (bool_decide _); [|done]. by rewrite Hc.
  - intros Ho os1 w Hl Hc. unfold Build. rewrite Ho.
    rewrite bool_decide_eq_true_2 by done. rewrite Hc. simpl.
    by rewrite buildFromWriter_returns.
  - intros h b' os'. unfold Build. destruct (Output b) as [w|].
    + rewrite buildFromWriter_returns. simpl. by intros [= <- <- <-].
    + destruct (bool_decide _); [|done].
      destruct (CreateWriter (b_Config b) os) as [[os1 [w|e]]| |]; try done.
      simpl. rewrite buildFromWriter_returns. simpl. by intros [= <- <- <-].
Qed.

(** Built from a log file with a BuffSize above 0, the handler writes
    through two buffers: [CreateWriter] wraps the writer it has opened,
    and [buildFromWriter] wraps the result once more. *)
Theorem Build_from_logfile_buffers_twice (b : Builder W) (os : OS) (os1 : OS)
    (raw : W) :
  let c := b_Config b in
  Output b = None -> Logfile c <> "" -> 0 < BuffSize c ->
  opened c os = (os1, inl raw) ->
  is_SyncCloseWriter (wrapped c raw) = true ->
  CreateWriter c os = Returns (os1, inl (wrapped c raw))
  /\ exists h,
      Build b os = Returns (h, NewBuilder, os1)
      /\ (UseJSON c = false ->
          h = NewSyncCloseHandler (wrapped c (wrapped c raw)) (Levels c)).
Proof.
  intros c Ho Hl Hb Hop Hscw.
  assert (Hc : CreateWriter c os = Returns (os1, inl (wrapped c raw))).
  { rewrite CreateWriter_opened by done. rewrite Hop. simpl.
    by rewrite bool_decide_eq_true_2 by done. }
  split; [exact Hc|]. eexists. split.
  - unfold Build. rewrite Ho. rewrite bool_decide_eq_true_2 by done.
    fold c. rewrite Hc. simpl. by rewrite buildFromWriter_returns.
  - intros Hj. unfold built. fold c. rewrite Hscw, Hj.
    by rewrite bool_decide_eq_true_2 by done.
Qed.

End proofs.

(** *** Concrete builds *)

(** Writers as terms: a file handle, and the two buffers around a writer. *)
Inductive writer : Type :=
| WFile (fd : nat)
| WLine (w : writer) (size : Z)
| WBufio (w : writer) (size : Z).

(** Handlers as terms: the writer they use, their levels, JSON or not. *)
Inductive built_handler : Type :=
| HSyncClose (w : writer) (levels : list Z) (json : bool).

#[local] Instance term_writers : WriterDeps writer := {|
  rotatefile_EmptyConfigWith := mkRotateConfig false "" 0 0 0 0 false None;
  rotatefile_Create rc os :=
    match OpenFile (rc_Filepath rc) os with
    | (os1, inl fd) => (os1, inl (WFile fd))
    | (os1, inr e) => (os1, inr e)
    end;
  fsutil_QuickOpenFile path os :=
    match OpenFile path os with
    | (os1, inl fd) => (os1, inl (WFile fd))
    | (os1, inr e) => (os1, inr e)
    end;
  bufwrite_NewLineWriterSize w n := WLine w n;
  bufwrite_NewBufIOWriterSize w n := WBufio w n
|}.

#[local] Instance term_builder : BuilderDeps writer built_handler := {|
  slog_AllLevels := [100; 200; 300; 400; 500; 600; 700; 800];
  is_SyncCloseWriter _ := true;
  is_FlushCloseWriter _ := true;
  is_WriteCloser _ := true;
  NewSyncCloseHandler w ls := HSyncClose w ls false;
  NewFlushCloseHandler w ls := HSyncClose w ls false;
  NewWriteCloser w ls := HSyncClose w ls false;
  NewIOWriter w ls := HSyncClose w ls false;
  has_SetFormatter _ := true;
  SetFormatter_JSON h := match h with HSyncClose w ls _ => HSyncClose w ls true end
|}.

Definition fresh_os : OS := mkOS [] [] 1000 [] [].

(** A config with MaxSize 0 and a rotate time below 0. *)
Definition negative_time : Config :=
  mkConfig "app.log" [] false BuffModeLine 0 (-1) 0 false 20 168 None.

(** [NewBuilder().WithLogfile("app.log").WithBuffSize(512)]. *)
Definition logfile_builder : Builder writer :=
  Builder_WithBuffSize 512 (Builder_WithLogfile "app.log" NewBuilder).

Lemma RotateWriter_negative_time_does_not_rotate_witness :
  RotateWriter negative_time fresh_os
  = Returns (mkOS [mkHandle "app.log" true] [] 1000 [] [], inl (WFile 0)).
Proof.
  destruct (RotateWriter_negative_time_does_not_rotate negative_time fresh_os)
    as (_ & _ & H & _); [reflexivity | reflexivity | discriminate |].
  rewrite H by (simpl; lia). reflexivity.
Defined.

Lemma Builder_builds_once_witness :
  exists h b' os',
    Build logfile_builder fresh_os = Returns (h, b', os')
    /\ Build b' os' = Panics.
Proof.
  eassert (Hb : Build logfile_builder fresh_os = Returns (_, _, _)) by reflexivity.
  destruct (Builder_builds_once logfile_builder fresh_os) as (_ & _ & _ & _ & H).
  destruct (H _ _ _ Hb) as [_ Hp].
  eexists _, _, _. split; [exact Hb|apply Hp].
Defined.

Lemma Build_from_logfile_buffers_twice_witness :
  exists b' os',
    Build logfile_builder fresh_os
    = Returns (HSyncClose (WBufio (WBufio (WFile 0) 512) 512)
                          [100; 200; 300; 400; 500; 600; 700; 800] false,
               b', os').
Proof.
  destruct (Build_from_logfile_buffers_twice logfile_builder fresh_os
              (mkOS [mkHandle "app.log" true] [] 1000 [] []) (WFile 0))
    as (_ & h & H1 & H2); [reflexivity | discriminate | simpl; lia
                          | reflexivity | reflexivity |].
  rewrite H1, (H2 eq_refl). by eexists _, _.
Defined.

End ConfigMoreProofs.
